(** * Keploy regression core: anchor classification, run lifecycle,
      ingestion, de-duplication, denoise and replay.

    Shallow embedding of [pkg/service/run] and [pkg/service/regression]
    (both stored in [pkg/service/run/run.go]) and of the data types of
    [pkg/models/tc.go]. *)

From Stdlib Require Import ZArith Lia Bool List Ascii String.
From Stdlib Require Import SpecFloat.
From stdpp Require Import base gmap strings list fin_maps sorting.

(** ** IEEE-754 binary64, as Go's [float64]

    The arithmetic is the one of [SpecFloat] at precision 53 and
    exponent bound 1024, rounding to nearest, ties to even. *)
Module F64.
Local Open Scope Z_scope.

Definition prec : Z := 53.
Definition emax : Z := 1024.

(** [float64(i)] for a Go [int]. *)
Definition of_int (z : Z) : spec_float := binary_normalize prec emax z 0 false.

(** [x * y] on [float64]. *)
Definition mul (x y : spec_float) : spec_float := SFmul prec emax x y.

(** [x > y] on [float64]. *)
Definition gt (x y : spec_float) : bool := SFltb y x.

(** The constant [0.40]: the double nearest to 2/5, that is
    [0x3FD999999999999A] = 7205759403792794 * 2^-54. *)
Definition c0_40 : spec_float := S754_finite false 7205759403792794 (-54).

(** Where the bits shifted out of a mantissa lie: [r] is what [k] right
    shifts dropped, compared with half of [2^k]. *)
Definition loc_of_rem (r k : Z) : location :=
  if r =? 0 then loc_Exact else loc_Inexact (2 * r ?= 2 ^ k).
End F64.

(** ** Go values *)
Module Go.
Local Open Scope Z_scope.

(** Go's [int] on 64-bit targets: arithmetic wraps modulo [2^64]. *)
Definition int_min : Z := - 2 ^ 63.
Definition int_max : Z := 2 ^ 63 - 1.
Definition wrap_int (z : Z) : Z := (z + 2 ^ 63) mod 2 ^ 64 - 2 ^ 63.

(** [error]: nil is [None]; a non-nil error carries its message. *)
Definition error : Type := string.

Inductive result (A : Type) : Type :=
| Ok (a : A)
| Err (e : error).
Global Arguments Ok {A} a.
Global Arguments Err {A} e.

(** A call either returns or panics (nil dereference). *)
Inductive outcome (A : Type) : Type :=
| Returned (a : A)
| Panicked.
Global Arguments Returned {A} a.
Global Arguments Panicked {A}.

(** [strings.Join(v, sep)]. *)
Definition Join (v : list string) (sep : string) : string := String.concat sep v.

(** [strings.Split(s, ".")]: the pieces between dots; never empty. *)
Fixpoint Split_dot (s : string) : list string :=
  match s with
  | EmptyString => [EmptyString]
  | String c s' =>
      if Ascii.eqb c "."%char then EmptyString :: Split_dot s'
      else match Split_dot s' with
           | h :: t => String c h :: t
           | [] => [String c EmptyString]
           end
  end.

(** [strconv.FormatBool]. *)
Definition FormatBool (b : bool) : string := if b then "true"%string else "false"%string.

(** [sort.Strings]: ascending byte-wise order. *)
Definition sort_Strings (v : list string) : list string := merge_sort String.le v.

(** Slices are references to backing arrays: a heap of arrays, and a
    slice is the index of its array. *)
Abbreviation loc := nat.
Abbreviation heap := (list (list string)).

Definition alloc (h : heap) (v : list string) : loc * heap := (length h, h ++ [v]).
Definition deref (h : heap) (l : loc) : list string := default [] (h !! l).
Definition deref_map (h : heap) (m : gmap string loc) : gmap string (list string) :=
  deref h <$> m.
End Go.
Export Go.

(** ** [pkg/models]: the recorded data *)
Module Models.
(** [http.Header] is [map[string][]string]. *)
Abbreviation Header := (gmap string (list string)).

(** Modelled from the spec: [HttpReq], [HttpResp] and [Dependency] are
    declared in another file of package [models]; §6 gives their shapes,
    [HttpReq{method, proto_major, proto_minor, url, url_params, header,
    body}], [HttpResp{status_code, header, body}] and [Dependency{name,
    type, meta, data[]}]. *)
Record HttpReq : Type := {
  req_Method : string;
  req_ProtoMajor : Z;
  req_ProtoMinor : Z;
  req_URL : string;
  req_URLParams : gmap string string;
  req_Header : Header;
  req_Body : string
}.

Record HttpResp : Type := {
  resp_StatusCode : Z;
  resp_Header : Header;
  resp_Body : string
}.

Record Dependency : Type := {
  dep_Name : string;
  dep_Type : string;
  dep_Meta : gmap string string;
  dep_Data : list string
}.

Record TestCase : Type := {
  tc_ID : string;
  tc_Created : Z;
  tc_Updated : Z;
  tc_Captured : Z;
  tc_CID : string;
  tc_AppID : string;
  tc_URI : string;
  tc_HttpReq : HttpReq;
  tc_HttpResp : HttpResp;
  tc_Deps : list Dependency;
  tc_AllKeys : gmap string (list string);
  tc_Anchors : gmap string (list string);
  tc_Noise : list string
}.

(** [t.CID = cid] *)
Definition set_CID (cid : string) (t : TestCase) : TestCase :=
  {| tc_ID := tc_ID t; tc_Created := tc_Created t; tc_Updated := tc_Updated t;
     tc_Captured := tc_Captured t; tc_CID := cid; tc_AppID := tc_AppID t;
     tc_URI := tc_URI t; tc_HttpReq := tc_HttpReq t; tc_HttpResp := tc_HttpResp t;
     tc_Deps := tc_Deps t; tc_AllKeys := tc_AllKeys t; tc_Anchors := tc_Anchors t;
     tc_Noise := tc_Noise t |}.

(** [t.AllKeys = all; t.Anchors = anchors] *)
Definition set_Keys (all anchors : gmap string (list string)) (t : TestCase) : TestCase :=
  {| tc_ID := tc_ID t; tc_Created := tc_Created t; tc_Updated := tc_Updated t;
     tc_Captured := tc_Captured t; tc_CID := tc_CID t; tc_AppID := tc_AppID t;
     tc_URI := tc_URI t; tc_HttpReq := tc_HttpReq t; tc_HttpResp := tc_HttpResp t;
     tc_Deps := tc_Deps t; tc_AllKeys := all; tc_Anchors := anchors;
     tc_Noise := tc_Noise t |}.

(** [tc.Noise = noise] *)
Definition set_Noise (noise : list string) (t : TestCase) : TestCase :=
  {| tc_ID := tc_ID t; tc_Created := tc_Created t; tc_Updated := tc_Updated t;
     tc_Captured := tc_Captured t; tc_CID := tc_CID t; tc_AppID := tc_AppID t;
     tc_URI := tc_URI t; tc_HttpReq := tc_HttpReq t; tc_HttpResp := tc_HttpResp t;
     tc_Deps := tc_Deps t; tc_AllKeys := tc_AllKeys t; tc_Anchors := tc_Anchors t;
     tc_Noise := noise |}.

(** The calls of the [TestCaseDB] interface that the services make. *)
Inductive tdb_call : Type :=
| TUpsert (t : TestCase)
| TGet (cid id : string)
| TDelete (id : string)
| TGetKeys (cid app uri : string)
| TDeleteByAnchor (cid app uri : string) (filterKeys : gmap string (list string)).

(** The store behind [TestCaseDB] is an external collaborator: what a
    call answers is a function of the calls made so far. *)
Record TestCaseDB : Type := {
  tdb_Upsert : list tdb_call -> TestCase -> option error;
  tdb_Get : list tdb_call -> string -> string -> result TestCase;
  tdb_Delete : list tdb_call -> string -> option error;
  tdb_GetKeys : list tdb_call -> string -> string -> string -> result (list TestCase);
  tdb_DeleteByAnchor :
    list tdb_call -> string -> string -> string -> gmap string (list string) -> option error
}.
End Models.
Export Models.

(** ** JSON values, as [json.Unmarshal] into [interface{}] builds them *)
#[local] Unset Elimination Schemes.
Inductive json : Type :=
| JNull
| JBool (b : bool)
| JNumber (x : spec_float)
| JString (s : string)
| JArray (child : list json)
| JObject (m : list (string * json)).
#[local] Set Elimination Schemes.

(** The standard-library functions the services call and that are not
    modelled here. A [JObject] lists the entries of the Go map in the
    order in which this run iterates over it. *)
Record GoLib : Type := {
  json_Valid : string -> bool;
  json_Unmarshal : string -> result json;
  strconv_FormatFloat : spec_float -> ascii -> Z -> Z -> string
}.

Section FlatKey.
Context (lib : GoLib).
Local Open Scope string_scope.

(** [fk := k; if nk != "" { fk = fk + "." + nk }] *)
Definition join_key (k nk : string) : string :=
  if decide (nk = "") then k else k +:+ "." +:+ nk.

(** Body of [for nk, nv := range nm] in the [reflect.Slice] case. *)
Definition flatten_append (nk : string) (nv : list string)
    (o : gmap string (list string)) : gmap string (list string) :=
  match o !! nk with
  | Some ov => <[nk := (ov ++ nv)%list]> o
  | None => <[nk := nv]> o
  end.

(** [flatten]. The [default] case of the switch and the two failed type
    assertions answer values that [json.Unmarshal] never builds. In the
    map case two keys of the object can flatten to the same path (the
    key [a.b] and the key [b] under [a]): the later one in iteration order
    wins, which is why [JObject] carries that order. *)
Fixpoint flatten (j : json) : gmap string (list string) :=
  match j with
  | JNull => {[ "" := [""] ]}
  | JBool b => {[ "" := [FormatBool b] ]}
  | JNumber x => {[ "" := [strconv_FormatFloat lib x "E"%char (-1)%Z 64%Z] ]}
  | JString s => {[ "" := [s] ]}
  | JObject m =>
      (fix range (m : list (string * json)) (o : gmap string (list string)) :=
         match m with
         | [] => o
         | (k, v) :: m' =>
             range m' (map_fold (fun nk nv o => <[join_key k nk := nv]> o) o (flatten v))
         end) m ∅
  | JArray child =>
      (fix range (child : list json) (o : gmap string (list string)) :=
         match child with
         | [] => o
         | av :: child' => range child' (map_fold flatten_append o (flatten av))
         end) child ∅
  end.

Definition addBody (body : string) (m : gmap string (list string))
    : result (gmap string (list string)) :=
  if json_Valid lib body then
    match json_Unmarshal lib body with
    | Err err => Err err
    | Ok result =>
        Ok (map_fold (fun k v m => <[join_key "body" k := v]> m) m (flatten result))
    end
  else Ok (<["body" := [body]]> m).
End FlatKey.

(** A JSON scalar, and its canonical string. *)
Definition is_scalar (j : json) : bool :=
  match j with
  | JNull | JBool _ | JNumber _ | JString _ => true
  | JArray _ | JObject _ => false
  end.

Definition canonical (lib : GoLib) (j : json) : string :=
  match j with
  | JBool true => "true"%string
  | JBool false => "false"%string
  | JNumber x => strconv_FormatFloat lib x "E"%char (-1)%Z 64%Z
  | JString s => s
  | _ => ""%string
  end.

(** ** [isAnchor] *)
Section Anchor.
Local Open Scope Z_scope.

(** [for _, v := range m { totalCount = totalCount + v }] *)
Definition totalCount (m : gmap string Z) : Z :=
  map_fold (fun _ v acc => wrap_int (acc + v)) 0 m.

Definition isAnchor (m : gmap string Z) : bool :=
  if totalCount m <? 20 then true
  else if F64.gt (F64.mul (F64.of_int (totalCount m)) F64.c0_40)
                 (F64.of_int (Z.of_nat (size m)))
       then true
       else false.

(** The sum of the counts, without wrap-around. *)
Definition sum_counts (m : gmap string Z) : Z :=
  map_fold (fun _ v acc => acc + v) 0 m.
End Anchor.

(** ** Package [run]: test runs and their results *)
Module Run.
Local Open Scope Z_scope.

(** Modelled from the spec: the status enumerations and the record types
    of package [run] are declared in another file of the package; §3
    gives status ∈ {Running, Passed, Failed} for runs and tests, §4.4 the
    shape of [Result], and the fields below are the ones the code reads
    and writes. *)
Inductive TestRunStatus : Type :=
| TestRunStatusRunning
| TestRunStatusFailed
| TestRunStatusPassed.

(** [TestStatusUnset] is the zero value of a freshly built [Test]. *)
Inductive TestStatus : Type :=
| TestStatusUnset
| TestStatusRunning
| TestStatusFailed
| TestStatusPassed.

Inductive BodyType : Type := BodyTypePlain | BodyTypeJSON.

Record HeaderKV : Type := { hdr_Key : string; hdr_Value : list string }.

Record HeaderResult : Type := {
  hr_Normal : bool;
  hr_Expected : HeaderKV;
  hr_Actual : HeaderKV
}.

Record IntResult : Type := { ir_Normal : bool; ir_Expected : Z; ir_Actual : Z }.

Record BodyResult : Type := {
  br_Normal : bool;
  br_Type : BodyType;
  br_Expected : string;
  br_Actual : string
}.

Record Result : Type := {
  res_StatusCode : IntResult;
  res_HeadersResult : list HeaderResult;
  res_BodyResult : BodyResult
}.

Record Test : Type := {
  t_ID : string;
  t_Status : TestStatus;
  t_Started : Z;
  t_Completed : Z;
  t_RunID : string;
  t_TestCaseID : string;
  t_URI : string;
  t_Req : HttpReq;
  t_Dep : list Dependency;
  t_Resp : HttpResp;
  t_Result : Result;
  t_Noise : list string
}.

Record TestRun : Type := {
  tr_ID : string;
  tr_Created : Z;
  tr_Updated : Z;
  tr_Status : TestRunStatus;
  tr_CID : string;
  tr_App : string;
  tr_User : string;
  tr_Success : Z;
  tr_Failure : Z;
  tr_Total : Z;
  tr_Tests : list Test
}.

#[global] Instance TestRunStatus_eq_dec : EqDecision TestRunStatus.
Proof. solve_decision. Defined.
#[global] Instance TestStatus_eq_dec : EqDecision TestStatus.
Proof. solve_decision. Defined.
#[global] Instance BodyType_eq_dec : EqDecision BodyType.
Proof. solve_decision. Defined.

(** [tr.Status = s] *)
Definition set_Status (s : TestRunStatus) (tr : TestRun) : TestRun :=
  {| tr_ID := tr_ID tr; tr_Created := tr_Created tr; tr_Updated := tr_Updated tr;
     tr_Status := s; tr_CID := tr_CID tr; tr_App := tr_App tr; tr_User := tr_User tr;
     tr_Success := tr_Success tr; tr_Failure := tr_Failure tr; tr_Total := tr_Total tr;
     tr_Tests := tr_Tests tr |}.

(** [v.Tests = tests] *)
Definition set_Tests (tests : list Test) (tr : TestRun) : TestRun :=
  {| tr_ID := tr_ID tr; tr_Created := tr_Created tr; tr_Updated := tr_Updated tr;
     tr_Status := tr_Status tr; tr_CID := tr_CID tr; tr_App := tr_App tr;
     tr_User := tr_User tr; tr_Success := tr_Success tr; tr_Failure := tr_Failure tr;
     tr_Total := tr_Total tr; tr_Tests := tests |}.

(** [t.Status = s] *)
Definition set_TestStatus (s : TestStatus) (t : Test) : Test :=
  {| t_ID := t_ID t; t_Status := s; t_Started := t_Started t; t_Completed := t_Completed t;
     t_RunID := t_RunID t; t_TestCaseID := t_TestCaseID t; t_URI := t_URI t;
     t_Req := t_Req t; t_Dep := t_Dep t; t_Resp := t_Resp t; t_Result := t_Result t;
     t_Noise := t_Noise t |}.

(** [t.Completed = c] *)
Definition set_Completed (c : Z) (t : Test) : Test :=
  {| t_ID := t_ID t; t_Status := t_Status t; t_Started := t_Started t; t_Completed := c;
     t_RunID := t_RunID t; t_TestCaseID := t_TestCaseID t; t_URI := t_URI t;
     t_Req := t_Req t; t_Dep := t_Dep t; t_Resp := t_Resp t; t_Result := t_Result t;
     t_Noise := t_Noise t |}.

(** The calls of the [run.DB] interface. *)
Inductive rdb_call : Type :=
| RRead (cid : string) (user app id : option string) (from to : option Z) (offset limit : Z)
| RReadTests (runID : string)
| RUpsert (tr : TestRun)
| RPutTest (t : Test)
| RIncrement (success failure : bool) (id : string).

(** As for the test-case store: answers are a function of the calls so far. *)
Record DB : Type := {
  rdb_Read : list rdb_call -> string -> option string -> option string -> option string ->
             option Z -> option Z -> Z -> Z -> result (list TestRun);
  rdb_ReadTests : list rdb_call -> string -> result (list Test);
  rdb_Upsert : list rdb_call -> TestRun -> option error;
  rdb_PutTest : list rdb_call -> Test -> option error;
  rdb_Increment : list rdb_call -> bool -> bool -> string -> option error
}.

(** Wall clock: [time_Now i] is what the [i]-th call of [time.Now()]
    reads, in nanoseconds since the Unix epoch. *)
Definition Clock : Type := nat -> Z.

Definition Second : Z := 1000000000.
Definition Minute : Z := 60 * Second.

(** [t.Sub(u)]: the difference, saturated to the range of [Duration]. *)
Definition time_Sub (t u : Z) : Z := Z.max int_min (Z.min int_max (t - u)).

(** [time.Unix(ts, 0)] *)
Definition time_Unix (ts : Z) : Z := ts * Second.

(** The [Run] struct, with the calls made so far on its store and the
    number of clock readings so far. *)
Record RunState : Type := {
  runCount : Z;
  rdb_log : list rdb_call;
  now_calls : nat
}.

Definition log_call (c : rdb_call) (r : RunState) : RunState :=
  {| runCount := runCount r; rdb_log := rdb_log r ++ [c]; now_calls := now_calls r |}.

Definition tick (r : RunState) : RunState :=
  {| runCount := runCount r; rdb_log := rdb_log r; now_calls := S (now_calls r) |}.

Definition set_runCount (n : Z) (r : RunState) : RunState :=
  {| runCount := n; rdb_log := rdb_log r; now_calls := now_calls r |}.

Section Service.
Context (rdb : DB) (time_Now : Clock).

Definition failOldTestRuns (ts : Z) (tr : TestRun) (r : RunState)
    : option error * TestRun * RunState :=
  let diff := time_Sub (time_Now (now_calls r)) (time_Unix ts) in
  let r := tick r in
  if diff <? 5 * Minute then (None, tr, r)
  else
    let tr := set_Status TestRunStatusFailed tr in
    match rdb_Upsert rdb (rdb_log r) tr with
    | Some err2 =>
        (Some "failed validating and updating test run status"%string, tr,
         log_call (RUpsert tr) r)
    | None => (None, tr, log_call (RUpsert tr) r)
    end.

(** [ts := tests[0].Started; for _, test := range tests { if test.Started > ts {...} }] *)
Definition newest (first : Test) (tests : list Test) : Z :=
  fold_left (fun ts test => if ts <? t_Started test then t_Started test else ts)
            tests (t_Started first).

(** One iteration of the first loop of [updateStatus]; [tests] is the
    outer counter of runs that are not running. *)
Definition updateStatus_body (tr : TestRun) (tests : Z) (r : RunState)
    : option error * TestRun * Z * RunState :=
  if decide (tr_Status tr <> TestRunStatusRunning) then
    (None, tr, wrap_int (tests + 1), r)
  else
    match rdb_ReadTests rdb (rdb_log r) (tr_ID tr) with
    | Err err1 =>
        (Some "failed getting tests from DB"%string, tr, tests,
         log_call (RReadTests (tr_ID tr)) r)
    | Ok ts =>
        let r := log_call (RReadTests (tr_ID tr)) r in
        match ts with
        | [] =>
            let '(err, tr, r) := failOldTestRuns (tr_Created tr) tr r in
            (err, tr, tests, r)
        | first :: _ =>
            let '(err, tr, r) := failOldTestRuns (newest first ts) tr r in
            (err, tr, tests, r)
        end
    end.

Fixpoint updateStatus_loop (trs : list TestRun) (tests : Z) (r : RunState)
    : option error * list TestRun * Z * RunState :=
  match trs with
  | [] => (None, [], tests, r)
  | tr :: trs' =>
      match updateStatus_body tr tests r with
      | (Some err, tr, tests, r) => (Some err, tr :: trs', tests, r)
      | (None, tr, tests, r) =>
          let '(err, trs', tests, r) := updateStatus_loop trs' tests r in
          (err, tr :: trs', tests, r)
      end
  end.

(** The runs are held by pointer: the list returned is the batch after
    the in-place updates. *)
Definition updateStatus (trs : list TestRun) (r : RunState)
    : option error * list TestRun * RunState :=
  match updateStatus_loop trs 0 r with
  | (Some err, trs, _, r) => (Some err, trs, r)
  | (None, trs, tests, r) =>
      if decide (tests <> runCount r) then (None, trs, set_runCount tests r)
      else (None, trs, r)
  end.

(** The second loop of [Get]: attach the child tests. *)
Fixpoint Get_attach (res : list TestRun) (r : RunState)
    : result (list TestRun) * RunState :=
  match res with
  | [] => (Ok [], r)
  | v :: res' =>
      match rdb_ReadTests rdb (rdb_log r) (tr_ID v) with
      | Err err1 => (Err "failed getting tests from DB"%string,
                     log_call (RReadTests (tr_ID v)) r)
      | Ok tests =>
          match Get_attach res' (log_call (RReadTests (tr_ID v)) r) with
          | (Ok res', r) => (Ok (set_Tests tests v :: res'), r)
          | (Err e, r) => (Err e, r)
          end
      end
  end.

Definition Get (summary : bool) (cid : string) (user app id : option string)
    (from to : option Z) (offset limit : option Z) (r : RunState)
    : result (list TestRun) * RunState :=
  let off := default 0 offset in
  let lim := default 25 limit in
  let call := RRead cid user app id from to off lim in
  match rdb_Read rdb (rdb_log r) cid user app id from to off lim with
  | Err err => (Err "failed getting test runs"%string, log_call call r)
  | Ok res =>
      match updateStatus res (log_call call r) with
      | (Some err, _, r) => (Err err, r)
      | (None, res, r) =>
          if summary then (Ok res, r)
          else if decide (length res = 0%nat) then (Ok res, r)
          else Get_attach res r
      end
  end.

(** [Put] is a plain upsert. *)
Definition Put (run : TestRun) (r : RunState) : option error * RunState :=
  (rdb_Upsert rdb (rdb_log r) run, log_call (RUpsert run) r).
End Service.

(** The timestamp the stall check of a running run looks at: its own
    creation time when it has no child test, else the newest [started]. *)
Definition stall_stamp (tr : TestRun) (tests : list Test) : Z :=
  match tests with
  | [] => tr_Created tr
  | first :: _ => newest first tests
  end.

(** At wall-clock time [now], the second [ts] lies five minutes or more back. *)
Definition stalled (now ts : Z) : Prop := 5 * Minute <= time_Sub now (time_Unix ts).

(** What [updateStatus], taking the service from [r] to [r'], did with
    one run of the batch. *)
Definition run_checked (rdb : DB) (time_Now : Clock) (r r' : RunState)
    (tr tr' : TestRun) : Prop :=
  if decide (tr_Status tr = TestRunStatusRunning) then
    exists (i : nat) (log0 : list rdb_call) (tests : list Test),
      (now_calls r <= i < now_calls r')%nat /\
      rdb_log r `prefix_of` log0 /\
      (log0 ++ [RReadTests (tr_ID tr)]) `prefix_of` rdb_log r' /\
      rdb_ReadTests rdb log0 (tr_ID tr) = Ok tests /\
      (stalled (time_Now i) (stall_stamp tr tests) ->
         tr' = set_Status TestRunStatusFailed tr /\ RUpsert tr' ∈ rdb_log r') /\
      (~ stalled (time_Now i) (stall_stamp tr tests) -> tr' = tr)
  else tr' = tr.
End Run.

(** ** Package [regression]: ingestion, de-duplication, denoise, replay *)
Module Regression.
Local Open Scope Z_scope.
Local Open Scope string_scope.
Import Run.

(** The functions of package [pkg] that [test] calls; package [pkg] is
    represented in the sources by its tests only. [pkg_CompareHeaders]
    returns its verdict and the list it writes through its out
    parameter. *)
Record PkgLib : Type := {
  pkg_Match : string -> string -> list string -> result bool;
  pkg_CompareHeaders : Header -> Header -> gmap string string -> bool * list HeaderResult;
  pkg_Contains : list string -> string -> bool
}.

(** What the service runs against. *)
Record Env : Type := {
  tdb : TestCaseDB;
  rdb : DB;
  lib : GoLib;
  pkg : PkgLib;
  time_Now : Clock;
  uuid_New : nat -> string
}.

(** The [Regression] struct (the logger, the telemetry client and the
    mutex left out: calls are taken one at a time), with the calls made
    so far on the two stores and the number of clock and uuid draws. *)
Record State : Type := {
  tdb_log : list tdb_call;
  rdb_log : list rdb_call;
  appCount : Z;
  anchors : gmap string (list (gmap string (list string)));
  noisyFields : gmap string (gmap string bool);
  fieldCounts : gmap string (gmap string (gmap string Z));
  EnableDeDup : bool;
  now_calls : nat;
  uuid_calls : nat
}.

Definition log_tdb (c : tdb_call) (r : State) : State :=
  {| tdb_log := tdb_log r ++ [c]; rdb_log := rdb_log r; appCount := appCount r;
     anchors := anchors r; noisyFields := noisyFields r; fieldCounts := fieldCounts r;
     EnableDeDup := EnableDeDup r; now_calls := now_calls r; uuid_calls := uuid_calls r |}.

Definition log_rdb (c : rdb_call) (r : State) : State :=
  {| tdb_log := tdb_log r; rdb_log := rdb_log r ++ [c]; appCount := appCount r;
     anchors := anchors r; noisyFields := noisyFields r; fieldCounts := fieldCounts r;
     EnableDeDup := EnableDeDup r; now_calls := now_calls r; uuid_calls := uuid_calls r |}.

Definition set_anchors (a : gmap string (list (gmap string (list string)))) (r : State)
    : State :=
  {| tdb_log := tdb_log r; rdb_log := rdb_log r; appCount := appCount r;
     anchors := a; noisyFields := noisyFields r; fieldCounts := fieldCounts r;
     EnableDeDup := EnableDeDup r; now_calls := now_calls r; uuid_calls := uuid_calls r |}.

Definition set_noisyFields (n : gmap string (gmap string bool)) (r : State) : State :=
  {| tdb_log := tdb_log r; rdb_log := rdb_log r; appCount := appCount r;
     anchors := anchors r; noisyFields := n; fieldCounts := fieldCounts r;
     EnableDeDup := EnableDeDup r; now_calls := now_calls r; uuid_calls := uuid_calls r |}.

Definition set_fieldCounts (f : gmap string (gmap string (gmap string Z))) (r : State)
    : State :=
  {| tdb_log := tdb_log r; rdb_log := rdb_log r; appCount := appCount r;
     anchors := anchors r; noisyFields := noisyFields r; fieldCounts := f;
     EnableDeDup := EnableDeDup r; now_calls := now_calls r; uuid_calls := uuid_calls r |}.

Definition tick_now (r : State) : State :=
  {| tdb_log := tdb_log r; rdb_log := rdb_log r; appCount := appCount r;
     anchors := anchors r; noisyFields := noisyFields r; fieldCounts := fieldCounts r;
     EnableDeDup := EnableDeDup r; now_calls := S (now_calls r);
     uuid_calls := uuid_calls r |}.

Definition tick_uuid (r : State) : State :=
  {| tdb_log := tdb_log r; rdb_log := rdb_log r; appCount := appCount r;
     anchors := anchors r; noisyFields := noisyFields r; fieldCounts := fieldCounts r;
     EnableDeDup := EnableDeDup r; now_calls := now_calls r;
     uuid_calls := S (uuid_calls r) |}.

(** [fmt.Sprintf("%s-%s-%s", t.CID, t.AppID, t.URI)] *)
Definition index_of (t : TestCase) : string :=
  tc_CID t +:+ "-" +:+ tc_AppID t +:+ "-" +:+ tc_URI t.

(** A combination of anchors whose value lists are all in ascending order. *)
Definition sorted_lists (m : gmap string (list string)) : Prop :=
  map_Forall (fun _ v => Sorted String.le v) m.

(** [fieldCounts[k][s] = fieldCounts[k][s] + 1], creating [fieldCounts[k]]
    when it is missing. *)
Definition bump (k s : string) (fc : gmap string (gmap string Z))
    : gmap string (gmap string Z) :=
  let m := default ∅ (fc !! k) in
  <[k := <[s := wrap_int (default 0 (m !! s) + 1)]> m]> fc.

Section Service.
Context (env : Env).

(** *** The anchor cache *)

(** Body of [for k, v1 := range v.AllKeys] in [fillCache]. *)
Definition fillCache_key (k : string) (v1 : list string)
    (acc : gmap string (gmap string Z) * gmap string bool)
    : gmap string (gmap string Z) * gmap string bool :=
  let '(fieldCounts, noisyFields) := acc in
  let fieldCounts :=
    match fieldCounts !! k with
    | None => <[k := ∅]> fieldCounts
    | Some _ => fieldCounts
    end in
  let fieldCounts := fold_left (fun fc v2 => bump k v2 fc) v1 fieldCounts in
  if negb (isAnchor (default ∅ (fieldCounts !! k)))
  then (fieldCounts, <[k := true]> noisyFields)
  else (fieldCounts, noisyFields).

(** Body of [for _, v := range tcs] in [fillCache]. *)
Definition fillCache_tc
    (acc : list (gmap string (list string)) * gmap string (gmap string Z) *
           gmap string bool)
    (v : TestCase) :=
  let '(anchors, fieldCounts, noisyFields) := acc in
  let '(fieldCounts, noisyFields) :=
    map_fold fillCache_key (fieldCounts, noisyFields) (tc_AllKeys v) in
  ((anchors ++ [tc_Anchors v])%list, fieldCounts, noisyFields).

Definition fillCache (t : TestCase) (r : State) : result string * State :=
  let index := index_of t in
  let ok1 := bool_decide (is_Some (noisyFields r !! index)) in
  let ok2 := bool_decide (is_Some (fieldCounts r !! index)) in
  if ok1 && ok2 then (Ok index, r)
  else
    (* check again after the lock *)
    let ok1 := bool_decide (is_Some (noisyFields r !! index)) in
    let ok2 := bool_decide (is_Some (fieldCounts r !! index)) in
    if negb ok1 || negb ok2 then
      let call := TGetKeys (tc_CID t) (tc_AppID t) (tc_URI t) in
      match tdb_GetKeys (tdb env) (tdb_log r) (tc_CID t) (tc_AppID t) (tc_URI t) with
      | Err err => (Err err, log_tdb call r)
      | Ok tcs =>
          let '(anchors', fieldCounts', noisyFields') :=
            fold_left fillCache_tc tcs ([], ∅, ∅) in
          let r := log_tdb call r in
          (Ok index,
           set_anchors (<[index := anchors']> (anchors r))
             (set_noisyFields (<[index := noisyFields']> (noisyFields r))
                (set_fieldCounts (<[index := fieldCounts']> (fieldCounts r)) r)))
      end
    else (Ok index, r).

(** *** De-duplication *)

(** [reqKeys[k] = v] for a freshly built slice [v]. *)
Definition put_slice (k : string) (v : list string) (acc : gmap string loc * heap)
    : gmap string loc * heap :=
  let '(reqKeys, h) := acc in
  let '(l, h) := alloc h v in
  (<[k := l]> reqKeys, h).

(** The part of [isDup] that fills [reqKeys] from the request. *)
Definition isDup_reqKeys (t : TestCase) : result (gmap string loc * heap) :=
  let req := tc_HttpReq t in
  let acc := (∅, []) in
  let acc := map_fold (fun k v acc => put_slice ("header." +:+ k) [Join v ""] acc)
                      acc (req_Header req) in
  let acc := map_fold (fun k v acc => put_slice ("url_params." +:+ k) [v] acc)
                      acc (req_URLParams req) in
  if json_Valid (lib env) (req_Body req) then
    match json_Unmarshal (lib env) (req_Body req) with
    | Err err => Err err
    | Ok result =>
        Ok (map_fold (fun k v acc => put_slice (join_key "body" k) v acc)
                     acc (flatten (lib env) result))
    end
  else Ok acc.

(** The state of the loop [for k, v := range reqKeys]. *)
Record DupLoop : Type := {
  dl_fieldCounts : gmap string (gmap string Z);
  dl_noisyFields : gmap string bool;
  dl_filterKeys : gmap string loc;
  dl_isAnchorChange : bool
}.

Definition isDup_key (h : heap) (k : string) (v : loc) (s : DupLoop) : DupLoop :=
  if negb (default false (dl_noisyFields s !! k)) then
    let fc := fold_left (fun fc s => bump k s fc) (deref h v) (dl_fieldCounts s) in
    if negb (isAnchor (default ∅ (fc !! k))) then
      {| dl_fieldCounts := fc; dl_noisyFields := <[k := true]> (dl_noisyFields s);
         dl_filterKeys := dl_filterKeys s; dl_isAnchorChange := true |}
    else
      {| dl_fieldCounts := fc; dl_noisyFields := dl_noisyFields s;
         dl_filterKeys := <[k := v]> (dl_filterKeys s);
         dl_isAnchorChange := dl_isAnchorChange s |}
  else s.

(** [for _, v := range anchors { sort.Strings(v) }]: in place. *)
Definition sort_slices (anchors : gmap string loc) (h : heap) : heap :=
  map_fold (fun _ v h => <[v := sort_Strings (deref h v)]> h) h anchors.

(** [exists]: the verdict and the heap after the in-place sort.
    [reflect.DeepEqual] on two [map[string][]string] is equality of the
    maps as values here: the candidate is a non-empty map of non-empty
    slices, for which nil and empty do not come into play. *)
Definition exists_ (anchors : gmap string loc) (index : string) (h : heap) (r : State)
    : bool * heap :=
  let h := sort_slices anchors h in
  (existsb (fun v => bool_decide (v = deref_map h anchors))
           (default [] (Regression.anchors r !! index)), h).

(** [isDup]: the verdict, the test case after the writes through the
    pointer [t], and the service after. The loop updates the inner maps
    [r.fieldCounts[index]] and [r.noisyFields[index]] in place; both are
    there once [fillCache] has returned. [t.AllKeys] and [t.Anchors] are
    read off the heap when they are assigned: nothing writes to these
    slices afterwards. *)
Definition isDup (t : TestCase) (r : State) : result bool * TestCase * State :=
  match fillCache t r with
  | (Err err, r) => (Err err, t, r)
  | (Ok index, r) =>
      match isDup_reqKeys t with
      | Err err => (Err err, t, r)
      | Ok (reqKeys, h) =>
          let s := map_fold (isDup_key h)
                     {| dl_fieldCounts := default ∅ (fieldCounts r !! index);
                        dl_noisyFields := default ∅ (noisyFields r !! index);
                        dl_filterKeys := ∅; dl_isAnchorChange := true |}
                     reqKeys in
          let r := set_noisyFields (<[index := dl_noisyFields s]> (noisyFields r))
                     (set_fieldCounts (<[index := dl_fieldCounts s]> (fieldCounts r)) r) in
          let filterKeys := dl_filterKeys s in
          if decide (size filterKeys = 0%nat) then (Ok true, t, r)
          else
            let del :=
              if dl_isAnchorChange s then
                (tdb_DeleteByAnchor (tdb env) (tdb_log r) (tc_CID t) (tc_AppID t)
                   (tc_URI t) (deref_map h filterKeys),
                 log_tdb (TDeleteByAnchor (tc_CID t) (tc_AppID t) (tc_URI t)
                            (deref_map h filterKeys)) r)
              else (None, r) in
            match del with
            | (Some err, r) => (Err err, t, r)
            | (None, r) =>
                let '(dup, h) := exists_ filterKeys index h r in
                let t := set_Keys (deref_map h reqKeys) (deref_map h filterKeys) t in
                let r := set_anchors
                           (<[index := (default [] (anchors r !! index)
                                        ++ [deref_map h filterKeys])%list]> (anchors r)) r in
                (Ok dup, t, r)
            end
      end
  end.

(** *** Ingestion *)

Definition putTC (cid : string) (t : TestCase) (r : State) : result string * State :=
  let t := set_CID cid t in
  let upsert (t : TestCase) (r : State) :=
    match tdb_Upsert (tdb env) (tdb_log r) t with
    | Some err => (Err "internal failure", log_tdb (TUpsert t) r)
    | None => (Ok (tc_ID t), log_tdb (TUpsert t) r)
    end in
  if EnableDeDup r then
    match isDup t r with
    | (Err err, _, r) => (Err "internal failure", r)
    | (Ok true, _, r) => (Ok "", r)
    | (Ok false, t, r) => upsert t r
    end
  else upsert t r.

(** The loop of [Put]; [ids] is the slice built so far. *)
Fixpoint Put_loop (cid : string) (tcs : list TestCase) (ids : list string) (r : State)
    : list string * option error * State :=
  match tcs with
  | [] => (ids, None, r)
  | t :: tcs' =>
      match putTC cid t r with
      | (Err err, r) => (ids, Some "failed saving testcase", r)
      | (Ok id, r) => Put_loop cid tcs' (ids ++ [id])%list r
      end
  end.

Definition Put (cid : string) (tcs : list TestCase) (r : State)
    : list string * option error * State :=
  if decide (length tcs = 0%nat) then ([], Some "no testcase to update", r)
  else Put_loop cid tcs [] r.

Definition DeleteTC (cid id : string) (r : State) : option error * State :=
  match tdb_Get (tdb env) (tdb_log r) cid id with
  | Err err => (Some "internal failure", log_tdb (TGet cid id) r)
  | Ok t =>
      let r := log_tdb (TGet cid id) r in
      let index := index_of t in
      let r := set_anchors (delete index (anchors r)) r in
      match tdb_Delete (tdb env) (tdb_log r) id with
      | Some err => (Some "internal failure", log_tdb (TDelete id) r)
      | None => (None, log_tdb (TDelete id) r)
      end
  end.

(** The store calls that de-duplication makes. *)
Definition is_dedup_call (c : tdb_call) : Prop :=
  match c with
  | TGetKeys _ _ _ | TDeleteByAnchor _ _ _ _ => True
  | _ => False
  end.

(** The store calls that [Put] makes: those of de-duplication, and
    upserts; with de-duplication on, an upserted case carries anchors
    that are entries of its keys and are sorted. *)
Definition is_put_call (dedup : bool) (c : tdb_call) : Prop :=
  match c with
  | TGetKeys _ _ _ | TDeleteByAnchor _ _ _ _ => True
  | TUpsert u =>
      dedup = true -> tc_Anchors u ⊆ tc_AllKeys u /\ sorted_lists (tc_Anchors u)
  | _ => False
  end.

(** What [Put] with de-duplication does slot by slot: a duplicate leaves
    the empty id and goes on from the state [isDup] left; a new case is
    upserted as [isDup] left it and leaves its id. *)
Inductive put_slots (cid : string) : State -> list TestCase -> list string -> State -> Prop :=
| put_slots_nil (r : State) : put_slots cid r [] [] r
| put_slots_dup (r r1 r' : State) (t t' : TestCase) (tcs : list TestCase) (ids : list string) :
    isDup (set_CID cid t) r = (Ok true, t', r1) ->
    put_slots cid r1 tcs ids r' ->
    put_slots cid r (t :: tcs) ("" :: ids) r'
| put_slots_new (r r1 r' : State) (t t' : TestCase) (tcs : list TestCase) (ids : list string) :
    isDup (set_CID cid t) r = (Ok false, t', r1) ->
    tdb_Upsert (tdb env) (tdb_log r1) t' = None ->
    put_slots cid (log_tdb (TUpsert t') r1) tcs ids r' ->
    put_slots cid r (t :: tcs) (tc_ID t :: ids) r'.

(** *** Replay *)

(** The loop [for _, n := range tc.Noise] of [test]. *)
Definition split_noise (noise : list string) : list string * gmap string string :=
  fold_left
    (fun '(bodyNoise, headerNoise) n =>
       let a := Split_dot n in
       if bool_decide (1 < length a)%nat && bool_decide (hd "" a = "body") then
         ((bodyNoise ++ [Join (tl a) "."])%list, headerNoise)
       else if bool_decide (hd "" a = "header") then
         (bodyNoise, <[default "" (last a) := default "" (last a)]> headerNoise)
       else (bodyNoise, headerNoise))
    noise ([], ∅).

(** [test] returns [(pass, res, tc, err)]; [res] and [tc] are pointers
    and may be nil. *)
Definition test (cid id app : string) (resp : HttpResp) (r : State)
    : bool * option Result * option TestCase * option error * State :=
  match tdb_Get (tdb env) (tdb_log r) cid id with
  | Err err => (false, None, None, Some err, log_tdb (TGet cid id) r)
  | Ok tc =>
      let r := log_tdb (TGet cid id) r in
      let bodyType :=
        if json_Valid (lib env) (resp_Body resp) then BodyTypeJSON else BodyTypePlain in
      let statusCode (normal : bool) :=
        {| ir_Normal := normal; ir_Expected := resp_StatusCode (tc_HttpResp tc);
           ir_Actual := resp_StatusCode resp |} in
      let bodyResult (normal : bool) :=
        {| br_Normal := normal; br_Type := bodyType;
           br_Expected := resp_Body (tc_HttpResp tc); br_Actual := resp_Body resp |} in
      let '(bodyNoise, headerNoise) := split_noise (tc_Noise tc) in
      let body :=
        if negb (pkg_Contains (pkg env) (tc_Noise tc) "body")
           && bool_decide (bodyType = BodyTypeJSON)
        then pkg_Match (pkg env) (resp_Body (tc_HttpResp tc)) (resp_Body resp) bodyNoise
        else if negb (pkg_Contains (pkg env) (tc_Noise tc) "body")
                && negb (bool_decide (resp_Body (tc_HttpResp tc) = resp_Body resp))
             then Ok false
             else Ok true in
      match body with
      | Err err =>
          (false,
           Some {| res_StatusCode := statusCode false; res_HeadersResult := [];
                   res_BodyResult := bodyResult false |},
           Some tc, Some err, r)
      | Ok pass =>
          let bodyNormal := pass in
          let '(hdrs, hRes) :=
            pkg_CompareHeaders (pkg env) (resp_Header (tc_HttpResp tc))
                               (resp_Header resp) headerNoise in
          let pass := if negb hdrs then false else pass in
          let same := bool_decide (resp_StatusCode (tc_HttpResp tc) = resp_StatusCode resp) in
          let pass := if same then pass else false in
          (pass,
           Some {| res_StatusCode := statusCode same; res_HeadersResult := hRes;
                   res_BodyResult := bodyResult bodyNormal |},
           Some tc, None, r)
      end
  end.

Definition saveResult (t : Test) (r : State) : option error * State :=
  match rdb_PutTest (rdb env) (rdb_log r) t with
  | Some err => (Some err, log_rdb (RPutTest t) r)
  | None =>
      let r := log_rdb (RPutTest t) r in
      let failed := bool_decide (t_Status t = TestStatusFailed) in
      (rdb_Increment (rdb env) (rdb_log r) (negb failed) failed (t_RunID t),
       log_rdb (RIncrement (negb failed) failed (t_RunID t)) r)
  end.

(** [started.Unix()] *)
Definition Unix (ns : Z) : Z := ns / Second.

Definition Test (cid app runID id : string) (resp : HttpResp) (r : State)
    : outcome (bool * option error) * State :=
  let started := time_Now env (now_calls r) in
  let r := tick_now r in
  let '(ok, res, tc, err, r) := test cid id app resp r in
  match tc, res with
  | Some tc, Some res =>
      let t :=
        {| t_ID := uuid_New env (uuid_calls r); t_Status := TestStatusUnset;
           t_Started := Unix started; t_Completed := 0; t_RunID := runID;
           t_TestCaseID := id; t_URI := tc_URI tc; t_Req := tc_HttpReq tc;
           t_Dep := tc_Deps tc; t_Resp := resp; t_Result := res;
           t_Noise := tc_Noise tc |} in
      let r := tick_uuid r in
      let t := set_Completed (Unix (time_Now env (now_calls r))) t in
      let r := tick_now r in
      let t := match err with
               | Some _ => set_TestStatus TestStatusFailed t
               | None => t
               end in
      if ok then
        let t := set_TestStatus TestStatusPassed t in
        (Returned (ok, None), snd (saveResult t r))
      else
        let t := set_TestStatus TestStatusFailed t in
        (Returned (false, None), snd (saveResult t r))
  | _, _ =>
      (* [t] is nil: [t.Completed = ...] dereferences it *)
      (Panicked, r)
  end.

(** *** Denoise *)

(** [for k, v := range h { m["header."+k] = []string{strings.Join(v, "")} }] *)
Definition flat_headers (h : Header) : gmap string (list string) :=
  map_fold (fun k v m => <["header." +:+ k := [Join v ""]]> m) ∅ h.

(** The loop [for k, v := range a] of [DeNoise]. *)
Definition diff_keys (a b : gmap string (list string)) : list string :=
  map_fold
    (fun k v noise =>
       match b !! k with
       | None => (noise ++ [k])%list
       | Some v2 => if bool_decide (v = v2) then noise else (noise ++ [k])%list
       end)
    [] a.

Definition DeNoise (cid id app body : string) (h : Header) (r : State)
    : option error * State :=
  match tdb_Get (tdb env) (tdb_log r) cid id with
  | Err err => (Some err, log_tdb (TGet cid id) r)
  | Ok tc =>
      let r := log_tdb (TGet cid id) r in
      let a := flat_headers (resp_Header (tc_HttpResp tc)) in
      let b := flat_headers h in
      match addBody (lib env) (resp_Body (tc_HttpResp tc)) a with
      | Err err => (Some err, r)
      | Ok a =>
          match addBody (lib env) body b with
          | Err err => (Some err, r)
          | Ok b =>
              let tc := set_Noise (diff_keys a b) tc in
              (tdb_Upsert (tdb env) (tdb_log r) tc, log_tdb (TUpsert tc) r)
          end
      end
  end.
End Service.
End Regression.

(** ** Concrete instances used in the examples *)
Module Examples.
Local Open Scope Z_scope.
Local Open Scope string_scope.

(** A histogram of 25 observations over two values. *)
Definition hist_methods : gmap string Z := {[ "GET" := 15; "POST" := 10 ]}.

(** *** An in-memory test-case store: the documents are what replaying
    the calls on the initial documents leaves; the call number [n] (from
    0) fails when it is an upsert and [fails n] holds. *)
Definition apply_tdb_call (fails : nat -> bool) (acc : nat * list TestCase) (c : tdb_call)
    : nat * list TestCase :=
  let '(n, docs) := acc in
  (S n,
   match c with
   | TUpsert t =>
       if fails n then docs else (filter (fun d => tc_ID d <> tc_ID t) docs ++ [t])%list
   | TDelete id => filter (fun d => tc_ID d <> id) docs
   | TDeleteByAnchor cid app uri fk =>
       filter (fun d => ~ (tc_CID d = cid /\ tc_AppID d = app /\ tc_URI d = uri /\
                           tc_Anchors d = fk)) docs
   | _ => docs
   end).

Definition docs_after (fails : nat -> bool) (init : list TestCase) (log : list tdb_call)
    : list TestCase :=
  snd (fold_left (apply_tdb_call fails) log (0%nat, init)).

Definition find_doc (cid id : string) (docs : list TestCase) : result TestCase :=
  match filter (fun d => tc_CID d = cid /\ tc_ID d = id) docs with
  | d :: _ => Ok d
  | [] => Err "not found"
  end.

Definition mem_tdb_faulty (fails : nat -> bool) (init : list TestCase) : TestCaseDB :=
  {| tdb_Upsert := fun log _ => if fails (length log) then Some "write failed" else None;
     tdb_Get := fun log cid id => find_doc cid id (docs_after fails init log);
     tdb_Delete := fun _ _ => None;
     tdb_GetKeys := fun log cid app uri =>
       Ok (filter (fun d => tc_CID d = cid /\ tc_AppID d = app /\ tc_URI d = uri)
                  (docs_after fails init log));
     tdb_DeleteByAnchor := fun _ _ _ _ _ => None |}.

(** The store on which every call succeeds. *)
Definition mem_tdb (init : list TestCase) : TestCaseDB := mem_tdb_faulty (fun _ => false) init.

(** The store on which the call number [n] fails when it is an upsert. *)
Definition mem_tdb_failing_upsert (init : list TestCase) (n : nat) : TestCaseDB :=
  mem_tdb_faulty (fun i => bool_decide (i = n)) init.

(** *** A run store with fixed child tests; [put_ok] tells whether
    [PutTest] succeeds. *)
Definition mem_rdb (runs : list Run.TestRun) (tests : string -> list Run.Test)
    (put_ok : bool) : Run.DB :=
  {| Run.rdb_Read := fun _ _ _ _ _ _ _ _ _ => Ok runs;
     Run.rdb_ReadTests := fun _ runID => Ok (tests runID);
     Run.rdb_Upsert := fun _ _ => None;
     Run.rdb_PutTest := fun _ _ => if put_ok then None else Some "write failed";
     Run.rdb_Increment := fun _ _ _ _ => None |}.

(** *** Library stand-ins: two JSON documents are known to the parser. *)
Definition dq : string := String (ascii_of_nat 34) EmptyString.

(** [{"ts":1,"user":"bob"}] and [{"ts":2,"user":"bob"}] *)
Definition body_ts (n : string) : string :=
  "{" +:+ dq +:+ "ts" +:+ dq +:+ ":" +:+ n +:+ "," +:+ dq +:+ "user" +:+ dq +:+ ":"
      +:+ dq +:+ "bob" +:+ dq +:+ "}".

(** [{"tags":["b","a"]}] *)
Definition body_tags : string :=
  "{" +:+ dq +:+ "tags" +:+ dq +:+ ":[" +:+ dq +:+ "b" +:+ dq +:+ "," +:+ dq +:+ "a" +:+ dq
      +:+ "]}".

Definition parse (s : string) : option json :=
  if decide (s = body_ts "1") then
    Some (JObject [("ts", JNumber (F64.of_int 1)); ("user", JString "bob")])
  else if decide (s = body_ts "2") then
    Some (JObject [("ts", JNumber (F64.of_int 2)); ("user", JString "bob")])
  else if decide (s = body_tags) then
    Some (JObject [("tags", JArray [JString "b"; JString "a"])])
  else None.

Definition format_small (x : spec_float) : string :=
  if SFeqb x (F64.of_int 1) then "1E+00"
  else if SFeqb x (F64.of_int 2) then "2E+00"
  else "?".

Definition lib0 : GoLib :=
  {| json_Valid := fun s => bool_decide (is_Some (parse s));
     json_Unmarshal := fun s => match parse s with Some j => Ok j | None => Err "invalid" end;
     strconv_FormatFloat := fun x _ _ _ => format_small x |}.

Definition pkg0 : Regression.PkgLib :=
  {| Regression.pkg_Match := fun exp act _ => Ok (bool_decide (exp = act));
     Regression.pkg_CompareHeaders := fun exp act _ => (bool_decide (exp = act), []);
     Regression.pkg_Contains := fun l s => bool_decide (s ∈ l) |}.

Definition env_of (tdb : TestCaseDB) (rdb : Run.DB) : Regression.Env :=
  {| Regression.tdb := tdb; Regression.rdb := rdb; Regression.lib := lib0;
     Regression.pkg := pkg0;
     Regression.time_Now := fun i => (1700000000 * Run.Second + Z.of_nat i)%Z;
     Regression.uuid_New := fun _ => "uuid" |}.

Definition req0 (hdr : Header) (body : string) : HttpReq :=
  {| req_Method := "GET"; req_ProtoMajor := 1; req_ProtoMinor := 1; req_URL := "/b10aliens";
     req_URLParams := ∅; req_Header := hdr; req_Body := body |}.

Definition resp0 (code : Z) (body : string) : HttpResp :=
  {| resp_StatusCode := code; resp_Header := ∅; resp_Body := body |}.

Definition tc0 (id : string) (req : HttpReq) (resp : HttpResp) : TestCase :=
  {| tc_ID := id; tc_Created := 0; tc_Updated := 0; tc_Captured := 0; tc_CID := "cid";
     tc_AppID := "app"; tc_URI := "/b10aliens"; tc_HttpReq := req; tc_HttpResp := resp;
     tc_Deps := []; tc_AllKeys := ∅; tc_Anchors := ∅; tc_Noise := ["stale"] |}.

(** The stored case of the denoise scenario. *)
Definition tc_bob : TestCase := tc0 "id1" (req0 ∅ "") (resp0 200 (body_ts "1")).

Definition state0 (dedup : bool) : Regression.State :=
  {| Regression.tdb_log := []; Regression.rdb_log := []; Regression.appCount := 0;
     Regression.anchors := ∅; Regression.noisyFields := ∅; Regression.fieldCounts := ∅;
     Regression.EnableDeDup := dedup; Regression.now_calls := 0;
     Regression.uuid_calls := 0 |}.
(** The environment of the denoise scenario and the two flattened responses. *)
Definition env_bob : Regression.Env :=
  env_of (mem_tdb [tc_bob]) (mem_rdb [] (fun _ => []) true).

Definition flat_bob (ts : string) : gmap string (list string) :=
  {[ "body.ts" := [ts]; "body.user" := ["bob"] ]}.
(** *** Test runs: one created ten seconds before the clock starts and
    without child tests, one whose newest child test started 400 seconds
    before, one that has passed. *)
Definition clock0 : Run.Clock := fun i => (1700000000 * Run.Second + Z.of_nat i)%Z.

Definition run0 (id : string) (created : Z) (status : Run.TestRunStatus) : Run.TestRun :=
  {| Run.tr_ID := id; Run.tr_Created := created; Run.tr_Updated := created;
     Run.tr_Status := status; Run.tr_CID := "cid"; Run.tr_App := "app";
     Run.tr_User := "user"; Run.tr_Success := 0; Run.tr_Failure := 0; Run.tr_Total := 2;
     Run.tr_Tests := [] |}.

Definition test0 (runID : string) (started : Z) : Run.Test :=
  {| Run.t_ID := "t"; Run.t_Status := Run.TestStatusPassed; Run.t_Started := started;
     Run.t_Completed := started; Run.t_RunID := runID; Run.t_TestCaseID := "id1";
     Run.t_URI := "/b10aliens"; Run.t_Req := req0 ∅ ""; Run.t_Dep := [];
     Run.t_Resp := resp0 200 "";
     Run.t_Result :=
       {| Run.res_StatusCode := {| Run.ir_Normal := true; Run.ir_Expected := 200;
                                   Run.ir_Actual := 200 |};
          Run.res_HeadersResult := [];
          Run.res_BodyResult := {| Run.br_Normal := true; Run.br_Type := Run.BodyTypePlain;
                                   Run.br_Expected := ""; Run.br_Actual := "" |} |};
     Run.t_Noise := [] |}.

Definition run_fresh : Run.TestRun := run0 "run1" (1700000000 - 10) Run.TestRunStatusRunning.
Definition run_stale : Run.TestRun := run0 "run2" (1700000000 - 5000) Run.TestRunStatusRunning.
Definition run_done : Run.TestRun := run0 "run3" (1700000000 - 9000) Run.TestRunStatusPassed.

Definition tests_of (runID : string) : list Run.Test :=
  if decide (runID = "run2")
  then [test0 "run2" (1700000000 - 1000); test0 "run2" (1700000000 - 400)]
  else [].

Definition rdb0 : Run.DB := mem_rdb [] tests_of true.

Definition run_state0 : Run.RunState :=
  {| Run.runCount := 0; Run.rdb_log := []; Run.now_calls := 0 |}.
(** The denoise environment with a run store that refuses every [PutTest]. *)
Definition env_put_fails : Regression.Env :=
  env_of (mem_tdb [tc_bob]) (mem_rdb [] (fun _ => []) false).
(** *** Captures: two requests with the same method header and the tags
    body, under different ids, and an empty store. *)
Definition tc_tags (id : string) : TestCase :=
  tc0 id (req0 {[ "Accept" := ["json"] ]} body_tags) (resp0 200 "ok").

Definition env_empty : Regression.Env := env_of (mem_tdb []) (mem_rdb [] (fun _ => []) true).

(** The empty store on which the call number [n] fails when it is an upsert. *)
Definition env_failing (n : nat) : Regression.Env :=
  env_of (mem_tdb_failing_upsert [] n) (mem_rdb [] (fun _ => []) true).
(** *** Two stored cases of one endpoint, with their keys and anchors. *)
Definition tc_kept (id v : string) : TestCase :=
  {| tc_ID := id; tc_Created := 0; tc_Updated := 0; tc_Captured := 0; tc_CID := "cid";
     tc_AppID := "app"; tc_URI := "/b10aliens"; tc_HttpReq := req0 {[ "Accept" := [v] ]} "";
     tc_HttpResp := resp0 200 "ok"; tc_Deps := [];
     tc_AllKeys := {[ "header.Accept" := [v] ]}; tc_Anchors := {[ "header.Accept" := [v] ]};
     tc_Noise := [] |}.

Definition env_two : Regression.Env :=
  env_of (mem_tdb [tc_kept "idA" "json"; tc_kept "idB" "xml"]) (mem_rdb [] (fun _ => []) true).
(** A capture that differs from [tc_tags] in its header. *)
Definition tc_xml (id : string) : TestCase :=
  tc0 id (req0 {[ "Accept" := ["xml"] ]} "") (resp0 200 "ok").
End Examples.

(** ** More of package [regression]: construction, log sanitising, and
    the request keys read as values *)
Module RegressionMore.
Import Regression.
Local Open Scope string_scope.

(** [New]: the service starts with three empty cache maps. *)
Definition New (EnableDeDup : bool) : State :=
  {| tdb_log := []; rdb_log := []; appCount := 0; anchors := ∅; noisyFields := ∅;
     fieldCounts := ∅; Regression.EnableDeDup := EnableDeDup; now_calls := 0;
     uuid_calls := 0 |}.

(** [re.ReplaceAll(s, "")] for the pattern [(\n|\n\r|\r\n|\r)]: matching
    is leftmost-first, so at a line feed the first alternative matches
    and at a carriage return the third or the fourth; every line feed
    and every carriage return is removed and nothing else. *)
Fixpoint strip_newlines (s : string) : string :=
  match s with
  | EmptyString => EmptyString
  | String c s' =>
      if Ascii.eqb c "010"%char || Ascii.eqb c "013"%char then strip_newlines s'
      else String c (strip_newlines s')
  end.

(** [html.EscapeString]: the five characters [<], [>], [&], ['] and the
    double quote are replaced by their entities. *)
Definition escape_char (c : ascii) : string :=
  if Ascii.eqb c "&"%char then "&amp;"
  else if Ascii.eqb c "'"%char then "&#39;"
  else if Ascii.eqb c "<"%char then "&lt;"
  else if Ascii.eqb c ">"%char then "&gt;"
  else if Ascii.eqb c "034"%char then "&#34;"
  else String c EmptyString.

Fixpoint html_EscapeString (s : string) : string :=
  match s with
  | EmptyString => EmptyString
  | String c s' => escape_char c +:+ html_EscapeString s'
  end.

Definition sanitiseInput (s : string) : string := html_EscapeString (strip_newlines s).

(** The characters of a string. *)
Fixpoint chars (s : string) : list ascii :=
  match s with
  | EmptyString => []
  | String c s' => c :: chars s'
  end.

(** The keys [isDup] reads off a request, as values: headers with their
    values joined, URL parameters, and the flattened body when it is
    JSON. *)
Definition request_keys (lib : GoLib) (t : TestCase) : result (gmap string (list string)) :=
  let req := tc_HttpReq t in
  let m := map_fold (fun k v m => <["header." +:+ k := [Join v ""]]> m) ∅ (req_Header req) in
  let m := map_fold (fun k v m => <["url_params." +:+ k := [v]]> m) m (req_URLParams req) in
  if json_Valid lib (req_Body req) then
    match json_Unmarshal lib (req_Body req) with
    | Err err => Err err
    | Ok result =>
        Ok (map_fold (fun k v m => <[join_key "body" k := v]> m) m (flatten lib result))
    end
  else Ok m.

(** The two cache maps that [fillCache] looks at are present for the
    same indexes, and an index with anchors is one of them. *)
Definition cache_wf (r : State) : Prop :=
  (forall index, is_Some (noisyFields r !! index) <-> is_Some (fieldCounts r !! index)) /\
  (forall index, is_Some (anchors r !! index) -> is_Some (noisyFields r !! index)).

(** The slices of a map are allocated, and no two keys share one. *)
Definition heap_ok (m : gmap string loc) (h : heap) : Prop :=
  (forall k l, m !! k = Some l -> (l < length h)%nat) /\
  (forall k1 k2 l, m !! k1 = Some l -> m !! k2 = Some l -> k1 = k2).

(** Path [k] is marked noisy for [index]. *)
Definition noisy (r : State) (index k : string) : Prop :=
  default false (default ∅ (noisyFields r !! index) !! k) = true.

#[global] Instance noisy_dec (r : State) (index k : string) : Decision (noisy r index k).
Proof. unfold noisy. apply _. Defined.
End RegressionMore.

(** ** The Mongo run store: the documents [Read] and [Increment] send *)
Module Mgo.
Local Open Scope string_scope.
Local Open Scope Z_scope.

(** The values these documents hold: a string, or a one-operator
    comparison such as [{"$gte": n}]. *)
Inductive bson : Type :=
| BString (s : string)
| BCmp (op : string) (n : Z).

(** The filter [Read] builds; [from] and [to] are wall-clock times in
    nanoseconds, of which the filter takes the Unix seconds. *)
Definition Read_filter (cid : string) (user app id : option string) (from to : option Z)
    : gmap string bson :=
  let filter : gmap string bson := {[ "cid" := BString cid ]} in
  let filter := match user with Some u => <["user" := BString u]> filter | None => filter end in
  let filter := match app with Some a => <["app" := BString a]> filter | None => filter end in
  let filter := match id with Some i => <["_id" := BString i]> filter | None => filter end in
  let filter :=
    match from with
    | Some f => <["updated" := BCmp "$gte" (Regression.Unix f)]> filter
    | None => filter
    end in
  let filter :=
    match to with
    | Some t => <["updated" := BCmp "$lte" (Regression.Unix t)]> filter
    | None => filter
    end in
  filter.

(** The update document [Increment] builds: operator to field increments. *)
Definition Increment_update (success failure : bool) : gmap string (list (string * Z)) :=
  let update : gmap string (list (string * Z)) := ∅ in
  let update := if success then <["$inc" := [("success", 1)]]> update else update in
  let update := if failure then <["$inc" := [("failure", 1)]]> update else update in
  update.
End Mgo.

(** ** The demo API: the handlers on the list of aliens *)
Module Demo.
Local Open Scope string_scope.
Local Open Scope Z_scope.

Record b10alien : Type := {
  ID : string;
  Name : string;
  Power : Z;
  Special : string
}.

Definition b10aliens : list b10alien :=
  [ {| ID := "1"; Name := "Alien-X"; Power := 90000;
       Special := "intelligence, power, speed, hax" |};
    {| ID := "2"; Name := "Swamp-Fire"; Power := 2000;
       Special := "fire, plant, invulnerabilityxl" |};
    {| ID := "3"; Name := "Xlr8"; Power := 1500; Special := "speed,mobility" |};
    {| ID := "4"; Name := "Jet-Ray"; Power := 1900; Special := "flight, speed, lazer" |};
    {| ID := "5"; Name := "Ben"; Power := 50;
       Special := "turn into alien, weakest, useless" |} ].

(** What [c.JSON] is given: the list, one alien, or a [gin.H] with a
    message, with or without the error flag. *)
Inductive payload : Type :=
| Aliens (l : list b10alien)
| Alien (a : b10alien)
| Message (m : string)
| Error (m : string)
| Instructions (m : string).

Definition StatusOK : Z := 200.
Definition StatusCreated : Z := 201.
Definition StatusBadRequest : Z := 400.

Definition home : Z * payload := (StatusOK, Instructions "Add '/b10aliens' to the link").

Definition getB10aliens (st : list b10alien) : Z * payload := (StatusOK, Aliens st).

(** [bound] is what [c.ShouldBindJSON] put in the struct, [None] when it
    returned an error. *)
Definition addB10alien (bound : option b10alien) (st : list b10alien)
    : Z * payload * list b10alien :=
  match bound with
  | None => (StatusBadRequest, Error "Bad Request", st)
  | Some newB10alien => (StatusCreated, Alien newB10alien, (st ++ [newB10alien])%list)
  end.

(** The loop of [editB10alien]: the first alien with the id takes the
    name, the power and the special of the body; [None] when the loop
    ends without a match. *)
Fixpoint edit_loop (id : string) (edit : b10alien) (l : list b10alien)
    : option (list b10alien) :=
  match l with
  | [] => None
  | hero :: l' =>
      if decide (ID hero = id) then
        Some ({| ID := ID hero; Name := Name edit; Power := Power edit;
                 Special := Special edit |} :: l')
      else cons hero <$> edit_loop id edit l'
  end.

Definition editB10alien (id : string) (bound : option b10alien) (st : list b10alien)
    : Z * payload * list b10alien :=
  match bound with
  | None => (StatusBadRequest, Error "Bad Request", st)
  | Some edit =>
      match edit_loop id edit st with
      | Some st' => (StatusOK, Alien edit, st')
      | None => (StatusBadRequest, Error "Invalid", st)
      end
  end.

(** The loop of [removeB10alien]:
    [append(b10aliens[:i], b10aliens[i+1:]...)] at the first match. *)
Fixpoint remove_loop (id : string) (l : list b10alien) : option (list b10alien) :=
  match l with
  | [] => None
  | alien :: l' =>
      if decide (ID alien = id) then Some l'
      else cons alien <$> remove_loop id l'
  end.

Definition removeB10alien (id : string) (st : list b10alien) : Z * payload * list b10alien :=
  match remove_loop id st with
  | Some st' => (StatusOK, Message "Item Deleted", st')
  | None => (StatusBadRequest, Error "Invalid", st)
  end.
End Demo.

(** ** Further concrete instances used in the examples *)
Module MoreExamples.
Local Open Scope Z_scope.
Local Open Scope string_scope.

(** A thousand observations of a blood group, over two values. *)
Definition hist_blood : gmap string Z := {[ "A+" := 900; "B+" := 100 ]}.

(** Two timestamps, seen once each. *)
Definition hist_stamps : gmap string Z := {[ "t1" := 1; "t2" := 1 ]}.

(** A service that has marked the header [Accept] of one endpoint noisy. *)
Definition state_noisy : Regression.State :=
  {| Regression.tdb_log := []; Regression.rdb_log := []; Regression.appCount := 0;
     Regression.anchors := ∅;
     Regression.noisyFields := {[ "cid-app-/b10aliens" := {[ "header.Accept" := true ]} ]};
     Regression.fieldCounts := {[ "cid-app-/b10aliens" := ∅ ]};
     Regression.EnableDeDup := true; Regression.now_calls := 0;
     Regression.uuid_calls := 0 |}.

(** A capture without headers, URL parameters or JSON body. *)
Definition tc_bare (id : string) : TestCase :=
  Examples.tc0 id (Examples.req0 ∅ "plain") (Examples.resp0 200 "ok").

(** A stored case whose whole body is noise, and its store. *)
Definition tc_loud : TestCase :=
  set_Noise ["body"] (Examples.tc0 "id1" (Examples.req0 ∅ "") (Examples.resp0 200 "recorded")).

Definition env_loud : Regression.Env :=
  Examples.env_of (Examples.mem_tdb [tc_loud]) (Examples.mem_rdb [] (fun _ => []) true).

(** A test-case store that is down: every call fails. *)
Definition tdb_down : TestCaseDB :=
  {| tdb_Upsert := fun _ _ => Some "down"; tdb_Get := fun _ _ _ => Err "down";
     tdb_Delete := fun _ _ => Some "down"; tdb_GetKeys := fun _ _ _ _ => Err "down";
     tdb_DeleteByAnchor := fun _ _ _ _ _ => Some "down" |}.

Definition env_down : Regression.Env :=
  Examples.env_of tdb_down (Examples.mem_rdb [] (fun _ => []) true).
End MoreExamples.

(** * Properties *)

(** ** Rounding facts for [float64] *)
Module F64Facts.
Import F64.
Local Open Scope Z_scope.

(** Powers of two, one step. *)
Lemma pow2_succ k : 0 <= k -> 2 ^ (k + 1) = 2 * 2 ^ k.
Proof. intros. rewrite Z.add_1_r. apply Z.pow_succ_r; lia. Qed.

(** [digits2_pos p] is the number of binary digits of [p]. *)
Lemma digits2_pos_bounds p :
  2 ^ (Z.pos (digits2_pos p) - 1) <= Z.pos p < 2 ^ Z.pos (digits2_pos p).
Proof.
  induction p as [p IH|p IH|]; cbn [digits2_pos].
  - rewrite Pos2Z.inj_succ.
    replace (Z.succ (Z.pos (digits2_pos p)) - 1) with (Z.pos (digits2_pos p) - 1 + 1) by lia.
    rewrite pow2_succ by lia. unfold Z.succ. rewrite pow2_succ by lia. lia.
  - rewrite Pos2Z.inj_succ.
    replace (Z.succ (Z.pos (digits2_pos p)) - 1) with (Z.pos (digits2_pos p) - 1 + 1) by lia.
    rewrite pow2_succ by lia. unfold Z.succ. rewrite pow2_succ by lia. lia.
  - cbn. lia.
Qed.

(** A number between [2^(d-1)] and [2^d] has [d] digits. *)
Lemma Zdigits2_unique z d :
  2 ^ (d - 1) <= z < 2 ^ d -> 0 < d -> Zdigits2 z = d.
Proof.
  intros [Hlo Hhi] Hd.
  assert (0 < z) as Hz.
  { pose proof (Z.pow_pos_nonneg 2 (d - 1)). lia. }
  destruct z as [|p|p]; try lia. cbn [Zdigits2].
  pose proof (digits2_pos_bounds p) as [Hlo' Hhi'].
  set (d' := Z.pos (digits2_pos p)) in *.
  destruct (Z.lt_trichotomy d' d) as [Hlt|[Heq|Hgt]]; [|done|].
  - pose proof (Z.pow_le_mono_r 2 d' (d - 1)). lia.
  - pose proof (Z.pow_le_mono_r 2 d (d' - 1)). lia.
Qed.

(** One right shift of a non-negative mantissa: halve, keep the bit shifted
    out as round bit, and fold the old round bit into the sticky bit. *)
Lemma shr_1_nonneg m r s :
  0 <= m -> shr_1 (Build_shr_record m r s) = Build_shr_record (Z.div2 m) (Z.odd m) (r || s).
Proof. intros Hm. destruct m as [|[p|p|]|p]; try lia; reflexivity. Qed.

(** [iter_pos] counts in unary as [Nat.iter] does. *)
Lemma iter_pos_nat {A : Type} (f : A -> A) p x : SpecFloat.iter_pos f p x = Nat.iter (Pos.to_nat p) f x.
Proof.
  revert x. induction p as [p IH|p IH|]; intros x; cbn [SpecFloat.iter_pos].
  - rewrite !IH, Pos2Nat.inj_xI. cbn [Nat.mul]. rewrite Nat.add_0_r.
    rewrite Nat.iter_succ_r, Nat.iter_add. reflexivity.
  - rewrite !IH, Pos2Nat.inj_xO. cbn [Nat.mul]. rewrite Nat.add_0_r.
    rewrite Nat.iter_add. reflexivity.
  - reflexivity.
Qed.

(** [k] right shifts of an exact mantissa [m] leave the quotient of [m] by
    [2^k] and the location of the remainder. *)
Lemma iter_shr_1 (k : nat) m :
  0 <= m ->
  exists q r, m = q * 2 ^ Z.of_nat k + r /\ 0 <= r < 2 ^ Z.of_nat k /\ 0 <= q /\
    shr_m (Nat.iter k shr_1 (Build_shr_record m false false)) = q /\
    loc_of_shr_record (Nat.iter k shr_1 (Build_shr_record m false false)) = loc_of_rem r (Z.of_nat k).
Proof.
  intros Hm. induction k as [|k IH].
  - exists m, 0. cbn. repeat split; lia.
  - destruct IH as (q & r & Hmq & Hr & Hq & Hsm & Hloc).
    rewrite Nat.iter_succ. destruct (Nat.iter k shr_1 _) as [q0 rb sb].
    cbn [shr_m] in Hsm. subst q0.
    rewrite shr_1_nonneg by done.
    pose proof (Z.div2_odd q) as Hq2.
    exists (Z.div2 q), (Z.b2z (Z.odd q) * 2 ^ Z.of_nat k + r).
    rewrite Nat2Z.inj_succ. unfold Z.succ. rewrite pow2_succ by lia.
    assert (rb || sb = negb (r =? 0)) as Hrs.
    { unfold loc_of_rem in Hloc. destruct rb, sb, (r =? 0); cbn in Hloc; try done. }
    assert (0 <= Z.div2 q) by (rewrite Z.div2_div; apply Z.div_pos; lia).
    repeat split; try done.
    + rewrite Hmq at 1. rewrite Hq2 at 1. ring.
    + clear -Hr. destruct (Z.odd q); cbn [Z.b2z]; lia.
    + clear -Hr. destruct (Z.odd q); cbn [Z.b2z]; lia.
    + cbn [loc_of_shr_record]. rewrite Hrs. unfold loc_of_rem.
      rewrite pow2_succ by lia.
      destruct (Z.odd q); cbn [Z.b2z].
      * destruct (Z.eqb_spec r 0) as [->|Hr0]; cbn [negb].
        -- destruct (Z.eqb_spec (1 * 2 ^ Z.of_nat k + 0) 0); [lia|].
           f_equal. symmetry. apply Z.compare_eq_iff. lia.
        -- destruct (Z.eqb_spec (1 * 2 ^ Z.of_nat k + r) 0); [lia|].
           f_equal. symmetry. apply Z.compare_gt_iff. lia.
      * destruct (Z.eqb_spec r 0) as [->|Hr0]; cbn [negb].
        -- reflexivity.
        -- destruct (Z.eqb_spec (0 * 2 ^ Z.of_nat k + r) 0); [lia|].
           f_equal. symmetry. apply Z.compare_lt_iff. lia.
Qed.

(** The same for [shr], which also moves the exponent. *)
Lemma shr_exact m e k :
  0 <= m -> 0 <= k ->
  exists q r mrs, shr (Build_shr_record m false false) e k = (mrs, e + k) /\
    m = q * 2 ^ k + r /\ 0 <= r < 2 ^ k /\ 0 <= q /\
    shr_m mrs = q /\ loc_of_shr_record mrs = loc_of_rem r k.
Proof.
  intros Hm Hk. destruct k as [|p|p]; try lia.
  - exists m, 0, (Build_shr_record m false false). cbn [shr].
    split; [f_equal; lia|]. cbn. repeat split; lia.
  - cbn [shr]. rewrite iter_pos_nat.
    destruct (iter_shr_1 (Pos.to_nat p) m Hm) as (q & r & H).
    rewrite positive_nat_Z in H.
    exists q, r, (Nat.iter (Pos.to_nat p) shr_1 (Build_shr_record m false false)).
    intuition.
Qed.

(** Rounding an exact positive mantissa of [53 + k] digits. *)
Lemma binary_round_aux_exact s P E k :
  0 <= k -> 2 ^ (52 + k) <= P < 2 ^ (53 + k) -> -1074 <= E -> E + k + 1 <= 971 ->
  exists q r, P = q * 2 ^ k + r /\ 0 <= r < 2 ^ k /\
    let m2 := round_nearest_even q (loc_of_rem r k) in
    binary_round_aux prec emax s P E loc_Exact =
      if m2 <? 2 ^ 53 then S754_finite s (Z.to_pos m2) (E + k)
      else S754_finite s (Z.to_pos (2 ^ 52)) (E + k + 1).
Proof.
  intros Hk HP HE HE'.
  assert (0 < 2 ^ (52 + k)) by (apply Z.pow_pos_nonneg; lia).
  assert (Zdigits2 P = 53 + k) as HD.
  { apply Zdigits2_unique; [|lia]. replace (53 + k - 1) with (52 + k) by lia. done. }
  unfold binary_round_aux, shr_fexp. rewrite HD.
  cbn [shr_record_of_loc].
  replace (fexp prec emax (53 + k + E) - E) with k
    by (unfold fexp, SpecFloat.emin, prec, emax; lia).
  destruct (shr_exact P E k ltac:(lia) Hk) as (q & r & mrs & -> & HPq & Hr & Hq & Hm & Hloc).
  exists q, r. split; [done|]. split; [done|].
  rewrite Hm, Hloc. cbv zeta.
  set (m2 := round_nearest_even q (loc_of_rem r k)).
  assert (2 ^ 52 <= q < 2 ^ 53) as Hq53.
  { replace (52 + k) with (k + 52) in HP by lia. replace (53 + k) with (k + 53) in HP by lia.
    rewrite !Z.pow_add_r in HP by lia.
    assert (0 < 2 ^ k) by (apply Z.pow_pos_nonneg; lia).
    split; nia. }
  assert (q <= m2 <= q + 1) as Hm2.
  { unfold m2, round_nearest_even. destruct (loc_of_rem r k) as [|[]]; try lia.
    destruct (Z.even q); lia. }
  destruct (Z.ltb_spec m2 (2 ^ 53)) as [Hlt|Hge].
  - assert (Zdigits2 m2 = 53) as HD2 by (apply Zdigits2_unique; lia).
    rewrite HD2.
    replace (fexp prec emax (53 + (E + k)) - (E + k)) with 0
      by (unfold fexp, SpecFloat.emin, prec, emax; lia).
    cbn [shr shr_m]. destruct m2 as [|p|p] eqn:Em2; try lia.
    replace (E + k <=? emax - prec) with true by (symmetry; apply Z.leb_le; unfold emax, prec; lia).
    reflexivity.
  - assert (m2 = 2 ^ 53) as -> by lia.
    change (2 ^ 53) with 9007199254740992. change (2 ^ 52) with 4503599627370496.
    change (Zdigits2 9007199254740992) with 54.
    replace (fexp prec emax (54 + (E + k)) - (E + k)) with 1
      by (unfold fexp, SpecFloat.emin, prec, emax; lia).
    cbn [shr SpecFloat.iter_pos shr_1 shr_m].
    replace (E + k + 1 <=? emax - prec) with true by (symmetry; apply Z.leb_le; unfold emax, prec; lia).
    reflexivity.
Qed.

(** [float64(z)] for a positive [z] of [d <= 53] digits is exact: the
    mantissa is [z] aligned to 53 bits. *)
Lemma of_int_pos z d :
  2 ^ (d - 1) <= z < 2 ^ d -> 0 < d <= 53 ->
  of_int z = S754_finite false (Z.to_pos (z * 2 ^ (53 - d))) (d - 53).
Proof.
  intros Hz Hd.
  pose proof (Zdigits2_unique z d Hz ltac:(lia)) as HD.
  assert (0 < 2 ^ (d - 1)) by (apply Z.pow_pos_nonneg; lia).
  destruct z as [|p|p]; try lia.
  cbn [Zdigits2] in HD.
  unfold of_int, binary_normalize, binary_round. rewrite HD.
  replace (fexp prec emax (d + 0)) with (d - 53)
    by (unfold fexp, SpecFloat.emin, prec, emax; lia).
  assert (2 ^ 52 <= Z.pos p * 2 ^ (53 - d) < 2 ^ 53) as Hmz.
  { assert (2 ^ 52 = 2 ^ (d - 1) * 2 ^ (53 - d)) as ->
      by (rewrite <- Z.pow_add_r by lia; f_equal; lia).
    assert (2 ^ 53 = 2 ^ d * 2 ^ (53 - d)) as ->
      by (rewrite <- Z.pow_add_r by lia; f_equal; lia).
    assert (0 < 2 ^ (53 - d)) by (apply Z.pow_pos_nonneg; lia).
    split; [apply Z.mul_le_mono_nonneg_r; lia | apply Z.mul_lt_mono_pos_r; lia]. }
  assert (exists mz, shl_align p 0 (d - 53) = (mz, d - 53) /\ Z.pos mz = Z.pos p * 2 ^ (53 - d))
    as (mz & -> & Hmz').
  { unfold shl_align. destruct (d - 53 - 0) as [|e|e] eqn:Ed; try lia.
    - exists p. split; [f_equal; lia|]. replace (53 - d) with 0 by lia. lia.
    - exists (Pos.iter xO p e). split; [done|].
      change (Pos.iter xO p e) with (shift_pos e p).
      rewrite shift_pos_correct, Z.pow_pos_fold. replace (53 - d) with (Z.pos e) by lia. lia. }
  destruct (binary_round_aux_exact false (Z.pos mz) (d - 53) 0) as (q & r & Hq & Hr & Hres);
    try (cbn; lia).
  rewrite Hres. change (2 ^ 0) with 1 in *.
  assert (r = 0) as -> by lia. assert (q = Z.pos mz) as -> by lia.
  cbn [loc_of_rem Z.eqb round_nearest_even].
  destruct (Z.ltb_spec (Z.pos mz) (2 ^ 53)) as [_|?]; [|lia].
  rewrite <- Hmz'. f_equal. lia.
Qed.

(** [<] on two positive floats with 53-bit mantissas is [<] on their
    values, here scaled by [2^-c] to stay in the integers. *)
Lemma SFltb_normal m1 e1 m2 e2 c :
  2 ^ 52 <= m1 < 2 ^ 53 -> 2 ^ 52 <= m2 < 2 ^ 53 -> c <= e1 -> c <= e2 ->
  SFltb (S754_finite false (Z.to_pos m1) e1) (S754_finite false (Z.to_pos m2) e2) = true
  <-> m1 * 2 ^ (e1 - c) < m2 * 2 ^ (e2 - c).
Proof.
  intros H1 H2 Hc1 Hc2.
  assert (0 < 2 ^ (e1 - c)) by (apply Z.pow_pos_nonneg; lia).
  assert (0 < 2 ^ (e2 - c)) by (apply Z.pow_pos_nonneg; lia).
  unfold SFltb, SFcompare.
  destruct (Z.compare_spec e1 e2) as [->|Hlt|Hgt].
  - change (Pos.compare_cont Eq ?a ?b) with (Pos.compare a b).
    rewrite Pos2Z.inj_compare, !Z2Pos.id by lia.
    destruct (Z.compare_spec m1 m2); split; intros; try done; nia.
  - split; [intros _|done].
    replace (e2 - c) with ((e1 - c) + (e2 - e1)) by lia.
    rewrite Z.pow_add_r by lia.
    assert (2 ^ 1 <= 2 ^ (e2 - e1)) by (apply Z.pow_le_mono_r; lia).
    change (2 ^ 1) with 2 in *.
    set (X := 2 ^ (e1 - c)) in *. set (Y := 2 ^ (e2 - e1)) in *.
    assert (m1 * X < 2 ^ 53 * X) by (apply Z.mul_lt_mono_pos_r; lia).
    assert (2 ^ 52 * (X * 2) <= m2 * (X * Y)).
    { apply Z.mul_le_mono_nonneg; try lia. apply Z.mul_le_mono_nonneg_l; lia. }
    lia.
  - split; [done|intros Hlt].
    replace (e1 - c) with ((e2 - c) + (e1 - e2)) in Hlt by lia.
    rewrite Z.pow_add_r in Hlt by lia.
    assert (2 ^ 1 <= 2 ^ (e1 - e2)) by (apply Z.pow_le_mono_r; lia).
    change (2 ^ 1) with 2 in *.
    set (X := 2 ^ (e2 - c)) in *. set (Y := 2 ^ (e1 - e2)) in *.
    assert (m2 * X < 2 ^ 53 * X) by (apply Z.mul_lt_mono_pos_r; lia).
    assert (2 ^ 52 * (X * 2) <= m1 * (X * Y)).
    { apply Z.mul_le_mono_nonneg; try lia. apply Z.mul_le_mono_nonneg_l; lia. }
    lia.
Qed.

(** Rounding to nearest moves a mantissa up by at most one. *)
Lemma rne_bounds q l : q <= round_nearest_even q l <= q + 1.
Proof. unfold round_nearest_even. destruct l as [|[]]; try lia. destruct (Z.even q); lia. Qed.

(** Below the midpoint the mantissa is kept. *)
Lemma rne_below q r k : 0 <= 2 * r < 2 ^ k -> round_nearest_even q (loc_of_rem r k) = q.
Proof.
  intros Hr. unfold loc_of_rem. destruct (r =? 0); [done|].
  assert ((2 * r ?= 2 ^ k) = Lt) as -> by (apply Z.compare_lt_iff; lia). done.
Qed.

(** The integer side of the comparison: with [tA] the aligned mantissa of
    the total and [K] the weight of the bits rounded away, the rounded
    product is above [n] exactly when [5 n < 2 t]. *)
Lemma round_040_arith t n A k q r :
  0 < t < 2 ^ 50 -> 0 <= n < 2 ^ 50 -> 8 <= A -> k = 52 \/ k = 53 ->
  t * A * 7205759403792794 = q * 2 ^ k + r -> 0 <= r < 2 ^ k ->
  t * A * 7205759403792794 < 2 ^ 53 * 2 ^ k ->
  n * A * 2 ^ 54 < round_nearest_even q (loc_of_rem r k) * 2 ^ k <-> 5 * n < 2 * t.
Proof.
  intros Ht Hn HA Hk HP Hr HPlt.
  pose proof (rne_bounds q (loc_of_rem r k)) as Hm2.
  destruct (Z.lt_trichotomy (5 * n) (2 * t)) as [Hlt|[Heq|Hgt]].
  - assert ((5 * n + 1) * A <= 2 * t * A) by (apply Z.mul_le_mono_nonneg_r; lia).
    split; [done|intros _].
    destruct Hk as [-> | ->];
      [change (2 ^ 52) with 4503599627370496 in * | change (2 ^ 53) with 9007199254740992 in *];
      change (2 ^ 54) with 18014398509481984; lia.
  - assert (5 * n * A = 2 * t * A) as HnA by (f_equal; lia).
    assert (0 <= n * A) by (apply Z.mul_nonneg_nonneg; lia).
    split; [|lia]. intros Hcmp. exfalso.
    rewrite rne_below in Hcmp.
    + destruct Hk as [-> | ->];
        [change (2 ^ 52) with 4503599627370496 in * | change (2 ^ 53) with 9007199254740992 in *];
        change (2 ^ 54) with 18014398509481984 in *; lia.
    + destruct Hk as [-> | ->];
        [change (2 ^ 52) with 4503599627370496 in * | change (2 ^ 53) with 9007199254740992 in *];
        lia.
  - assert ((2 * t + 1) * A <= 5 * n * A) by (apply Z.mul_le_mono_nonneg_r; lia).
    assert (t * A <= 2 ^ 50 * A) by (apply Z.mul_le_mono_nonneg_r; lia).
    split; [|lia]. intros Hcmp. exfalso.
    destruct Hk as [-> | ->];
      [change (2 ^ 52) with 4503599627370496 in * | change (2 ^ 53) with 9007199254740992 in *];
      change (2 ^ 54) with 18014398509481984 in *; change (2 ^ 50) with 1125899906842624 in *; lia.
Qed.

(** For totals and sizes below [2^50], [float64(t) * 0.40 > float64(n)]
    holds exactly when [n] is below two fifths of [t]. *)
Lemma gt_mul_0_40 t n :
  0 < t < 2 ^ 50 -> 0 <= n < 2 ^ 50 ->
  gt (mul (of_int t) c0_40) (of_int n) = true <-> 5 * n < 2 * t.
Proof.
  intros Ht Hn.
  set (dt := Z.log2 t + 1).
  assert (2 ^ (dt - 1) <= t < 2 ^ dt) as Hdt.
  { unfold dt. replace (Z.log2 t + 1 - 1) with (Z.log2 t) by lia.
    apply Z.log2_spec. lia. }
  assert (0 < dt <= 50) as Hdt50.
  { pose proof (Z.log2_nonneg t). assert (Z.log2 t < 50) by (apply Z.log2_lt_pow2; lia).
    unfold dt. lia. }
  rewrite (of_int_pos t dt) by (done || lia).
  set (A := 2 ^ (53 - dt)).
  assert (8 <= A) as HA.
  { change 8 with (2 ^ 3). apply Z.pow_le_mono_r; lia. }
  assert (2 ^ 52 <= t * A < 2 ^ 53) as HtA.
  { assert (2 ^ 52 = 2 ^ (dt - 1) * A) as ->
      by (unfold A; rewrite <- Z.pow_add_r by lia; f_equal; lia).
    assert (2 ^ 53 = 2 ^ dt * A) as ->
      by (unfold A; rewrite <- Z.pow_add_r by lia; f_equal; lia).
    split; [apply Z.mul_le_mono_nonneg_r; lia | apply Z.mul_lt_mono_pos_r; lia]. }
  unfold gt, mul, c0_40, SFmul. cbn [xorb].
  rewrite Pos2Z.inj_mul, Z2Pos.id by lia.
  set (P := t * A * 7205759403792794).
  assert (exists k, (k = 52 \/ k = 53) /\ 2 ^ (52 + k) <= P < 2 ^ (53 + k)) as (k & Hk & HP).
  { destruct (Z.lt_ge_cases P (2 ^ 105)).
    - exists 52. split; [by left|]. change (52 + 52) with 104. change (53 + 52) with 105.
      change (2 ^ 52) with 4503599627370496 in HtA. change (2 ^ 104) with 20282409603651670423947251286016.
      unfold P. lia.
    - exists 53. split; [by right|]. change (52 + 53) with 105. change (53 + 53) with 106.
      change (2 ^ 53) with 9007199254740992 in HtA.
      change (2 ^ 106) with 81129638414606681695789005144064.
      unfold P. lia. }
  destruct (binary_round_aux_exact false P (dt - 53 + -54) k) as (q & r & HPq & Hr & Hres);
    [lia | done | lia | lia |].
  cbv zeta in Hres. rewrite Hres. clear Hres.
  set (m2 := round_nearest_even q (loc_of_rem r k)).
  assert (n * A * 2 ^ 54 < m2 * 2 ^ k <-> 5 * n < 2 * t) as Harith.
  { apply round_040_arith; try done.
    pose proof HP as [_ HP2]. rewrite Z.pow_add_r in HP2 by lia. exact HP2. }
  rewrite <- Harith.
  assert (2 ^ 52 <= q) as Hq52.
  { destruct HP as [HP _]. rewrite Z.pow_add_r in HP by lia.
    assert (0 < 2 ^ k) by (apply Z.pow_pos_nonneg; lia). nia. }
  assert (q < 2 ^ 53) as Hq53.
  { destruct HP as [_ HP]. rewrite Z.pow_add_r in HP by lia.
    apply (Z.mul_lt_mono_pos_r (2 ^ k)); [apply Z.pow_pos_nonneg|]; lia. }
  pose proof (rne_bounds q (loc_of_rem r k)) as Hm2. fold m2 in Hm2.
  assert (0 < 2 ^ k) as HK by (apply Z.pow_pos_nonneg; lia).
  destruct (Z.eq_dec n 0) as [->|Hn0].
  { cbn [of_int binary_normalize]. split; intros _.
    - apply Z.mul_pos_pos; lia.
    - destruct (m2 <? 2 ^ 53); reflexivity. }
  set (dn := Z.log2 n + 1).
  assert (2 ^ (dn - 1) <= n < 2 ^ dn) as Hdn.
  { unfold dn. replace (Z.log2 n + 1 - 1) with (Z.log2 n) by lia.
    apply Z.log2_spec. lia. }
  assert (0 < dn <= 50) as Hdn50.
  { pose proof (Z.log2_nonneg n). assert (Z.log2 n < 50) by (apply Z.log2_lt_pow2; lia).
    unfold dn. lia. }
  rewrite (of_int_pos n dn) by (done || lia).
  assert (2 ^ 52 <= n * 2 ^ (53 - dn) < 2 ^ 53) as HnB.
  { assert (2 ^ 52 = 2 ^ (dn - 1) * 2 ^ (53 - dn)) as ->
      by (rewrite <- Z.pow_add_r by lia; f_equal; lia).
    assert (2 ^ 53 = 2 ^ dn * 2 ^ (53 - dn)) as ->
      by (rewrite <- Z.pow_add_r by lia; f_equal; lia).
    assert (0 < 2 ^ (53 - dn)) by (apply Z.pow_pos_nonneg; lia).
    split; [apply Z.mul_le_mono_nonneg_r; lia | apply Z.mul_lt_mono_pos_r; lia]. }
  assert (n * 2 ^ (53 - dn) * 2 ^ (dn - 53 - (dt - 53 + -54)) = n * A * 2 ^ 54) as HN.
  { rewrite <- !Z.mul_assoc. f_equal. unfold A. rewrite <- !Z.pow_add_r by lia. f_equal. lia. }
  destruct (Z.ltb_spec m2 (2 ^ 53)) as [Hlt|Hge].
  - rewrite (SFltb_normal _ _ _ _ (dt - 53 + -54)) by lia.
    rewrite HN. replace (dt - 53 + -54 + k - (dt - 53 + -54)) with k by lia. done.
  - rewrite (SFltb_normal _ _ _ _ (dt - 53 + -54)) by lia.
    rewrite HN. replace (dt - 53 + -54 + k + 1 - (dt - 53 + -54)) with (k + 1) by lia.
    rewrite Z.pow_add_r by lia. assert (m2 = 2 ^ 53) as -> by lia.
    change (2 ^ 53) with (2 ^ 52 * 2 ^ 1). rewrite <- !Z.mul_assoc.
    rewrite (Z.mul_comm (2 ^ 1)). done.
Qed.
End F64Facts.

(** ** Anchor classification *)
Module AnchorFacts.
Import F64.
Local Open Scope Z_scope.

(** An [int] in range is not changed by wrapping. *)
Lemma wrap_int_id z : int_min <= z <= int_max -> wrap_int z = z.
Proof.
  unfold wrap_int, int_min, int_max. intros Hz.
  rewrite Z.mod_small; lia.
Qed.

(** Wrapping after each addition is wrapping once. *)
Lemma wrap_int_add_l a v : wrap_int (wrap_int a + v) = wrap_int (a + v).
Proof.
  unfold wrap_int. f_equal.
  replace ((a + 2 ^ 63) mod 2 ^ 64 - 2 ^ 63 + v + 2 ^ 63) with ((a + 2 ^ 63) mod 2 ^ 64 + v) by lia.
  rewrite Zplus_mod_idemp_l. f_equal. lia.
Qed.

(** The running total is the sum of the counts, wrapped once. *)
Lemma totalCount_sum (m : gmap string Z) : totalCount m = wrap_int (sum_counts m).
Proof.
  unfold totalCount, sum_counts.
  induction m as [|i x m Hi Hfirst IH] using map_first_key_ind.
  - rewrite !map_fold_empty. reflexivity.
  - rewrite !map_fold_insert_first_key by done.
    rewrite IH. apply wrap_int_add_l.
Qed.

(** C1. For a histogram whose counts sum (without overflow) to a total
    below 2^50 and that has fewer than 2^50 distinct values: when the
    total is below 20, [isAnchor] answers true; when the total is at least
    20, [isAnchor] answers true exactly when [total * 0.40 > len(m)] as
    computed in [float64], which is exactly when the number of distinct
    values is below two fifths of the total; so it answers false exactly
    when the distinct values are at least 0.4 times the total. *)
Theorem isAnchor_spec (m : gmap string Z) :
  int_min <= sum_counts m < 2 ^ 50 ->
  Z.of_nat (size m) < 2 ^ 50 ->
  (sum_counts m < 20 -> isAnchor m = true) /\
  (20 <= sum_counts m ->
     (isAnchor m = true <->
        gt (mul (of_int (sum_counts m)) c0_40) (of_int (Z.of_nat (size m))) = true) /\
     (isAnchor m = true <-> 5 * Z.of_nat (size m) < 2 * sum_counts m) /\
     (isAnchor m = false <-> 2 * sum_counts m <= 5 * Z.of_nat (size m))).
Proof.
  intros Hsum Hsize.
  assert (totalCount m = sum_counts m) as Htot.
  { rewrite totalCount_sum. apply wrap_int_id. unfold int_max.
    change (2 ^ 50) with 1125899906842624 in Hsum.
    change (2 ^ 63) with 9223372036854775808. lia. }
  unfold isAnchor. rewrite Htot. split.
  - intros Hlt. destruct (Z.ltb_spec (sum_counts m) 20); [done|lia].
  - intros Hge. destruct (Z.ltb_spec (sum_counts m) 20) as [|_]; [lia|].
    assert (0 < sum_counts m < 2 ^ 50) as Ht by lia.
    assert (0 <= Z.of_nat (size m) < 2 ^ 50) as Hn by lia.
    pose proof (F64Facts.gt_mul_0_40 _ _ Ht Hn) as Hfl.
    destruct (gt (mul (of_int (sum_counts m)) c0_40) (of_int (Z.of_nat (size m)))).
    + assert (5 * Z.of_nat (size m) < 2 * sum_counts m) by (by apply Hfl).
      repeat split; intros; try done; lia.
    + assert (~ 5 * Z.of_nat (size m) < 2 * sum_counts m) by (intros ?%Hfl; done).
      repeat split; intros; try done; lia.
Qed.

Lemma isAnchor_spec_witness :
  (int_min <= sum_counts Examples.hist_methods < 2 ^ 50) /\
  Z.of_nat (size Examples.hist_methods) < 2 ^ 50 /\
  20 <= sum_counts Examples.hist_methods /\
  (isAnchor Examples.hist_methods = true <->
     5 * Z.of_nat (size Examples.hist_methods) < 2 * sum_counts Examples.hist_methods).
Proof.
  assert (sum_counts Examples.hist_methods = 25) as Hs by (vm_compute; reflexivity).
  assert (size Examples.hist_methods = 2%nat) as Hn by (vm_compute; reflexivity).
  assert (int_min <= sum_counts Examples.hist_methods < 2 ^ 50) as H1
    by (rewrite Hs; unfold int_min; lia).
  assert (Z.of_nat (size Examples.hist_methods) < 2 ^ 50) as H2 by (rewrite Hn; lia).
  assert (20 <= sum_counts Examples.hist_methods) as H3 by (rewrite Hs; lia).
  split; [exact H1|]. split; [exact H2|]. split; [exact H3|].
  exact (proj1 (proj2 (proj2 (isAnchor_spec Examples.hist_methods H1 H2) H3))).
Defined.
End AnchorFacts.

(** ** Flattening and denoise *)
Module FlatKeyFacts.
Import Regression.
Local Open Scope string_scope.

(** C8. [flatten] of a JSON scalar is the one-entry map from the empty
    path to the one-element list holding the scalar's canonical string:
    [true] or [false] for a boolean, [strconv.FormatFloat(x, 'E', -1, 64)]
    for a number, the string itself for a string; [nil] gives [{"": [""]}]. *)
Theorem flatten_scalar (lib : GoLib) (j : json) :
  is_scalar j = true ->
  flatten lib j = {[ "" := [canonical lib j] ]} /\
  flatten lib j !! "" = Some [canonical lib j] /\
  size (flatten lib j) = 1%nat /\
  flatten lib JNull = {[ "" := [""] ]}.
Proof.
  intros Hj.
  assert (flatten lib j = {[ "" := [canonical lib j] ]}) as ->.
  { destruct j as [|[]| | | |]; try discriminate; reflexivity. }
  rewrite lookup_singleton_eq, map_size_singleton. done.
Qed.

Lemma flatten_scalar_witness :
  is_scalar (JBool true) = true /\
  flatten {| json_Valid := fun _ => false; json_Unmarshal := fun _ => Err "";
             strconv_FormatFloat := fun _ _ _ _ => "" |} (JBool true) !! ""
    = Some ["true"].
Proof.
  split; [reflexivity|].
  exact (proj1 (proj2 (flatten_scalar _ (JBool true) eq_refl))).
Defined.

Section Denoise.
Context (env : Env).

(** What the loop of [DeNoise] collects: the keys of [a] that [b] lacks
    or maps to another list, each once. *)
Lemma diff_keys_spec (a b : gmap string (list string)) :
  NoDup (diff_keys a b) /\
  forall k, k ∈ diff_keys a b <-> is_Some (a !! k) /\ b !! k <> a !! k.
Proof.
  unfold diff_keys.
  apply (map_fold_weak_ind (fun noise (m : gmap string (list string)) =>
    NoDup noise /\ forall k, k ∈ noise <-> is_Some (m !! k) /\ b !! k <> m !! k)).
  - split; [constructor|]. intros k. rewrite lookup_empty. split.
    + intros []%elem_of_nil.
    + intros [[? [=]] _].
  - intros i x m noise Hi [Hnd Hin].
    assert (i ∉ noise) as Hfresh.
    { intros [[? Hs] _]%Hin. congruence. }
    assert (NoDup (noise ++ [i])%list /\
            forall k, k ∈ (noise ++ [i])%list <-> k = i \/ k ∈ noise) as [Hnd' Hin'].
    { split.
      - apply NoDup_app. split; [done|]. split; [|apply NoDup_singleton].
        intros k Hk ->%list_elem_of_singleton. done.
      - intros k. rewrite elem_of_app, list_elem_of_singleton. tauto. }
    assert (forall k, k <> i ->
              (k ∈ noise <-> is_Some (<[i:=x]> m !! k) /\ b !! k <> <[i:=x]> m !! k)) as Hother.
    { intros k Hk. rewrite lookup_insert_ne by done. apply Hin. }
    destruct (b !! i) as [v2|] eqn:Hb; [case_bool_decide as Hv|].
    + subst v2. split; [done|]. intros k. destruct (decide (k = i)) as [->|Hk].
      * rewrite lookup_insert_eq, Hb. split; [done|]. intros [_ ?]. done.
      * by apply Hother.
    + split; [done|]. intros k. rewrite Hin'. destruct (decide (k = i)) as [->|Hk].
      * rewrite lookup_insert_eq, Hb. split; [|auto]. intros _. split; [eauto|congruence].
      * rewrite <- Hother by done. split; [intros [?|?]; [congruence|done] | by right].
    + split; [done|]. intros k. rewrite Hin'. destruct (decide (k = i)) as [->|Hk].
      * rewrite lookup_insert_eq, Hb. split; [|auto]. intros _. split; [eauto|congruence].
      * rewrite <- Hother by done. split; [intros [?|?]; [congruence|done] | by right].
Qed.

(** Each header [k] sits under [header.<k>] with its values joined. *)
Lemma flat_headers_lookup (h : Header) (k : string) :
  flat_headers h !! ("header." +:+ k) = (fun v => [Join v ""]) <$> h !! k.
Proof.
  unfold flat_headers.
  apply (map_fold_weak_ind (fun (m : gmap string (list string)) (h : Header) =>
    m !! ("header." +:+ k) = (fun v => [Join v ""]) <$> h !! k)).
  - by rewrite !lookup_empty.
  - intros i x h' m Hi IH. destruct (decide (i = k)) as [->|Hne].
    + by rewrite !lookup_insert_eq.
    + rewrite !lookup_insert_ne; [done|done|]. intros Heq. apply Hne.
      by apply (inj (String.app "header.")) in Heq.
Qed.

(** [addBody] writes under [body] only: the header paths are kept. *)
Lemma addBody_headers (body : string) (m a : gmap string (list string)) (k : string) :
  addBody (lib env) body m = Ok a ->
  a !! ("header." +:+ k) = m !! ("header." +:+ k).
Proof.
  assert (forall nk, join_key "body" nk <> "header." +:+ k) as Hkey.
  { intros nk. unfold join_key. case_decide; discriminate. }
  unfold addBody. destruct (json_Valid (lib env) body).
  - destruct (json_Unmarshal (lib env) body) as [result|e]; [|done]. intros [= <-].
    apply (map_fold_weak_ind (fun (o : gmap string (list string))
                                  (_ : gmap string (list string)) =>
      o !! ("header." +:+ k) = m !! ("header." +:+ k))); [done|].
    intros i x fl o Hi IH. by rewrite lookup_insert_ne.
  - intros [= <-]. by rewrite lookup_insert_ne.
Qed.

(** C4. When the test case loads and both bodies are taken in, [DeNoise]
    upserts the test case with its [Noise] replaced by a list that holds,
    each once, exactly the paths of the flattened stored response [a]
    that the flattened observed response [b] lacks or maps to another
    value list; a path of [b] alone is never in it, and the list does
    not depend on the old [Noise]. In [a] and [b] each header [k] is
    under [header.<k>] with its values joined. *)
Theorem DeNoise_noise (cid id app body : string) (h : Header) (r : State)
    (tc : TestCase) (a b : gmap string (list string)) :
  tdb_Get (tdb env) (tdb_log r) cid id = Ok tc ->
  addBody (lib env) (resp_Body (tc_HttpResp tc))
          (flat_headers (resp_Header (tc_HttpResp tc))) = Ok a ->
  addBody (lib env) body (flat_headers h) = Ok b ->
  exists noise,
    DeNoise env cid id app body h r =
      (tdb_Upsert (tdb env) (tdb_log r ++ [TGet cid id]) (set_Noise noise tc),
       log_tdb (TUpsert (set_Noise noise tc)) (log_tdb (TGet cid id) r)) /\
    noise = diff_keys a b /\
    NoDup noise /\
    (forall k, k ∈ noise <-> is_Some (a !! k) /\ b !! k <> a !! k) /\
    (forall k, a !! k = None -> k ∉ noise) /\
    tc_Noise (set_Noise noise tc) = noise /\
    (forall k, a !! ("header." +:+ k)
               = (fun v => [Join v ""]) <$> resp_Header (tc_HttpResp tc) !! k) /\
    (forall k, b !! ("header." +:+ k) = (fun v => [Join v ""]) <$> h !! k).
Proof.
  intros Hget Ha Hb. exists (diff_keys a b).
  destruct (diff_keys_spec a b) as [Hnd Hin].
  unfold DeNoise. rewrite Hget, Ha, Hb. cbn [log_tdb tdb_log].
  split; [done|]. split; [done|]. split; [done|]. split; [exact Hin|].
  split; [|split; [done|split]].
  - intros k Hk [[? Hs] _]%Hin. congruence.
  - intros k. rewrite (addBody_headers _ _ _ _ Ha). apply flat_headers_lookup.
  - intros k. rewrite (addBody_headers _ _ _ _ Hb). apply flat_headers_lookup.
Qed.
End Denoise.

(** The denoise scenario: stored [{"ts":1,"user":"bob"}], observed
    [{"ts":2,"user":"bob"}]. *)
Lemma DeNoise_noise_witness :
  tdb_Get (tdb Examples.env_bob) [] "cid" "id1" = Ok Examples.tc_bob /\
  addBody (lib Examples.env_bob) (Examples.body_ts "1") (flat_headers ∅)
    = Ok (Examples.flat_bob "1E+00") /\
  addBody (lib Examples.env_bob) (Examples.body_ts "2") (flat_headers ∅)
    = Ok (Examples.flat_bob "2E+00") /\
  "body.ts" ∈ diff_keys (Examples.flat_bob "1E+00") (Examples.flat_bob "2E+00") /\
  "body.user" ∉ diff_keys (Examples.flat_bob "1E+00") (Examples.flat_bob "2E+00").
Proof.
  assert (tdb_Get (tdb Examples.env_bob) (tdb_log (Examples.state0 true)) "cid" "id1"
          = Ok Examples.tc_bob) as H1 by (vm_compute; reflexivity).
  assert (addBody (lib Examples.env_bob) (resp_Body (tc_HttpResp Examples.tc_bob))
            (flat_headers (resp_Header (tc_HttpResp Examples.tc_bob)))
          = Ok (Examples.flat_bob "1E+00")) as H2 by (vm_compute; reflexivity).
  assert (addBody (lib Examples.env_bob) (Examples.body_ts "2") (flat_headers ∅)
          = Ok (Examples.flat_bob "2E+00")) as H3 by (vm_compute; reflexivity).
  destruct (DeNoise_noise Examples.env_bob "cid" "id1" "app" (Examples.body_ts "2") ∅
              (Examples.state0 true) Examples.tc_bob _ _ H1 H2 H3)
    as (noise & _ & -> & _ & Hin & _).
  split; [exact H1|]. split; [exact H2|]. split; [exact H3|]. split.
  - apply Hin. split; [by eexists | by vm_compute].
  - intros [_ Hne]%Hin. by apply Hne.
Defined.
End FlatKeyFacts.

(** ** The stall watchdog of test runs *)
Module RunFacts.
Import Run.
Local Open Scope Z_scope.

Section Watchdog.
Context (rdb : DB) (time_Now : Clock).

(** [newest] is the largest [started] of the tests. *)
Lemma newest_max (first : Test) (tests : list Test) :
  first ∈ tests ->
  (forall t, t ∈ tests -> t_Started t <= newest first tests) /\
  (exists t, t ∈ tests /\ t_Started t = newest first tests).
Proof.
  unfold newest. intros Hfirst.
  assert (forall (l : list Test) (a : Z),
    let m := fold_left (fun ts test => if ts <? t_Started test then t_Started test else ts) l a in
    a <= m /\ (forall t, t ∈ l -> t_Started t <= m) /\
    (m = a \/ exists t, t ∈ l /\ t_Started t = m)) as Hfold.
  { induction l as [|x l IH]; intros a; cbn.
    - split; [lia|]. split; [|by left]. intros t []%elem_of_nil.
    - destruct (IH (if a <? t_Started x then t_Started x else a)) as (Hle & Hall & Hex).
      destruct (Z.ltb_spec a (t_Started x)) as [Hlt|Hge].
      + split; [lia|]. split.
        * intros t [->|Ht]%elem_of_cons; [lia|by apply Hall].
        * right. destruct Hex as [->|(t & Ht & Heq)].
          -- exists x. split; [left|done].
          -- exists t. split; [by right|done].
      + split; [lia|]. split.
        * intros t [->|Ht]%elem_of_cons; [lia|by apply Hall].
        * destruct Hex as [->|(t & Ht & Heq)]; [by left|].
          right. exists t. split; [by right|done]. }
  destruct (Hfold tests (t_Started first)) as (Hle & Hall & Hex).
  split; [done|]. destruct Hex as [Heq|Hex]; [|done].
  exists first. split; [done|]. symmetry. exact Heq.
Qed.

Lemma failOldTestRuns_spec (ts : Z) (tr : TestRun) (r : RunState) :
  exists err tr' r', failOldTestRuns rdb time_Now ts tr r = (err, tr', r') /\
    now_calls r' = S (now_calls r) /\
    rdb_log r `prefix_of` rdb_log r' /\
    (stalled (time_Now (now_calls r)) ts ->
       tr' = set_Status TestRunStatusFailed tr /\ RUpsert tr' ∈ rdb_log r') /\
    (~ stalled (time_Now (now_calls r)) ts -> tr' = tr /\ err = None /\ rdb_log r' = rdb_log r).
Proof.
  unfold failOldTestRuns, stalled.
  destruct (Z.ltb_spec (time_Sub (time_Now (now_calls r)) (time_Unix ts)) (5 * Minute))
    as [Hlt|Hge].
  - eexists _, _, _. split; [reflexivity|]. cbn. repeat split; try done; lia.
  - cbn [tick rdb_log].
    destruct (rdb_Upsert rdb (rdb_log r) (set_Status TestRunStatusFailed tr));
      (eexists _, _, _; split; [reflexivity|]); cbn;
      (split; [done|]); (split; [by apply prefix_app_r|]);
      (split; [intros _; split; [done|]; apply elem_of_app; right; by left | intros; lia]).
Qed.

Lemma run_checked_mono (r0 r r' r1 : RunState) (tr tr' : TestRun) :
  (now_calls r0 <= now_calls r)%nat -> rdb_log r0 `prefix_of` rdb_log r ->
  (now_calls r' <= now_calls r1)%nat -> rdb_log r' `prefix_of` rdb_log r1 ->
  run_checked rdb time_Now r r' tr tr' -> run_checked rdb time_Now r0 r1 tr tr'.
Proof.
  intros Hn0 Hl0 Hn1 Hl1. unfold run_checked. case_decide; [|done].
  intros (i & log0 & tests & Hi & Hp0 & Hp1 & Hread & Hst & Hnst).
  exists i, log0, tests. split; [lia|]. split; [by etrans|]. split; [by etrans|].
  split; [done|]. split; [|done].
  intros [-> Hin]%Hst. split; [done|].
  destruct Hl1 as [k ->]. apply elem_of_app. by left.
Qed.

Lemma updateStatus_body_spec (tr : TestRun) (tests : Z) (r : RunState)
    (tr' : TestRun) (tests' : Z) (r' : RunState) :
  updateStatus_body rdb time_Now tr tests r = (None, tr', tests', r') ->
  (now_calls r <= now_calls r')%nat /\ rdb_log r `prefix_of` rdb_log r' /\
  run_checked rdb time_Now r r' tr tr'.
Proof.
  unfold updateStatus_body, run_checked. intros Hbody.
  destruct (decide (tr_Status tr = TestRunStatusRunning)) as [Hrun|Hrun].
  - rewrite decide_False in Hbody by (intros ?; done).
    destruct (rdb_ReadTests rdb (rdb_log r) (tr_ID tr)) as [ts|e] eqn:Hread; [|done].
    set (r1 := log_call (RReadTests (tr_ID tr)) r) in *.
    destruct (failOldTestRuns_spec (stall_stamp tr ts) tr r1)
      as (err & tr1 & r2 & Hfail & Hn & Hl & Hst & Hnst).
    assert (err = None /\ tr1 = tr' /\ r2 = r') as (-> & -> & ->).
    { unfold stall_stamp in Hfail. destruct ts as [|first ts];
        rewrite Hfail in Hbody; by simplify_eq. }
    assert (rdb_log r `prefix_of` rdb_log r1) as Hl1 by (by apply prefix_app_r).
    split; [cbn in Hn; lia|]. split; [by etrans|].
    exists (now_calls r), (rdb_log r), ts. cbn in Hn.
    split; [lia|]. split; [done|]. split; [exact Hl|]. split; [done|].
    split; [exact Hst|]. intros Hn'. by apply Hnst.
  - rewrite decide_True in Hbody by done. by simplify_eq.
Qed.

Lemma updateStatus_loop_spec (trs : list TestRun) :
  forall (tests : Z) (r : RunState) (trs' : list TestRun) (tests' : Z) (r' : RunState),
  updateStatus_loop rdb time_Now trs tests r = (None, trs', tests', r') ->
  (now_calls r <= now_calls r')%nat /\ rdb_log r `prefix_of` rdb_log r' /\
  Forall2 (run_checked rdb time_Now r r') trs trs'.
Proof.
  induction trs as [|tr trs IH]; intros tests r trs' tests' r' Hloop; cbn in Hloop.
  - simplify_eq. split; [lia|]. split; [done|]. constructor.
  - destruct (updateStatus_body rdb time_Now tr tests r) as [[[[e|] tr1] tests1] r1] eqn:Hbody;
      [done|].
    destruct (updateStatus_loop rdb time_Now trs tests1 r1) as [[[e2 trs2] tests2] r2] eqn:Hrest.
    simplify_eq.
    apply updateStatus_body_spec in Hbody as (Hn1 & Hl1 & Hchk).
    apply IH in Hrest as (Hn2 & Hl2 & Hall).
    split; [lia|]. split; [by etrans|]. constructor.
    + by apply (run_checked_mono r r r1 r').
    + eapply Forall2_impl; [exact Hall|]. intros x y Hxy.
      by apply (run_checked_mono r r1 r' r').
Qed.

(** C2, as the code has it. When [updateStatus] ends without a store
    error, every run of the batch that was not running is unchanged, and
    for every running run the child tests were read and the clock was
    read once: if the run has no child test and its own [created] lies
    five minutes or more before that reading, or it has child tests and
    the newest [started] among them lies five minutes or more before it,
    the run is now failed and was upserted in that state; otherwise the
    run is unchanged. The timestamp looked at for a run with child tests
    is the largest [started] among them. *)
Theorem updateStatus_stall (trs : list TestRun) (r : RunState)
    (trs' : list TestRun) (r' : RunState) :
  updateStatus rdb time_Now trs r = (None, trs', r') ->
  Forall2 (run_checked rdb time_Now r r') trs trs' /\
  (forall tr, stall_stamp tr [] = tr_Created tr) /\
  (forall tr tests, tests <> [] ->
     (forall t, t ∈ tests -> t_Started t <= stall_stamp tr tests) /\
     (exists t, t ∈ tests /\ t_Started t = stall_stamp tr tests)).
Proof.
  unfold updateStatus. intros Hupd. split; [|split; [done|]].
  - destruct (updateStatus_loop rdb time_Now trs 0 r) as [[[[e|] trs1] tests1] r1] eqn:Hloop;
      [done|].
    apply updateStatus_loop_spec in Hloop as (_ & _ & Hall).
    assert (trs1 = trs' /\ rdb_log r1 = rdb_log r' /\ now_calls r1 = now_calls r')
      as (-> & Hlog & Hnow) by (case_decide; by simplify_eq).
    eapply Forall2_impl; [exact Hall|]. intros x y Hxy.
    apply (run_checked_mono r r r1 r'); try done.
    + lia.
    + by rewrite Hlog.
  - intros tr [|first tests] Hne; [done|]. cbn [stall_stamp].
    apply newest_max. by left.
Qed.
End Watchdog.

(** A running run without child tests that was created ten seconds ago
    is left running, and nothing is upserted. *)
Lemma updateStatus_fresh_run_kept :
  tr_Status Examples.run_fresh = TestRunStatusRunning /\
  rdb_ReadTests Examples.rdb0 [] (tr_ID Examples.run_fresh) = Ok [] /\
  exists r', updateStatus Examples.rdb0 Examples.clock0 [Examples.run_fresh]
               Examples.run_state0 = (None, [Examples.run_fresh], r') /\
             rdb_log r' = [RReadTests "run1"%string].
Proof.
  split; [reflexivity|]. split; [reflexivity|].
  eexists. split; vm_compute; reflexivity.
Qed.

Lemma updateStatus_stall_witness :
  exists r',
    updateStatus Examples.rdb0 Examples.clock0
      [Examples.run_stale; Examples.run_fresh; Examples.run_done] Examples.run_state0
    = (None, [set_Status TestRunStatusFailed Examples.run_stale; Examples.run_fresh;
              Examples.run_done], r') /\
    Forall2 (run_checked Examples.rdb0 Examples.clock0 Examples.run_state0 r')
      [Examples.run_stale; Examples.run_fresh; Examples.run_done]
      [set_Status TestRunStatusFailed Examples.run_stale; Examples.run_fresh;
       Examples.run_done].
Proof.
  eexists. split; [vm_compute; reflexivity|].
  eapply (updateStatus_stall Examples.rdb0 Examples.clock0). vm_compute. reflexivity.
Defined.
End RunFacts.

(** ** Replay *)
Module ReplayFacts.
Import Run Regression.
Local Open Scope string_scope.

Section Replay.
Context (env : Env).

(** Once the test case is loaded, [test] hands back the case and a
    result; it passes only without an error. *)
Lemma test_loaded (cid id app : string) (resp : HttpResp) (r : State) (tc : TestCase) :
  tdb_Get (tdb env) (tdb_log r) cid id = Ok tc ->
  exists pass res err,
    test env cid id app resp r = (pass, Some res, Some tc, err, log_tdb (TGet cid id) r) /\
    (err <> None -> pass = false).
Proof.
  intros Hget. unfold test. rewrite Hget.
  destruct (split_noise (tc_Noise tc)) as [bodyNoise headerNoise].
  match goal with |- context [match ?b with Ok _ => _ | Err _ => _ end] => destruct b as [pass|e] end.
  - destruct (pkg_CompareHeaders _ _ _ _) as [hdrs hRes].
    eexists _, _, None. split; [reflexivity|]. done.
  - eexists false, _, (Some e). split; [reflexivity|]. done.
Qed.

(** C3, as the code has it. When the test case loads, [Test] returns
    the verdict of the comparison with a nil error: [true] on a full
    pass, [false] when the comparison fails or itself returns an error.
    It then hands a [Test] record to the run store whose status is passed
    on a pass and failed otherwise, followed, when that write succeeds,
    by the increment of the matching counter; a failure of either store
    call is not returned. *)
Theorem Test_verdict (cid app runID id : string) (resp : HttpResp) (r : State)
    (tc : TestCase) :
  tdb_Get (tdb env) (tdb_log r) cid id = Ok tc ->
  exists pass res err r1 t r',
    test env cid id app resp (tick_now r) = (pass, Some res, Some tc, err, r1) /\
    (err <> None -> pass = false) /\
    Test env cid app runID id resp r = (Returned (pass, None), r') /\
    t_Status t = (if pass then TestStatusPassed else TestStatusFailed) /\
    t_RunID t = runID /\ t_TestCaseID t = id /\ t_Resp t = resp /\ t_Result t = res /\
    t_Noise t = tc_Noise tc /\
    rdb_log r' =
      (rdb_log r ++ RPutTest t ::
         match rdb_PutTest (rdb env) (rdb_log r) t with
         | Some _ => []
         | None => [RIncrement pass (negb pass) runID]
         end)%list.
Proof.
  intros Hget.
  destruct (test_loaded cid id app resp (tick_now r) tc Hget)
    as (pass & res & err & Htest & Herr).
  exists pass, res, err, (log_tdb (TGet cid id) (tick_now r)).
  unfold Test. rewrite Htest.
  assert (forall t0 : Run.Test,
    rdb_log (snd (saveResult env t0 (tick_now (tick_uuid (log_tdb (TGet cid id) (tick_now r))))))
    = (rdb_log r ++ RPutTest t0 ::
         match rdb_PutTest (rdb env) (rdb_log r) t0 with
         | Some _ => []
         | None => [RIncrement (negb (bool_decide (t_Status t0 = TestStatusFailed)))
                               (bool_decide (t_Status t0 = TestStatusFailed)) (t_RunID t0)]
         end)%list) as Hsave.
  { intros t0. unfold saveResult. cbn [tick_now tick_uuid log_tdb rdb_log].
    destruct (rdb_PutTest (rdb env) (rdb_log r) t0); cbn; [done|].
    by rewrite <- app_assoc. }
  destruct pass.
  - destruct err as [e|]; [by specialize (Herr ltac:(done))|].
    eexists _, _. split; [done|]. split; [done|]. split; [reflexivity|].
    rewrite Hsave. repeat split; revgoals; [reflexivity|reflexivity..].
  - destruct err as [e|]; (eexists _, _; split; [done|]; split; [done|];
      split; [reflexivity|]; rewrite Hsave; repeat split; revgoals;
      [reflexivity|reflexivity..]).
Qed.
End Replay.

(** The result store fails, and [Test] still returns a nil error. *)
Lemma Test_store_failure_not_returned :
  (forall log t, rdb_PutTest (rdb Examples.env_put_fails) log t <> None) /\
  exists r', Test Examples.env_put_fails "cid" "app" "run1" "id1"
               (Examples.resp0 200 (Examples.body_ts "1")) (Examples.state0 true)
             = (Returned (true, None), r').
Proof.
  split; [intros log t; discriminate|].
  eexists. vm_compute. reflexivity.
Qed.

(** The test case does not load: [t] stays nil and [Test] panics on
    [t.Completed], before anything is handed to the run store. *)
Lemma Test_load_failure_panics :
  tdb_Get (tdb Examples.env_bob) [] "cid" "missing" = Err "not found" /\
  exists r', Test Examples.env_bob "cid" "app" "run1" "missing"
               (Examples.resp0 200 (Examples.body_ts "1")) (Examples.state0 true)
             = (Panicked, r') /\ rdb_log r' = [].
Proof.
  split; [vm_compute; reflexivity|].
  eexists. split; vm_compute; reflexivity.
Qed.

Lemma Test_verdict_witness :
  tdb_Get (tdb Examples.env_bob) (tdb_log (Examples.state0 true)) "cid" "id1"
    = Ok Examples.tc_bob /\
  exists pass r',
    Test Examples.env_bob "cid" "app" "run1" "id1"
         (Examples.resp0 200 (Examples.body_ts "2")) (Examples.state0 true)
    = (Returned (pass, None), r').
Proof.
  assert (tdb_Get (tdb Examples.env_bob) (tdb_log (Examples.state0 true)) "cid" "id1"
          = Ok Examples.tc_bob) as Hget by (vm_compute; reflexivity).
  split; [exact Hget|].
  destruct (Test_verdict Examples.env_bob "cid" "app" "run1" "id1"
              (Examples.resp0 200 (Examples.body_ts "2")) (Examples.state0 true)
              Examples.tc_bob Hget)
    as (pass & res & err & r1 & t & r' & _ & _ & HTest & _).
  exists pass, r'. exact HTest.
Defined.
End ReplayFacts.

(** ** Ingestion and de-duplication *)
Module DedupFacts.
Import Regression.
Local Open Scope string_scope.

Section Dedup.
Context (env : Env).

Lemma deref_insert (h : heap) (x l : loc) (v : list string) :
  deref (<[x := v]> h) l =
  if decide (l = x /\ (x < length h)%nat) then v else deref h l.
Proof.
  unfold deref. case_decide as Hc.
  - destruct Hc as [-> Hlt]. by rewrite list_lookup_insert_eq.
  - destruct (decide (l = x)) as [->|Hne].
    + rewrite list_insert_ge; [done|]. lia.
    + by rewrite list_lookup_insert_ne.
Qed.

(** After the in-place sort every slice of the combination is sorted. *)
Lemma sort_slices_sorted (fk : gmap string loc) (h : heap) :
  forall k l, fk !! k = Some l -> Sorted String.le (deref (sort_slices fk h) l).
Proof.
  unfold sort_slices.
  apply (map_fold_weak_ind (fun (h' : heap) (m : gmap string loc) =>
    forall k l, m !! k = Some l -> Sorted String.le (deref h' l))).
  - intros k l. by rewrite lookup_empty.
  - intros i x m h' Hi IH k l Hkl.
    assert (Sorted String.le (deref (<[x:=sort_Strings (deref h' x)]> h') x)) as Hx.
    { rewrite deref_insert. case_decide as Hc.
      - apply Sorted_merge_sort. apply _.
      - unfold deref. rewrite lookup_ge_None_2; [constructor|].
        destruct (decide (x < length h')%nat) as [Hlt|Hge]; [|lia].
        exfalso. apply Hc. done. }
    destruct (decide (l = x)) as [->|Hne]; [done|].
    rewrite deref_insert. rewrite decide_False by (intros [? _]; done).
    destruct (decide (k = i)) as [->|Hki].
    + rewrite lookup_insert_eq in Hkl. congruence.
    + rewrite lookup_insert_ne in Hkl by done. by eapply IH.
Qed.

Lemma sort_slices_sorted_lists (fk : gmap string loc) (h : heap) :
  sorted_lists (deref_map (sort_slices fk h) fk).
Proof.
  intros k v. unfold deref_map. rewrite lookup_fmap.
  destruct (fk !! k) as [l|] eqn:Hk; [|done]. intros [= <-].
  by eapply sort_slices_sorted.
Qed.

(** The candidate anchors are entries of [reqKeys], slice for slice. *)
Lemma isDup_key_filterKeys (h : heap) (reqKeys : gmap string loc) (s0 : DupLoop) :
  dl_filterKeys s0 = ∅ ->
  dl_filterKeys (map_fold (isDup_key h) s0 reqKeys) ⊆ reqKeys.
Proof.
  intros Hs0.
  apply (map_fold_weak_ind (fun (s : DupLoop) (m : gmap string loc) => dl_filterKeys s ⊆ m)).
  - rewrite Hs0. done.
  - intros i x m s Hi IH. unfold isDup_key.
    destruct (negb (default false (dl_noisyFields s !! i))).
    + destruct (negb (isAnchor _)); cbn [dl_filterKeys].
      * etrans; [exact IH|]. by apply insert_subseteq.
      * by apply insert_mono.
    + etrans; [exact IH|]. by apply insert_subseteq.
Qed.

Lemma existsb_elem_of (x : gmap string (list string)) (l : list (gmap string (list string))) :
  existsb (fun v => bool_decide (v = x)) l = bool_decide (x ∈ l).
Proof.
  induction l as [|y l IH]; cbn.
  - by rewrite bool_decide_eq_false_2 by (intros []%elem_of_nil).
  - rewrite IH. destruct (decide (y = x)) as [->|Hne].
    + rewrite (bool_decide_eq_true_2 (x = x)) by done.
      rewrite (bool_decide_eq_true_2 (x ∈ x :: l)) by (by left). done.
    + rewrite (bool_decide_eq_false_2 (y = x)) by done. cbn.
      apply bool_decide_ext. rewrite elem_of_cons. split; [by right|].
      intros [?|?]; [congruence|done].
Qed.

Lemma fillCache_inv (t : TestCase) (r : State) :
  EnableDeDup (snd (fillCache env t r)) = EnableDeDup r /\
  rdb_log (snd (fillCache env t r)) = rdb_log r /\
  (tdb_log (snd (fillCache env t r)) = tdb_log r \/
   tdb_log (snd (fillCache env t r))
     = (tdb_log r ++ [TGetKeys (tc_CID t) (tc_AppID t) (tc_URI t)])%list) /\
  (forall index, fst (fillCache env t r) = Ok index -> index = index_of t).
Proof.
  unfold fillCache.
  destruct (bool_decide (is_Some (noisyFields r !! index_of t)) &&
            bool_decide (is_Some (fieldCounts r !! index_of t))).
  { cbn. repeat split; auto. by intros ? [= <-]. }
  destruct (negb (bool_decide (is_Some (noisyFields r !! index_of t))) ||
            negb (bool_decide (is_Some (fieldCounts r !! index_of t)))).
  2: { cbn. repeat split; auto. by intros ? [= <-]. }
  destruct (tdb_GetKeys (tdb env) (tdb_log r) (tc_CID t) (tc_AppID t) (tc_URI t)) as [tcs|e].
  - destruct (fold_left (fillCache_tc) tcs ([], ∅, ∅)) as [[a f] n]. cbn.
    repeat split; auto. by intros ? [= <-].
  - cbn. repeat split; auto. intros ? [=].
Qed.

Lemma isDup_inv (t : TestCase) (r : State) (res : result bool) (t' : TestCase) (r' : State) :
  isDup env t r = (res, t', r') ->
  let r0 := snd (fillCache env t r) in
  let prev := default [] (anchors r0 !! index_of t) in
  EnableDeDup r' = EnableDeDup r /\
  (exists new, tdb_log r' = (tdb_log r ++ new)%list /\ Forall is_dedup_call new) /\
  match res with
  | Err _ => t' = t
  | Ok dup =>
      (dup = true /\ t' = t /\ anchors r' = anchors r0) \/
      (exists all anc, t' = set_Keys all anc t /\ anc ⊆ all /\ sorted_lists anc /\
         anchors r' = <[index_of t := (prev ++ [anc])%list]> (anchors r0) /\
         dup = bool_decide (anc ∈ prev))
  end.
Proof.
  unfold isDup. intros Hdup.
  destruct (fillCache_inv t r) as (Hen & _ & Hlog & Hidx).
  destruct (fillCache env t r) as [[index|e] r0] eqn:Hfc; cbn [fst snd] in *.
  2: { simplify_eq. split; [done|]. split; [|done].
       destruct Hlog as [->| ->]; [exists []|eexists]; split; try done.
       - by rewrite app_nil_r.
       - by repeat constructor. }
  specialize (Hidx index eq_refl). subst index.
  assert (exists new0, tdb_log r0 = (tdb_log r ++ new0)%list /\ Forall is_dedup_call new0)
    as (new0 & Hlog0 & Hnew0).
  { destruct Hlog as [->| ->]; [exists []|eexists]; split; try done.
    - by rewrite app_nil_r.
    - by repeat constructor. }
  destruct (isDup_reqKeys env t) as [[reqKeys h]|e] eqn:Hreq.
  2: { simplify_eq. split; [done|]. split; [|done]. by exists new0. }
  set (s := map_fold (isDup_key h) _ reqKeys) in Hdup.
  assert (dl_filterKeys s ⊆ reqKeys) as Hsub by (by apply isDup_key_filterKeys).
  destruct (decide (size (dl_filterKeys s) = 0%nat)) as [Hsz|Hsz].
  { simplify_eq. split; [done|]. split; [by exists new0|]. left. done. }
  destruct (dl_isAnchorChange s).
  - cbn [tdb_log set_noisyFields set_fieldCounts] in Hdup.
    destruct (tdb_DeleteByAnchor _ _ _ _ _ _) as [e|].
    + simplify_eq. split; [done|]. split; [|done].
      eexists. cbn. rewrite Hlog0, <- app_assoc. split; [done|].
      apply Forall_app. split; [done|]. by repeat constructor.
    + cbn in Hdup. simplify_eq. split; [done|]. split.
      * eexists. cbn. rewrite Hlog0, <- app_assoc. split; [done|].
        apply Forall_app. split; [done|]. by repeat constructor.
      * right. eexists _, _. split; [reflexivity|].
        split; [by apply map_fmap_mono|]. split; [apply sort_slices_sorted_lists|].
        split; [done|]. apply existsb_elem_of.
  - cbn in Hdup. simplify_eq. split; [done|]. split; [by exists new0|].
    right. eexists _, _. split; [reflexivity|].
    split; [by apply map_fmap_mono|]. split; [apply sort_slices_sorted_lists|].
    split; [done|]. apply existsb_elem_of.
Qed.

Lemma is_dedup_put_call (dedup : bool) (new : list tdb_call) :
  Forall is_dedup_call new -> Forall (is_put_call dedup) new.
Proof. intros H. eapply Forall_impl; [exact H|]. intros [] ?; done. Qed.

Lemma putTC_inv (cid : string) (t : TestCase) (r : State) (res : result string) (r' : State) :
  putTC env cid t r = (res, r') ->
  EnableDeDup r' = EnableDeDup r /\
  exists new, tdb_log r' = (tdb_log r ++ new)%list /\ Forall (is_put_call (EnableDeDup r)) new.
Proof.
  unfold putTC. intros Hput.
  destruct (EnableDeDup r) eqn:Hen.
  - destruct (isDup env (set_CID cid t) r) as [[[dup|e] t1] r1] eqn:Hdup.
    2: { apply isDup_inv in Hdup as (Hen1 & (new & Hlog & Hnew) & _). simplify_eq.
         split; [congruence|]. exists new. split; [done|]. by apply is_dedup_put_call. }
    apply isDup_inv in Hdup as (Hen1 & (new & Hlog & Hnew) & Hres).
    destruct dup.
    + simplify_eq. split; [congruence|]. exists new. split; [done|].
      by apply is_dedup_put_call.
    + destruct Hres as [(? & _)|(all & anc & -> & Hsub & Hsorted & _)]; [done|].
      assert (tdb_log r' = (tdb_log r1 ++ [TUpsert (set_Keys all anc (set_CID cid t))])%list
              /\ EnableDeDup r' = EnableDeDup r1) as [Hlog' Hen'].
      { destruct (tdb_Upsert _ _ _); by simplify_eq. }
      split; [congruence|]. eexists. rewrite Hlog', Hlog, <- app_assoc. split; [done|].
      apply Forall_app. split; [by apply is_dedup_put_call|].
      constructor; [|constructor]. cbn. done.
  - assert (tdb_log r' = (tdb_log r ++ [TUpsert (set_CID cid t)])%list
            /\ EnableDeDup r' = EnableDeDup r) as [Hlog' Hen'].
    { destruct (tdb_Upsert _ _ _); by simplify_eq. }
    split; [congruence|]. eexists. split; [exact Hlog'|].
    constructor; [|constructor]. cbn. done.
Qed.

Lemma Put_loop_inv (cid : string) (tcs : list TestCase) :
  forall (ids : list string) (r : State) (ids' : list string) (err : option error) (r' : State),
  Put_loop env cid tcs ids r = (ids', err, r') ->
  EnableDeDup r' = EnableDeDup r /\
  exists new, tdb_log r' = (tdb_log r ++ new)%list /\ Forall (is_put_call (EnableDeDup r)) new.
Proof.
  induction tcs as [|t tcs IH]; intros ids r ids' err r' Hloop; cbn in Hloop.
  - simplify_eq. split; [done|]. exists []. by rewrite app_nil_r.
  - destruct (putTC env cid t r) as [[id|e] r1] eqn:Hput;
      apply putTC_inv in Hput as (Hen1 & new1 & Hlog1 & Hnew1).
    + apply IH in Hloop as (Hen2 & new2 & Hlog2 & Hnew2).
      split; [congruence|]. exists (new1 ++ new2)%list.
      rewrite Hlog2, Hlog1, <- app_assoc. split; [done|].
      apply Forall_app. split; [done|]. by rewrite <- Hen1.
    + simplify_eq. split; [done|]. by exists new1.
Qed.

Lemma Put_inv (cid : string) (tcs : list TestCase) (r : State)
    (ids : list string) (err : option error) (r' : State) :
  Put env cid tcs r = (ids, err, r') ->
  exists new, tdb_log r' = (tdb_log r ++ new)%list /\ Forall (is_put_call (EnableDeDup r)) new.
Proof.
  unfold Put. case_decide.
  - intros [= <- <- <-]. exists []. by rewrite app_nil_r.
  - intros Hloop. by apply Put_loop_inv in Hloop as (_ & Hnew).
Qed.

(** C5. With de-duplication on, every test case that [Put] hands to the
    store for upsert has its anchors among its keys: each path of
    [Anchors] is a path of [AllKeys] with the same value list. *)
Theorem Put_anchors_subset_all_keys (cid : string) (tcs : list TestCase) (r : State)
    (ids : list string) (err : option error) (r' : State) :
  EnableDeDup r = true ->
  Put env cid tcs r = (ids, err, r') ->
  exists new, tdb_log r' = (tdb_log r ++ new)%list /\
    forall u, TUpsert u ∈ new ->
      tc_Anchors u ⊆ tc_AllKeys u /\
      forall k v, tc_Anchors u !! k = Some v -> tc_AllKeys u !! k = Some v.
Proof.
  intros Hen Hput. apply Put_inv in Hput as (new & Hlog & Hnew).
  exists new. split; [done|]. intros u Hu.
  rewrite Forall_forall in Hnew. specialize (Hnew _ Hu). cbn in Hnew.
  destruct (Hnew Hen) as [Hsub _]. split; [done|].
  intros k v Hk. by eapply lookup_weaken.
Qed.

(** C9. When [isDup] gets past the check for an empty candidate map, the
    candidate's value lists are sorted in place before the comparison
    with the earlier combinations: the verdict is whether the sorted
    candidate is among them, the combination appended to
    [anchors[index]] and the anchors written to the test case are that
    sorted candidate; and with de-duplication on, every test case that
    [Put] hands to the store has sorted anchor lists. *)
Theorem isDup_sorts_anchors (t : TestCase) (r : State) (dup : bool)
    (t' : TestCase) (r' : State) :
  isDup env t r = (Ok dup, t', r') ->
  let r0 := snd (fillCache env t r) in
  let prev := default [] (anchors r0 !! index_of t) in
  ((dup = true /\ t' = t /\ anchors r' = anchors r0) \/
   (sorted_lists (tc_Anchors t') /\
    anchors r' = <[index_of t := (prev ++ [tc_Anchors t'])%list]> (anchors r0) /\
    dup = bool_decide (tc_Anchors t' ∈ prev))) /\
  (forall cid tcs ids err r1 r2,
     EnableDeDup r1 = true -> Put env cid tcs r1 = (ids, err, r2) ->
     exists new, tdb_log r2 = (tdb_log r1 ++ new)%list /\
       forall u, TUpsert u ∈ new -> sorted_lists (tc_Anchors u)).
Proof.
  intros Hdup. split.
  - apply isDup_inv in Hdup as (_ & _ & [Hl|(all & anc & -> & _ & Hs & Ha & Hd)]);
      [by left|right]. done.
  - intros cid tcs ids err r1 r2 Hen Hput. apply Put_inv in Hput as (new & Hlog & Hnew).
    exists new. split; [done|]. intros u Hu.
    rewrite Forall_forall in Hnew. specialize (Hnew _ Hu). cbn in Hnew.
    by destruct (Hnew Hen).
Qed.

Lemma Put_loop_slots (cid : string) (tcs : list TestCase) :
  forall (ids0 : list string) (r : State) (ids : list string) (err : option error)
         (r' : State),
  EnableDeDup r = true ->
  Put_loop env cid tcs ids0 r = (ids, err, r') ->
  exists seen rest ids1 r1,
    tcs = (seen ++ rest)%list /\ ids = (ids0 ++ ids1)%list /\
    put_slots env cid r seen ids1 r1 /\
    match err with
    | None => rest = [] /\ r1 = r'
    | Some _ => exists t rest' e, rest = t :: rest' /\ putTC env cid t r1 = (Err e, r')
    end.
Proof.
  induction tcs as [|t tcs IH]; intros ids0 r ids err r' Hen Hloop; cbn in Hloop.
  - simplify_eq. exists [], [], [], r'. rewrite !app_nil_r.
    split; [done|]. split; [done|]. split; [constructor|done].
  - destruct (putTC env cid t r) as [[id|e] r0] eqn:Hput.
    2: { simplify_eq. exists [], (t :: tcs), [], r. rewrite !app_nil_r.
         split; [done|]. split; [done|]. split; [constructor|]. by exists t, tcs, e. }
    unfold putTC in Hput. rewrite Hen in Hput.
    destruct (isDup env (set_CID cid t) r) as [[[dup|e] t1] r1] eqn:Hdup; [|done].
    pose proof (isDup_inv _ _ _ _ _ Hdup) as (Hen1 & _ & Hres).
    destruct dup.
    + simplify_eq.
      apply IH in Hloop as (seen & rest & ids1 & r2 & -> & -> & Hslots & Herr); [|congruence].
      exists (t :: seen), rest, ("" :: ids1), r2. rewrite <- app_assoc.
      split; [done|]. split; [done|]. split; [|done]. by eapply put_slots_dup.
    + destruct (tdb_Upsert (tdb env) (tdb_log r1) t1) as [e|] eqn:Hups; [done|].
      simplify_eq.
      apply IH in Hloop as (seen & rest & ids1 & r2 & -> & -> & Hslots & Herr);
        [|cbn; congruence].
      assert (tc_ID t1 = tc_ID t) as ->.
      { destruct Hres as [(? & _)|(all & anc & -> & _)]; done. }
      exists (t :: seen), rest, (tc_ID t :: ids1), r2. rewrite <- app_assoc.
      split; [done|]. split; [done|]. split; [|done]. by eapply put_slots_new.
Qed.

Lemma put_slots_length (cid : string) (r : State) (tcs : list TestCase)
    (ids : list string) (r' : State) :
  put_slots env cid r tcs ids r' -> length ids = length tcs.
Proof. induction 1; cbn; congruence. Qed.

(** C7. With de-duplication on, [Put] fills the returned ids slot by
    slot for the cases it gets through: where [isDup] answers true the
    slot is the empty string, no error is raised and the next case
    starts from the state [isDup] left, where it answers false the case
    is upserted as [isDup] left it and the slot is its id. Without an
    error all cases are gone through; with one, the ids are those of the
    cases before the failing one. [isDup] itself never upserts. *)
Theorem Put_dedup_slots (cid : string) (tcs : list TestCase) (r : State)
    (ids : list string) (err : option error) (r' : State) :
  EnableDeDup r = true ->
  tcs <> [] ->
  Put env cid tcs r = (ids, err, r') ->
  (exists seen rest r1,
     tcs = (seen ++ rest)%list /\
     put_slots env cid r seen ids r1 /\
     length ids = length seen /\
     match err with
     | None => rest = [] /\ r1 = r'
     | Some _ => exists t rest' e, rest = t :: rest' /\ putTC env cid t r1 = (Err e, r')
     end) /\
  (forall t r0 res t' r1,
     isDup env t r0 = (res, t', r1) ->
     exists new, tdb_log r1 = (tdb_log r0 ++ new)%list /\ forall u, TUpsert u ∉ new).
Proof.
  intros Hen Hne Hput. unfold Put in Hput.
  rewrite decide_False in Hput by (by destruct tcs).
  apply Put_loop_slots in Hput as (seen & rest & ids1 & r1 & -> & -> & Hslots & Herr);
    [|done].
  cbn. split.
  - exists seen, rest, r1. split; [done|]. split; [done|].
    split; [by eapply put_slots_length|done].
  - intros t r0 res t' r2 Hdup.
    apply isDup_inv in Hdup as (_ & (new & Hlog & Hnew) & _).
    exists new. split; [done|]. intros u Hu.
    rewrite Forall_forall in Hnew. by apply Hnew in Hu.
Qed.

Lemma Put_loop_app (cid : string) (pre rest : list TestCase) :
  forall (ids0 : list string) (r : State) (ids1 : list string) (r1 : State),
  Put_loop env cid pre ids0 r = (ids1, None, r1) ->
  Put_loop env cid (pre ++ rest) ids0 r = Put_loop env cid rest ids1 r1 /\
  length ids1 = (length ids0 + length pre)%nat.
Proof.
  induction pre as [|t pre IH]; intros ids0 r ids1 r1 Hloop; cbn in *.
  - simplify_eq. split; [done|]. lia.
  - destruct (putTC env cid t r) as [[id|e] r0]; [|done].
    apply IH in Hloop as [-> ->]. split; [done|]. rewrite length_app. cbn. lia.
Qed.

(** C10. [Put] is not atomic: when the first cases have gone through,
    leaving the ids [ids1], and persisting the next one fails, [Put]
    returns a non-nil error together with [ids1], in the state the
    failing case left; the calls made for the earlier cases, their
    upserts among them, are still the head of the store's history, and
    no delete by id has been issued. *)
Theorem Put_not_atomic (cid : string) (pre post : list TestCase) (t : TestCase) (r : State)
    (ids1 : list string) (r1 r2 : State) (e : error) :
  Put_loop env cid pre [] r = (ids1, None, r1) ->
  putTC env cid t r1 = (Err e, r2) ->
  Put env cid (pre ++ t :: post) r = (ids1, Some "failed saving testcase", r2) /\
  length ids1 = length pre /\
  tdb_log r `prefix_of` tdb_log r1 /\
  tdb_log r1 `prefix_of` tdb_log r2 /\
  (forall u, TUpsert u ∈ tdb_log r1 -> TUpsert u ∈ tdb_log r2) /\
  (forall id, TDelete id ∈ tdb_log r2 -> TDelete id ∈ tdb_log r).
Proof.
  intros Hpre Hfail.
  pose proof (Put_loop_app cid pre (t :: post) _ _ _ _ Hpre) as [Happ Hlen].
  pose proof (Put_loop_inv _ _ _ _ _ _ _ Hpre) as (Hen1 & new1 & Hlog1 & Hnew1).
  pose proof (putTC_inv _ _ _ _ _ Hfail) as (Hen2 & new2 & Hlog2 & Hnew2).
  split.
  { unfold Put. rewrite decide_False by (rewrite length_app; cbn; lia).
    rewrite Happ. cbn. by rewrite Hfail. }
  split; [done|]. split; [by exists new1|]. split; [by exists new2|]. split.
  - intros u Hu. rewrite Hlog2. apply elem_of_app. by left.
  - intros id. rewrite Hlog2, Hlog1, !elem_of_app. intros [[?|Hin]|Hin]; [done|..];
      exfalso; rewrite Forall_forall in Hnew1, Hnew2.
    + by apply Hnew1 in Hin.
    + by apply Hnew2 in Hin.
Qed.
End Dedup.

(** Two captures of the same request: the first is stored, with the
    tags of its body sorted in its keys and in its anchors alike, the
    second is a duplicate. *)
Lemma Put_anchors_subset_all_keys_witness :
  exists ids err r',
    EnableDeDup (Examples.state0 true) = true /\
    Put Examples.env_empty "cid" [Examples.tc_tags "a1"; Examples.tc_tags "a2"]
        (Examples.state0 true) = (ids, err, r') /\
    exists new, tdb_log r' = (tdb_log (Examples.state0 true) ++ new)%list /\
      forall u, TUpsert u ∈ new ->
        tc_Anchors u ⊆ tc_AllKeys u /\
        forall k v, tc_Anchors u !! k = Some v -> tc_AllKeys u !! k = Some v.
Proof.
  eexists _, _, _. split; [reflexivity|]. split; [vm_compute; reflexivity|].
  eapply (Put_anchors_subset_all_keys Examples.env_empty "cid"
            [Examples.tc_tags "a1"; Examples.tc_tags "a2"] (Examples.state0 true));
    [reflexivity|].
  vm_compute. reflexivity.
Defined.

Lemma isDup_sorts_anchors_witness :
  exists t' r',
    isDup Examples.env_empty (Examples.tc_tags "a1") (Examples.state0 true)
      = (Ok false, t', r') /\
    tc_Anchors t' !! "body.tags" = Some ["a"; "b"] /\
    sorted_lists (tc_Anchors t').
Proof.
  eexists _, _. split; [vm_compute; reflexivity|]. split; [vm_compute; reflexivity|].
  assert (forall t' r',
    isDup Examples.env_empty (Examples.tc_tags "a1") (Examples.state0 true)
      = (Ok false, t', r') -> sorted_lists (tc_Anchors t')) as H.
  { intros t' r' Hdup.
    destruct (proj1 (isDup_sorts_anchors Examples.env_empty _ _ _ _ _ Hdup))
      as [(Hd & _)|(Hs & _)]; [discriminate Hd|exact Hs]. }
  eapply H. vm_compute. reflexivity.
Defined.

Lemma Put_dedup_slots_witness :
  exists r',
    EnableDeDup (Examples.state0 true) = true /\
    [Examples.tc_tags "a1"; Examples.tc_tags "a2"] <> [] /\
    Put Examples.env_empty "cid" [Examples.tc_tags "a1"; Examples.tc_tags "a2"]
        (Examples.state0 true) = (["a1"; ""], None, r') /\
    put_slots Examples.env_empty "cid" (Examples.state0 true)
      [Examples.tc_tags "a1"; Examples.tc_tags "a2"] ["a1"; ""] r'.
Proof.
  eexists. split; [reflexivity|]. split; [discriminate|].
  split; [vm_compute; reflexivity|].
  assert (forall r',
    Put Examples.env_empty "cid" [Examples.tc_tags "a1"; Examples.tc_tags "a2"]
        (Examples.state0 true) = (["a1"; ""], None, r') ->
    put_slots Examples.env_empty "cid" (Examples.state0 true)
      [Examples.tc_tags "a1"; Examples.tc_tags "a2"] ["a1"; ""] r') as H.
  { intros r' HPut.
    destruct (proj1 (Put_dedup_slots Examples.env_empty "cid"
                       [Examples.tc_tags "a1"; Examples.tc_tags "a2"] (Examples.state0 true)
                       ["a1"; ""] None r' eq_refl ltac:(discriminate) HPut))
      as (seen & rest & r1 & Htcs & Hslots & _ & -> & ->).
    rewrite app_nil_r in Htcs. rewrite Htcs. exact Hslots. }
  apply H. vm_compute. reflexivity.
Defined.

(** The first capture is stored; the upsert of the second is the fifth
    call on the store and fails: [Put] reports the error with the first
    id, and the first upsert is still in the history. *)
Lemma Put_not_atomic_witness :
  exists r1 r2,
    Put_loop (Examples.env_failing 4) "cid" [Examples.tc_tags "a1"] []
      (Examples.state0 true) = (["a1"], None, r1) /\
    putTC (Examples.env_failing 4) "cid" (Examples.tc_xml "b1") r1
      = (Err "internal failure", r2) /\
    Put (Examples.env_failing 4) "cid" [Examples.tc_tags "a1"; Examples.tc_xml "b1"]
      (Examples.state0 true) = (["a1"], Some "failed saving testcase", r2) /\
    tdb_log r1 `prefix_of` tdb_log r2.
Proof.
  eexists _, _. split; [vm_compute; reflexivity|]. split; [vm_compute; reflexivity|].
  assert (forall r1 r2,
    Put_loop (Examples.env_failing 4) "cid" [Examples.tc_tags "a1"] []
      (Examples.state0 true) = (["a1"], None, r1) ->
    putTC (Examples.env_failing 4) "cid" (Examples.tc_xml "b1") r1
      = (Err "internal failure", r2) ->
    Put (Examples.env_failing 4) "cid" [Examples.tc_tags "a1"; Examples.tc_xml "b1"]
      (Examples.state0 true) = (["a1"], Some "failed saving testcase", r2) /\
    tdb_log r1 `prefix_of` tdb_log r2) as H.
  { intros r1 r2 H1 H2.
    destruct (Put_not_atomic (Examples.env_failing 4) "cid" [Examples.tc_tags "a1"] []
                (Examples.tc_xml "b1") (Examples.state0 true) _ _ _ _ H1 H2)
      as (HPut & _ & _ & Hpre & _).
    split; [exact HPut|exact Hpre]. }
  apply H; vm_compute; reflexivity.
Defined.
End DedupFacts.

(** ** Deletion and the anchor cache *)
Module CacheFacts.
Import Regression.
Local Open Scope string_scope.

Section Cache.
Context (env : Env).

Lemma fillCache_tc_anchors (tcs : list TestCase) :
  forall acc, (fold_left (fillCache_tc) tcs acc).1.1 = (acc.1.1 ++ (tc_Anchors <$> tcs))%list.
Proof.
  induction tcs as [|v tcs IH]; intros [[a f] n]; cbn [fold_left].
  - cbn. by rewrite app_nil_r.
  - rewrite IH. unfold fillCache_tc.
    destruct (map_fold fillCache_key (f, n) (tc_AllKeys v)) as [f' n']. cbn.
    by rewrite <- app_assoc.
Qed.

(** A filled index is not loaded again. *)
Lemma fillCache_hit (t : TestCase) (r : State) :
  is_Some (noisyFields r !! index_of t) -> is_Some (fieldCounts r !! index_of t) ->
  fillCache env t r = (Ok (index_of t), r).
Proof.
  intros H1 H2. unfold fillCache.
  by rewrite !bool_decide_eq_true_2.
Qed.

(** An index that lacks its counts or its noisy set is loaded from the store. *)
Lemma fillCache_miss (t : TestCase) (r : State) (tcs : list TestCase) :
  ~ (is_Some (noisyFields r !! index_of t) /\ is_Some (fieldCounts r !! index_of t)) ->
  tdb_GetKeys (tdb env) (tdb_log r) (tc_CID t) (tc_AppID t) (tc_URI t) = Ok tcs ->
  exists r', fillCache env t r = (Ok (index_of t), r') /\
    anchors r' !! index_of t = Some (tc_Anchors <$> tcs) /\
    is_Some (noisyFields r' !! index_of t) /\ is_Some (fieldCounts r' !! index_of t) /\
    tdb_log r' = (tdb_log r ++ [TGetKeys (tc_CID t) (tc_AppID t) (tc_URI t)])%list.
Proof.
  intros Hmiss Hkeys. unfold fillCache.
  destruct (decide (is_Some (noisyFields r !! index_of t))) as [H1|H1];
    destruct (decide (is_Some (fieldCounts r !! index_of t))) as [H2|H2];
    try (exfalso; apply Hmiss; done).
  all: rewrite ?(bool_decide_eq_true_2 _ H1), ?(bool_decide_eq_false_2 _ H1),
         ?(bool_decide_eq_true_2 _ H2), ?(bool_decide_eq_false_2 _ H2); cbn [andb orb negb].
  all: rewrite Hkeys.
  all: pose proof (fillCache_tc_anchors tcs ([], ∅, ∅)) as Ha.
  all: destruct (fold_left fillCache_tc tcs ([], ∅, ∅)) as [[a f] n]; cbn in Ha; subst a.
  all: eexists; split; [reflexivity|]; cbn.
  all: rewrite !lookup_insert_eq; done.
Qed.

(** C6, as the code has it. After a successful [DeleteTC] the anchors
    entry of the deleted case's index is gone, while the counts and the
    noisy set of that index stay. The next [fillCache] on that index
    loads from the store, anchors included, only when the counts or the
    noisy set are missing; when both are there it returns at once and
    leaves the anchors entry absent. *)
Theorem DeleteTC_evicts_anchors (cid id : string) (r r' : State) :
  DeleteTC env cid id r = (None, r') ->
  exists t, tdb_Get (tdb env) (tdb_log r) cid id = Ok t /\
    anchors r' = delete (index_of t) (anchors r) /\
    anchors r' !! index_of t = None /\
    noisyFields r' = noisyFields r /\ fieldCounts r' = fieldCounts r /\
    forall t2, index_of t2 = index_of t ->
      (is_Some (noisyFields r !! index_of t) -> is_Some (fieldCounts r !! index_of t) ->
         fillCache env t2 r' = (Ok (index_of t), r')) /\
      (~ (is_Some (noisyFields r !! index_of t) /\ is_Some (fieldCounts r !! index_of t)) ->
         forall tcs,
           tdb_GetKeys (tdb env) (tdb_log r') (tc_CID t2) (tc_AppID t2) (tc_URI t2) = Ok tcs ->
           exists r'', fillCache env t2 r' = (Ok (index_of t), r'') /\
             anchors r'' !! index_of t = Some (tc_Anchors <$> tcs)).
Proof.
  unfold DeleteTC. intros Hdel.
  destruct (tdb_Get (tdb env) (tdb_log r) cid id) as [t|e]; [|done].
  exists t. split; [done|].
  assert (anchors r' = delete (index_of t) (anchors r) /\
          noisyFields r' = noisyFields r /\ fieldCounts r' = fieldCounts r) as (Ha & Hn & Hf).
  { destruct (tdb_Delete _ _ _); [done|]. by simplify_eq. }
  split; [done|]. split; [by rewrite Ha, lookup_delete_eq|]. split; [done|]. split; [done|].
  intros t2 Hidx. split.
  - intros H1 H2. rewrite <- Hidx. apply fillCache_hit; rewrite Hidx; congruence.
  - intros Hmiss tcs Hkeys.
    destruct (fillCache_miss t2 r' tcs) as (r'' & Hfill & Hanc & _); [|done|].
    + rewrite Hidx, Hn, Hf. done.
    + exists r''. by rewrite <- Hidx.
Qed.
End Cache.

(** An index is filled from a store holding two cases; one is deleted;
    the next access neither calls [GetKeys] nor restores the anchors of
    the case that is left. *)
Lemma DeleteTC_no_refill :
  exists r1 r2,
    fillCache Examples.env_two (Examples.tc_kept "idA" "json") (Examples.state0 true)
      = (Ok "cid-app-/b10aliens", r1) /\
    anchors r1 !! "cid-app-/b10aliens"
      = Some [ {[ "header.Accept" := ["json"] ]}; {[ "header.Accept" := ["xml"] ]} ] /\
    DeleteTC Examples.env_two "cid" "idA" r1 = (None, r2) /\
    tdb_GetKeys (tdb Examples.env_two) (tdb_log r2) "cid" "app" "/b10aliens"
      = Ok [Examples.tc_kept "idB" "xml"] /\
    fillCache Examples.env_two (Examples.tc_kept "idB" "xml") r2
      = (Ok "cid-app-/b10aliens", r2) /\
    anchors r2 !! "cid-app-/b10aliens" = None.
Proof.
  eexists _, _. split; [vm_compute; reflexivity|].
  split; [vm_compute; reflexivity|]. split; [vm_compute; reflexivity|].
  split; [vm_compute; reflexivity|]. split; vm_compute; reflexivity.
Qed.

Lemma DeleteTC_evicts_anchors_witness :
  exists r1 r2,
    fillCache Examples.env_two (Examples.tc_kept "idA" "json") (Examples.state0 true)
      = (Ok "cid-app-/b10aliens", r1) /\
    DeleteTC Examples.env_two "cid" "idA" r1 = (None, r2) /\
    anchors r2 !! "cid-app-/b10aliens" = None /\
    fieldCounts r2 = fieldCounts r1.
Proof.
  eexists _, _. split; [vm_compute; reflexivity|].
  assert (forall r1 r2, DeleteTC Examples.env_two "cid" "idA" r1 = (None, r2) ->
            tdb_Get (tdb Examples.env_two) (tdb_log r1) "cid" "idA"
              = Ok (Examples.tc_kept "idA" "json") ->
            anchors r2 !! "cid-app-/b10aliens" = None /\ fieldCounts r2 = fieldCounts r1) as H.
  { intros r1 r2 Hdel Hget.
    destruct (DeleteTC_evicts_anchors Examples.env_two "cid" "idA" r1 r2 Hdel)
      as (t & Hget' & _ & Hnone & _ & Hfc & _).
    rewrite Hget in Hget'. injection Hget' as <-. split; [exact Hnone|exact Hfc]. }
  split; [vm_compute; reflexivity|].
  apply H; vm_compute; reflexivity.
Defined.
End CacheFacts.

(** ** More on anchor classification *)
Module AnchorMore.
Import F64.
Local Open Scope Z_scope.

(** The verdict of [isAnchor] in exact arithmetic, for histograms within
    the bounds. *)
Lemma isAnchor_exact (m : gmap string Z) :
  int_min <= sum_counts m < 2 ^ 50 ->
  Z.of_nat (size m) < 2 ^ 50 ->
  isAnchor m = true <-> sum_counts m < 20 \/ 5 * Z.of_nat (size m) < 2 * sum_counts m.
Proof.
  intros Hsum Hsize.
  assert (totalCount m = sum_counts m) as Htot.
  { rewrite AnchorFacts.totalCount_sum. apply AnchorFacts.wrap_int_id. unfold int_max.
    change (2 ^ 50) with 1125899906842624 in Hsum.
    change (2 ^ 63) with 9223372036854775808. lia. }
  unfold isAnchor. rewrite Htot.
  destruct (Z.ltb_spec (sum_counts m) 20) as [Hlt|Hge]; [split; auto|].
  assert (0 < sum_counts m < 2 ^ 50) as Ht by lia.
  assert (0 <= Z.of_nat (size m) < 2 ^ 50) as Hn by lia.
  pose proof (F64Facts.gt_mul_0_40 _ _ Ht Hn) as Hfl.
  destruct (gt (mul (of_int (sum_counts m)) c0_40) (of_int (Z.of_nat (size m)))).
  - split; [intros _; right; by apply Hfl|done].
  - split; [done|]. intros [?|H]; [lia|]. by apply Hfl in H.
Qed.

(** X1. A field that has taken at most seven distinct values is an
    anchor whatever its counts: from 20 observations on, two fifths of
    the total is above 7. *)
Theorem isAnchor_few_values (m : gmap string Z) :
  int_min <= sum_counts m < 2 ^ 50 ->
  (size m <= 7)%nat ->
  isAnchor m = true.
Proof.
  intros Hsum Hsize. apply isAnchor_exact; [done|lia|].
  destruct (Z.lt_ge_cases (sum_counts m) 20); [by left|right; lia].
Qed.

Lemma sum_counts_ones (m : gmap string Z) :
  map_Forall (fun _ v => v = 1) m -> sum_counts m = Z.of_nat (size m).
Proof.
  unfold sum_counts.
  induction m as [|i x m Hi Hfirst IH] using map_first_key_ind; intros Hall.
  - by rewrite map_fold_empty, map_size_empty.
  - rewrite map_fold_insert_first_key by done.
    rewrite map_size_insert_None by done.
    apply map_Forall_insert in Hall as [-> Hall]; [|done].
    rewrite IH by done. lia.
Qed.

(** X2. A field whose values never repeat (every count is 1) is an
    anchor for its first 19 values and stops being one at the 20th. *)
Theorem isAnchor_all_distinct (m : gmap string Z) :
  map_Forall (fun _ v => v = 1) m ->
  Z.of_nat (size m) < 2 ^ 50 ->
  isAnchor m = true <-> (size m < 20)%nat.
Proof.
  intros Hall Hsize. pose proof (sum_counts_ones m Hall) as Hsum.
  rewrite isAnchor_exact; [|unfold int_min; lia|done].
  rewrite Hsum. lia.
Qed.

Lemma isAnchor_few_values_witness :
  (int_min <= sum_counts MoreExamples.hist_blood < 2 ^ 50) /\
  (size MoreExamples.hist_blood <= 7)%nat /\
  isAnchor MoreExamples.hist_blood = true.
Proof.
  assert (sum_counts MoreExamples.hist_blood = 1000) as Hs by (vm_compute; reflexivity).
  assert (int_min <= sum_counts MoreExamples.hist_blood < 2 ^ 50) as H1
    by (rewrite Hs; unfold int_min; lia).
  assert (size MoreExamples.hist_blood <= 7)%nat as H2 by (vm_compute; lia).
  split; [exact H1|]. split; [exact H2|].
  exact (isAnchor_few_values _ H1 H2).
Defined.

Lemma isAnchor_all_distinct_witness :
  map_Forall (fun _ v => v = 1) MoreExamples.hist_stamps /\
  Z.of_nat (size MoreExamples.hist_stamps) < 2 ^ 50 /\
  isAnchor MoreExamples.hist_stamps = true.
Proof.
  assert (map_Forall (fun _ v => v = 1) MoreExamples.hist_stamps) as H1.
  { apply map_Forall_insert_2; [reflexivity|]. apply map_Forall_singleton. reflexivity. }
  assert (Z.of_nat (size MoreExamples.hist_stamps) < 2 ^ 50) as H2
    by (vm_compute; reflexivity).
  split; [exact H1|]. split; [exact H2|].
  apply (isAnchor_all_distinct _ H1 H2). vm_compute. lia.
Defined.
End AnchorMore.

(** ** More on flattening *)
Module FlatKeyMore.
Local Open Scope string_scope.

Lemma string_length_app (a b : string) :
  String.length (a +:+ b) = (String.length a + String.length b)%nat.
Proof.
  induction a as [|c a IH]; [reflexivity|].
  change (S (String.length (a +:+ b)) = S (String.length a + String.length b)).
  by rewrite IH.
Qed.

Section Flatten.
Context (lib : GoLib).

(** Induction on JSON values, through the lists of arrays and objects. *)
Lemma json_induction (P : json -> Prop) :
  P JNull -> (forall b, P (JBool b)) -> (forall x, P (JNumber x)) -> (forall s, P (JString s)) ->
  (forall child, Forall P child -> P (JArray child)) ->
  (forall m, Forall (fun kv => P kv.2) m -> P (JObject m)) ->
  forall j, P j.
Proof.
  intros HN HB HX HS HA HO. fix IH 1. intros [| b | x | s | child | m].
  - exact HN.
  - apply HB.
  - apply HX.
  - apply HS.
  - apply HA. induction child as [|j child IHc]; constructor; [apply IH|exact IHc].
  - apply HO. induction m as [|[k j] m IHm]; constructor; [apply IH|exact IHm].
Qed.

(** One element of an array, for one path: the values are appended to
    what the path holds. *)
Lemma flatten_append_lookup (o nm : gmap string (list string)) (p : string) :
  map_fold flatten_append o nm !! p =
  match nm !! p with
  | Some nv => Some (default [] (o !! p) ++ nv)%list
  | None => o !! p
  end.
Proof.
  revert p.
  apply (map_fold_weak_ind (fun (r nm : gmap string (list string)) =>
    forall p, r !! p = match nm !! p with
                       | Some nv => Some (default [] (o !! p) ++ nv)%list
                       | None => o !! p
                       end)).
  - intros p. by rewrite lookup_empty.
  - intros i x nm' r Hi IH p.
    assert (flatten_append i x r = <[i := (default [] (o !! i) ++ x)%list]> r) as ->.
    { unfold flatten_append. specialize (IH i). rewrite Hi in IH. rewrite IH.
      by destruct (o !! i). }
    destruct (decide (p = i)) as [->|Hne].
    + by rewrite !lookup_insert_eq.
    + rewrite !lookup_insert_ne by done. apply IH.
Qed.

(** The loop over the elements of an array, started from [o]. *)
Lemma flatten_array_lookup (child : list json) :
  forall (o : gmap string (list string)) (p : string),
  (fix range (child : list json) (o : gmap string (list string)) :=
     match child with
     | [] => o
     | av :: child' => range child' (map_fold flatten_append o (flatten lib av))
     end) child o !! p =
  match omap (fun av => flatten lib av !! p) child with
  | [] => o !! p
  | parts => Some (default [] (o !! p) ++ concat parts)%list
  end.
Proof.
  induction child as [|av child IH]; intros o p; [done|].
  rewrite IH, flatten_append_lookup. cbn.
  destruct (flatten lib av !! p) as [nv|]; cbn; [|done].
  destruct (omap _ child) as [|q parts]; cbn.
  - by rewrite app_nil_r.
  - by rewrite <- app_assoc.
Qed.

(** The flattening of an array, path by path. *)
Lemma flatten_array_at (child : list json) (p : string) :
  flatten lib (JArray child) !! p =
    match omap (fun av => flatten lib av !! p) child with
    | [] => None
    | parts => Some (concat parts)
    end.
Proof. cbn [flatten]. rewrite flatten_array_lookup, lookup_empty. done. Qed.

(** X3. In the flattening of an array the position is no part of the
    path: a path holds the value lists that the elements give for it,
    appended in the order of the elements, and is absent when no element
    has it. Two arrays with the same elements in another order thus give
    the same paths, each with a permutation of the same values. *)
Theorem flatten_array (child : list json) (p : string) :
  flatten lib (JArray child) !! p =
    match omap (fun av => flatten lib av !! p) child with
    | [] => None
    | parts => Some (concat parts)
    end /\
  forall child', child ≡ₚ child' ->
    option_Forall2 (≡ₚ) (flatten lib (JArray child) !! p) (flatten lib (JArray child') !! p).
Proof.
  split; [apply flatten_array_at|]. intros child' Hperm. rewrite !flatten_array_at.
  assert (omap (fun av => flatten lib av !! p) child
          ≡ₚ omap (fun av => flatten lib av !! p) child') as Hparts by (by rewrite Hperm).
  revert Hparts.
  generalize (omap (fun av => flatten lib av !! p) child)
             (omap (fun av => flatten lib av !! p) child').
  intros [|q parts] [|q' parts'] Hparts.
  - constructor.
  - by apply Permutation_nil_cons in Hparts.
  - symmetry in Hparts. by apply Permutation_nil_cons in Hparts.
  - constructor. by rewrite Hparts.
Qed.

(** The loop over the entries of the flattening of a member, for one
    key [k] of the object. *)
Lemma join_key_inj (k : string) : Inj (=) (=) (join_key k).
Proof.
  intros a b. unfold join_key.
  assert (forall x, k <> k +:+ "." +:+ x) as Hne.
  { intros x Hx. apply (f_equal String.length) in Hx.
    rewrite !string_length_app in Hx. cbn in Hx. lia. }
  destruct (decide (a = "")) as [->|Ha], (decide (b = "")) as [->|Hb]; intros H;
    [done|by apply Hne in H|symmetry in H; by apply Hne in H|].
  apply (inj (String.app k)) in H. by apply (inj (String.app ".")) in H.
Qed.

Lemma flatten_member_lookup (k : string) (o nm : gmap string (list string)) (p : string) :
  map_fold (fun nk nv o => <[join_key k nk := nv]> o) o nm !! join_key k p =
  match nm !! p with
  | Some nv => Some nv
  | None => o !! join_key k p
  end.
Proof.
  apply (map_fold_weak_ind (fun (r nm : gmap string (list string)) =>
    r !! join_key k p = match nm !! p with Some nv => Some nv | None => o !! join_key k p end)).
  - by rewrite lookup_empty.
  - intros i x nm' r Hi IH.
    destruct (decide (p = i)) as [->|Hne].
    + by rewrite !lookup_insert_eq.
    + rewrite !lookup_insert_ne; [done..|]. intros E. by apply join_key_inj in E.
Qed.

Lemma flatten_member_Forall (P : list string -> Prop) (k : string)
    (o nm : gmap string (list string)) :
  map_Forall (fun _ => P) o -> map_Forall (fun _ => P) nm ->
  map_Forall (fun _ => P) (map_fold (fun nk nv o => <[join_key k nk := nv]> o) o nm).
Proof.
  intros Ho. apply (map_fold_weak_ind (fun (r nm : gmap string (list string)) =>
    map_Forall (fun _ => P) nm -> map_Forall (fun _ => P) r)); [done|].
  intros i x nm' r Hi IH Hnm. apply map_Forall_insert in Hnm as [Hx Hnm]; [|done].
  apply map_Forall_insert_2; auto.
Qed.

(** X4. Every path of a flattened value holds at least one string: the
    code that reads the first element of such a list, or counts its
    values, never meets an empty one. *)
Theorem flatten_values_nonempty (j : json) :
  map_Forall (fun _ v => v <> []) (flatten lib j).
Proof.
  induction j as [| b | x | s | child IH | m IH] using json_induction;
    try (cbn; by apply map_Forall_singleton).
  - intros p v Hv. rewrite flatten_array_at in Hv.
    destruct (omap _ child) as [|q parts] eqn:E; [done|].
    assert (q <> []) as Hq.
    { assert (q ∈ omap (fun av => flatten lib av !! p) child) as Hin
        by (rewrite E; left).
      apply list_elem_of_omap in Hin as (av & Hav & Hp).
      rewrite Forall_forall in IH. by apply (IH av Hav p q). }
    injection Hv as <-. cbn. by destruct q.
  - cbn [flatten].
    assert (forall o : gmap string (list string), map_Forall (fun _ v => v <> []) o ->
      map_Forall (fun _ v => v <> [])
        ((fix range (m : list (string * json)) (o : gmap string (list string)) :=
            match m with
            | [] => o
            | (k, v) :: m' =>
                range m' (map_fold (fun nk nv o => <[join_key k nk := nv]> o) o
                            (flatten lib v))
            end) m o)) as Hgen.
    { induction IH as [|[k v] m Hv _ IHm]; intros o Ho; [done|].
      apply IHm. by apply (flatten_member_Forall (fun v => v <> [])). }
    apply Hgen, map_Forall_empty.
Qed.

(** X5. A member [k] of a one-member object holds, under every path of
    its value prefixed by [k], what the value holds there: nesting adds
    the key and a dot in front, and nothing for the root path of a
    scalar. Paths that are not of this form are absent. *)
Theorem flatten_nested (k : string) (v : json) :
  (forall p, flatten lib (JObject [(k, v)]) !! join_key k p = flatten lib v !! p) /\
  (forall q, is_Some (flatten lib (JObject [(k, v)]) !! q) ->
     exists p, q = join_key k p /\ is_Some (flatten lib v !! p)).
Proof.
  split.
  - intros p. cbn [flatten]. rewrite flatten_member_lookup, lookup_empty.
    by destruct (flatten lib v !! p).
  - cbn [flatten]. apply (map_fold_weak_ind (fun (r nm : gmap string (list string)) =>
      forall q, is_Some (r !! q) -> exists p, q = join_key k p /\ is_Some (nm !! p))).
    + intros q. rewrite lookup_empty. by intros [? ?].
    + intros i x nm' r Hi IH q Hq.
      destruct (decide (q = join_key k i)) as [->|Hne].
      * exists i. by rewrite lookup_insert_eq.
      * rewrite lookup_insert_ne in Hq by done.
        destruct (IH q Hq) as (p & -> & Hp). exists p. split; [done|].
        rewrite lookup_insert_ne; [done|]. by intros ->.
Qed.

Lemma join_key_body_prefix (nk : string) : String.prefix "body" (join_key "body" nk) = true.
Proof. unfold join_key. by destruct (decide (nk = "")). Qed.

(** X6. [addBody] writes under [body] only: a key that does not start
    with [body] holds after the call what it held before, no key of the
    map is lost, and a body that is not JSON is kept whole under the key
    [body]. *)
Theorem addBody_only_body_paths (body : string) (m m' : gmap string (list string)) :
  addBody lib body m = Ok m' ->
  (forall k, String.prefix "body" k = false -> m' !! k = m !! k) /\
  (forall k, is_Some (m !! k) -> is_Some (m' !! k)) /\
  (json_Valid lib body = false -> m' !! "body" = Some [body]).
Proof.
  unfold addBody. intros H.
  destruct (json_Valid lib body) eqn:Hvalid.
  - destruct (json_Unmarshal lib body) as [result|err]; [|done]. injection H as <-.
    split; [|split; [|done]].
    + intros k Hk.
      apply (map_fold_weak_ind (fun (r nm : gmap string (list string)) => r !! k = m !! k));
        [done|].
      intros i x nm' r Hi IH. rewrite lookup_insert_ne; [done|].
      intros E. rewrite <- E, join_key_body_prefix in Hk. done.
    + intros k Hk.
      apply (map_fold_weak_ind (fun (r nm : gmap string (list string)) => is_Some (r !! k)));
        [done|].
      intros i x nm' r Hi IH.
      destruct (decide (join_key "body" i = k)) as [<-|Hne].
      * by rewrite lookup_insert_eq.
      * by rewrite lookup_insert_ne.
  - injection H as <-. split; [|split].
    + intros k Hk. rewrite lookup_insert_ne; [done|]. by intros <-.
    + intros k Hk. destruct (decide ("body" = k)) as [<-|Hne].
      * by rewrite lookup_insert_eq.
      * by rewrite lookup_insert_ne.
    + intros _. by rewrite lookup_insert_eq.
Qed.
End Flatten.

Lemma addBody_only_body_paths_witness :
  addBody Examples.lib0 "plain" {[ "header.Accept" := ["json"] ]}
    = Ok (<["body" := ["plain"]]> {[ "header.Accept" := ["json"] ]}) /\
  (forall k, String.prefix "body" k = false ->
     (<["body" := ["plain"]]> {[ "header.Accept" := ["json"] ]} : gmap string (list string)) !! k
     = ({[ "header.Accept" := ["json"] ]} : gmap string (list string)) !! k).
Proof.
  split; [reflexivity|].
  apply (addBody_only_body_paths Examples.lib0 "plain"). reflexivity.
Defined.
End FlatKeyMore.

(** ** Sanitising of logged input *)
Module SanitiseFacts.
Import RegressionMore.
Local Open Scope string_scope.

Lemma chars_app (a b : string) : chars (a +:+ b) = (chars a ++ chars b)%list.
Proof.
  induction a as [|c a IH]; [reflexivity|].
  change (c :: chars (a +:+ b) = c :: (chars a ++ chars b)%list). by rewrite IH.
Qed.

Lemma strip_newlines_chars (s : string) :
  chars (strip_newlines s)
  = filter (fun c => c <> "010"%char /\ c <> "013"%char) (chars s).
Proof.
  induction s as [|c s IH]; [reflexivity|]. cbn [strip_newlines chars].
  rewrite filter_cons.
  destruct (Ascii.eqb c "010") eqn:E1; cbn [orb].
  - apply Ascii.eqb_eq in E1 as ->. rewrite decide_False by tauto. done.
  - apply Ascii.eqb_neq in E1.
    destruct (Ascii.eqb c "013") eqn:E2.
    + apply Ascii.eqb_eq in E2 as ->. rewrite decide_False by tauto. done.
    + apply Ascii.eqb_neq in E2. rewrite decide_True by tauto. cbn. by rewrite IH.
Qed.

Lemma escape_char_safe (c : ascii) :
  c <> "010"%char -> c <> "013"%char ->
  Forall (fun c => c ∉ ["010"; "013"; "<"; ">"; "'"; "034"]%char) (chars (escape_char c)).
Proof.
  intros H1 H2. unfold escape_char.
  destruct (Ascii.eqb c "&") eqn:E1;
    [repeat constructor; intros H; repeat (apply elem_of_cons in H as [H|H]; [done|]);
     by apply elem_of_nil in H|].
  destruct (Ascii.eqb c "'") eqn:E2;
    [repeat constructor; intros H; repeat (apply elem_of_cons in H as [H|H]; [done|]);
     by apply elem_of_nil in H|].
  destruct (Ascii.eqb c "<") eqn:E3;
    [repeat constructor; intros H; repeat (apply elem_of_cons in H as [H|H]; [done|]);
     by apply elem_of_nil in H|].
  destruct (Ascii.eqb c ">") eqn:E4;
    [repeat constructor; intros H; repeat (apply elem_of_cons in H as [H|H]; [done|]);
     by apply elem_of_nil in H|].
  destruct (Ascii.eqb c "034") eqn:E5;
    [repeat constructor; intros H; repeat (apply elem_of_cons in H as [H|H]; [done|]);
     by apply elem_of_nil in H|].
  apply Ascii.eqb_neq in E2, E3, E4, E5.
  repeat constructor. intros H.
  repeat (apply elem_of_cons in H as [H|H]; [done|]). by apply elem_of_nil in H.
Qed.

Lemma escape_clean (s : string) :
  Forall (fun c => c ∉ ["&"; "<"; ">"; "'"; "034"]%char) (chars s) -> html_EscapeString s = s.
Proof.
  induction s as [|c s IH]; [done|]. cbn [chars html_EscapeString]. intros H.
  apply Forall_cons in H as [Hc Hs]. rewrite (IH Hs). unfold escape_char.
  rewrite !not_elem_of_cons in Hc. destruct Hc as (H1 & H2 & H3 & H4 & H5 & _).
  apply Ascii.eqb_neq in H1, H2, H3, H4, H5. by rewrite H1, H2, H3, H4, H5.
Qed.

Lemma strip_clean (s : string) :
  Forall (fun c => c ∉ ["010"; "013"]%char) (chars s) -> strip_newlines s = s.
Proof.
  induction s as [|c s IH]; [done|]. cbn [chars strip_newlines]. intros H.
  apply Forall_cons in H as [Hc Hs]. rewrite (IH Hs).
  rewrite !not_elem_of_cons in Hc. destruct Hc as (H1 & H2 & _).
  apply Ascii.eqb_neq in H1, H2. by rewrite H1, H2.
Qed.

(** X7. What [sanitiseInput] returns holds no line feed, no carriage
    return, no angle bracket and no quote of either kind, whatever the
    input: a logged value cannot start a new log line. An input without
    these characters and without ampersand is returned as it is. *)
Theorem sanitiseInput_safe (s : string) :
  Forall (fun c => c ∉ ["010"; "013"; "<"; ">"; "'"; "034"]%char) (chars (sanitiseInput s)) /\
  (Forall (fun c => c ∉ ["010"; "013"; "&"; "<"; ">"; "'"; "034"]%char) (chars s) ->
   sanitiseInput s = s).
Proof.
  split.
  - unfold sanitiseInput.
    assert (Forall (fun c => c <> "010"%char /\ c <> "013"%char) (chars (strip_newlines s)))
      as Hstrip.
    { rewrite strip_newlines_chars. apply Forall_forall. intros c Hc.
      by apply list_elem_of_filter in Hc as [? _]. }
    induction (strip_newlines s) as [|c s' IH]; [constructor|].
    cbn [chars html_EscapeString] in *. apply Forall_cons in Hstrip as [[H1 H2] Hs'].
    rewrite chars_app. apply Forall_app. split; [by apply escape_char_safe|by apply IH].
  - intros H. unfold sanitiseInput. rewrite strip_clean, escape_clean; [done|..].
    + eapply Forall_impl; [exact H|]. cbn. intros c Hc.
      rewrite !not_elem_of_cons in *. tauto.
    + eapply Forall_impl; [exact H|]. cbn. intros c Hc.
      rewrite !not_elem_of_cons in *. tauto.
Qed.
End SanitiseFacts.

(** ** More on de-duplication: the keys of a request and the slices *)
Module DedupMore.
Import Regression RegressionMore.
Local Open Scope string_scope.

Lemma heap_ok_empty : heap_ok ∅ [].
Proof. split; intros *; by rewrite lookup_empty. Qed.

Lemma deref_app_lt (h : heap) (v : list string) (l : loc) :
  (l < length h)%nat -> deref (h ++ [v]) l = deref h l.
Proof. intros Hl. unfold deref. by rewrite lookup_app_l. Qed.

Lemma put_slice_ok (k : string) (v : list string) (m : gmap string loc) (h : heap) :
  heap_ok m h ->
  heap_ok (put_slice k v (m, h)).1 (put_slice k v (m, h)).2 /\
  deref_map (put_slice k v (m, h)).2 (put_slice k v (m, h)).1 = <[k := v]> (deref_map h m).
Proof.
  intros [Hlt Hinj]. cbn. split; [split|].
  - intros k' l. rewrite length_app. cbn. destruct (decide (k' = k)) as [->|Hne].
    + rewrite lookup_insert_eq. intros [= <-]. lia.
    + rewrite lookup_insert_ne by done. intros H%Hlt. lia.
  - intros k1 k2 l.
    destruct (decide (k1 = k)) as [->|H1], (decide (k2 = k)) as [->|H2]; [done|..];
      rewrite ?lookup_insert_eq, ?lookup_insert_ne by done.
    + intros [= <-] H%Hlt. lia.
    + intros H%Hlt [= <-]. lia.
    + apply Hinj.
  - unfold deref_map. rewrite fmap_insert. f_equal.
    + unfold deref. by rewrite lookup_app_r, Nat.sub_diag.
    + apply map_fmap_ext. intros k' l Hk'. by apply deref_app_lt, (Hlt k').
Qed.

(** A loop of [put_slice] builds on the heap what the loop of plain
    assignments builds as a value. *)
Lemma put_slice_fold {A} (g : string -> string) (f : A -> list string) (nm : gmap string A) :
  forall (m : gmap string loc) (h : heap),
  heap_ok m h ->
  let acc := map_fold (fun k v acc => put_slice (g k) (f v) acc) (m, h) nm in
  heap_ok acc.1 acc.2 /\
  deref_map acc.2 acc.1 = map_fold (fun k v pm => <[g k := f v]> pm) (deref_map h m) nm.
Proof.
  induction nm as [|i x nm Hi Hfirst IH] using map_first_key_ind; intros m h Hok.
  - by rewrite !map_fold_empty.
  - cbn zeta. rewrite !map_fold_insert_first_key by done.
    destruct (IH m h Hok) as [Hok' Heq].
    destruct (map_fold _ (m, h) nm) as [m' h']. cbn [fst snd] in *.
    destruct (put_slice_ok (g i) (f x) m' h' Hok') as [? ?]. split; [done|].
    by rewrite <- Heq.
Qed.

Section Dedup.
Context (env : Env).

(** The keys [isDup] builds on the heap are the request keys. *)
Lemma isDup_reqKeys_spec (t : TestCase) :
  match isDup_reqKeys env t with
  | Ok (reqKeys, h) => heap_ok reqKeys h /\ request_keys (lib env) t = Ok (deref_map h reqKeys)
  | Err e => request_keys (lib env) t = Err e
  end.
Proof.
  unfold isDup_reqKeys, request_keys.
  pose proof (put_slice_fold (String.app "header.") (fun v => [Join v ""])
                (req_Header (tc_HttpReq t)) ∅ [] heap_ok_empty) as [Hok1 Heq1].
  cbn zeta in Hok1, Heq1.
  destruct (map_fold _ (∅, []) (req_Header (tc_HttpReq t))) as [m1 h1] eqn:E1.
  cbn [fst snd] in *.
  pose proof (put_slice_fold (String.app "url_params.") (fun v => [v])
                (req_URLParams (tc_HttpReq t)) m1 h1 Hok1) as [Hok2 Heq2].
  cbn zeta in Hok2, Heq2.
  destruct (map_fold _ (m1, h1) (req_URLParams (tc_HttpReq t))) as [m2 h2] eqn:E2.
  cbn [fst snd] in *.
  unfold deref_map in Heq1 at 2. rewrite fmap_empty in Heq1.
  rewrite <- Heq1, <- Heq2.
  destruct (json_Valid (lib env) (req_Body (tc_HttpReq t))); [|done].
  destruct (json_Unmarshal (lib env) (req_Body (tc_HttpReq t))) as [result|e]; [|done].
  pose proof (put_slice_fold (join_key "body") (fun v => v)
                (flatten (lib env) result) m2 h2 Hok2) as [Hok3 Heq3].
  cbn zeta in Hok3, Heq3.
  destruct (map_fold _ (m2, h2) (flatten (lib env) result)) as [m3 h3] eqn:E3.
  cbn [fst snd] in *. by rewrite <- Heq3.
Qed.

(** The in-place sort changes the slices of the combination, each into
    its sorted self, and no other slice. *)
Lemma sort_slices_deref (fk : gmap string loc) (h : heap) :
  heap_ok fk h ->
  (forall k l, fk !! k = Some l -> deref (sort_slices fk h) l = sort_Strings (deref h l)) /\
  (forall l, (forall k, fk !! k <> Some l) -> deref (sort_slices fk h) l = deref h l) /\
  length (sort_slices fk h) = length h.
Proof.
  unfold sort_slices.
  apply (map_fold_weak_ind (fun (h' : heap) (m : gmap string loc) =>
    heap_ok m h ->
    (forall k l, m !! k = Some l -> deref h' l = sort_Strings (deref h l)) /\
    (forall l, (forall k, m !! k <> Some l) -> deref h' l = deref h l) /\
    length h' = length h)).
  - intros _. split; [|done]. intros k l. by rewrite lookup_empty.
  - intros i x m r Hi IH [Hlt Hinj].
    assert (heap_ok m h) as Hok.
    { split.
      - intros k l Hk. apply (Hlt k). rewrite lookup_insert_ne; [done|]. by intros ->; simplify_eq.
      - intros k1 k2 l H1 H2. apply (Hinj k1 k2 l); (rewrite lookup_insert_ne; [done|]);
          intros ->; simplify_eq. }
    destruct (IH Hok) as (Ha & Hb & Hc).
    assert (x < length h)%nat as Hx by (apply (Hlt i); by rewrite lookup_insert_eq).
    assert (forall k, m !! k <> Some x) as Hfresh.
    { intros k Hk. assert (k = i) as ->; [|simplify_eq].
      apply (Hinj k i x); [|by rewrite lookup_insert_eq].
      rewrite lookup_insert_ne; [done|]. intros ->. simplify_eq. }
    split; [|split].
    + intros k l Hk. rewrite DedupFacts.deref_insert.
      destruct (decide (k = i)) as [->|Hne].
      * rewrite lookup_insert_eq in Hk. injection Hk as <-.
        rewrite decide_True by (split; [done|lia]). by rewrite Hb.
      * rewrite lookup_insert_ne in Hk by done.
        rewrite decide_False; [by eapply Ha|]. intros [-> _]. by eapply Hfresh.
    + intros l Hl. rewrite DedupFacts.deref_insert.
      rewrite decide_False; [apply Hb|].
      * intros k Hk. apply (Hl k). rewrite lookup_insert_ne; [done|]. intros ->. simplify_eq.
      * intros [-> _]. apply (Hl i). by rewrite lookup_insert_eq.
    + by rewrite length_insert.
Qed.

(** The loop over the request keys: the flag stays set, a noisy path
    stays noisy, the candidate anchors are the request keys that are
    not noisy when the loop ends, and the paths that the request does
    not have keep their mark. *)
Lemma isDup_key_loop (h : heap) (reqKeys : gmap string loc) (s0 : DupLoop) :
  dl_filterKeys s0 = ∅ -> dl_isAnchorChange s0 = true ->
  let s := map_fold (isDup_key h) s0 reqKeys in
  dl_isAnchorChange s = true /\
  (forall k, default false (dl_noisyFields s0 !! k) = true ->
             default false (dl_noisyFields s !! k) = true) /\
  (forall k, dl_filterKeys s !! k =
             if default false (dl_noisyFields s !! k) then None else reqKeys !! k) /\
  (forall k, reqKeys !! k = None -> dl_noisyFields s !! k = dl_noisyFields s0 !! k).
Proof.
  intros Hfk Hac. cbn zeta.
  apply (map_fold_weak_ind (fun (s : DupLoop) (m : gmap string loc) =>
    dl_isAnchorChange s = true /\
    (forall k, default false (dl_noisyFields s0 !! k) = true ->
               default false (dl_noisyFields s !! k) = true) /\
    (forall k, dl_filterKeys s !! k =
               if default false (dl_noisyFields s !! k) then None else m !! k) /\
    (forall k, m !! k = None -> dl_noisyFields s !! k = dl_noisyFields s0 !! k))).
  - split; [done|]. split; [done|]. split; [|done].
    intros k. rewrite Hfk, !lookup_empty. by destruct (default _ _).
  - intros i x m s Hi (H1 & H2 & H3 & H4). unfold isDup_key.
    destruct (default false (dl_noisyFields s !! i)) eqn:Hn; cbn [negb].
    + split; [done|]. split; [done|]. split.
      * intros k. rewrite H3. destruct (decide (k = i)) as [->|Hne].
        -- by rewrite Hn.
        -- by rewrite lookup_insert_ne.
      * intros k Hk. apply H4. destruct (decide (k = i)) as [->|Hne].
        -- by rewrite lookup_insert_eq in Hk.
        -- by rewrite lookup_insert_ne in Hk.
    + destruct (negb (isAnchor _)); cbn [dl_isAnchorChange dl_noisyFields dl_filterKeys].
      * split; [done|]. split; [|split].
        -- intros k Hk. destruct (decide (k = i)) as [->|Hne].
           ++ by rewrite lookup_insert_eq.
           ++ rewrite lookup_insert_ne by done. by apply H2.
        -- intros k. rewrite H3. destruct (decide (k = i)) as [->|Hne].
           ++ by rewrite Hn, lookup_insert_eq, Hi.
           ++ by rewrite !lookup_insert_ne.
        -- intros k Hk. destruct (decide (k = i)) as [->|Hne].
           ++ by rewrite lookup_insert_eq in Hk.
           ++ rewrite lookup_insert_ne in Hk by done. rewrite lookup_insert_ne by done.
              by apply H4.
      * split; [done|]. split; [done|]. split.
        -- intros k. destruct (decide (k = i)) as [->|Hne].
           ++ by rewrite Hn, !lookup_insert_eq.
           ++ rewrite !lookup_insert_ne by done. apply H3.
        -- intros k Hk. apply H4. destruct (decide (k = i)) as [->|Hne].
           ++ by rewrite lookup_insert_eq in Hk.
           ++ by rewrite lookup_insert_ne in Hk.
Qed.

(** What a call of [isDup] that returns a verdict has done. *)
Lemma isDup_shape (t : TestCase) (r : State) (dup : bool) (t' : TestCase) (r' : State) :
  isDup env t r = (Ok dup, t', r') ->
  exists r0 reqKeys h,
    fillCache env t r = (Ok (index_of t), r0) /\
    isDup_reqKeys env t = Ok (reqKeys, h) /\
    let s := map_fold (isDup_key h)
               {| dl_fieldCounts := default ∅ (fieldCounts r0 !! index_of t);
                  dl_noisyFields := default ∅ (noisyFields r0 !! index_of t);
                  dl_filterKeys := ∅; dl_isAnchorChange := true |} reqKeys in
    noisyFields r' = <[index_of t := dl_noisyFields s]> (noisyFields r0) /\
    fieldCounts r' = <[index_of t := dl_fieldCounts s]> (fieldCounts r0) /\
    ((dl_filterKeys s = ∅ /\ dup = true /\ t' = t /\ tdb_log r' = tdb_log r0 /\
      anchors r' = anchors r0) \/
     (dl_filterKeys s <> ∅ /\
      t' = set_Keys (deref_map (sort_slices (dl_filterKeys s) h) reqKeys)
                    (deref_map (sort_slices (dl_filterKeys s) h) (dl_filterKeys s)) t /\
      tdb_log r' = (tdb_log r0 ++ [TDeleteByAnchor (tc_CID t) (tc_AppID t) (tc_URI t)
                                     (deref_map h (dl_filterKeys s))])%list /\
      anchors r' = <[index_of t := (default [] (anchors r0 !! index_of t)
                                    ++ [tc_Anchors t'])%list]> (anchors r0) /\
      dup = bool_decide (tc_Anchors t' ∈ default [] (anchors r0 !! index_of t)))).
Proof.
  unfold isDup. intros Hdup.
  destruct (DedupFacts.fillCache_inv env t r) as (_ & _ & _ & Hidx).
  destruct (fillCache env t r) as [[index|e] r0] eqn:Hfc; cbn [fst snd] in *; [|done].
  specialize (Hidx index eq_refl). subst index.
  destruct (isDup_reqKeys env t) as [[reqKeys h]|e] eqn:Hreq; [|done].
  exists r0, reqKeys, h. split; [done|]. split; [done|]. cbn zeta.
  destruct (isDup_key_loop h reqKeys
              {| dl_fieldCounts := default ∅ (fieldCounts r0 !! index_of t);
                 dl_noisyFields := default ∅ (noisyFields r0 !! index_of t);
                 dl_filterKeys := ∅; dl_isAnchorChange := true |} eq_refl eq_refl)
    as (Hac & _).
  cbn zeta in Hac.
  set (s := map_fold (isDup_key h) _ reqKeys) in *.
  destruct (decide (size (dl_filterKeys s) = 0%nat)) as [Hsz|Hsz].
  { apply map_size_empty_iff in Hsz. simplify_eq. cbn. repeat split; try done. by left. }
  rewrite Hac in Hdup. cbn [tdb_log set_noisyFields set_fieldCounts] in Hdup.
  destruct (tdb_DeleteByAnchor _ _ _ _ _ _) as [e|]; [done|].
  cbn in Hdup. injection Hdup as <- <- <-. cbn. repeat split; try done.
  right. split; [by rewrite <- map_size_empty_iff|]. repeat split; try done.
  apply DedupFacts.existsb_elem_of.
Qed.

(** The keys after the in-place sort, as values. *)
Lemma sorted_keys (reqKeys fk : gmap string loc) (h : heap) :
  heap_ok reqKeys h -> fk ⊆ reqKeys ->
  deref_map (sort_slices fk h) fk = sort_Strings <$> deref_map h fk /\
  deref_map (sort_slices fk h) reqKeys
    = (sort_Strings <$> deref_map h fk) ∪ deref_map h reqKeys.
Proof.
  intros [Hlt Hinj] Hsub.
  assert (heap_ok fk h) as Hok.
  { split.
    - intros k l Hk. apply (Hlt k). by eapply lookup_weaken.
    - intros k1 k2 l H1 H2. apply (Hinj k1 k2 l); by eapply lookup_weaken. }
  destruct (sort_slices_deref fk h Hok) as (Ha & Hb & _).
  split; apply map_eq; intros k; unfold deref_map.
  - rewrite !lookup_fmap. destruct (fk !! k) as [l|] eqn:Hk; [|done]. cbn.
    f_equal. by eapply Ha.
  - rewrite lookup_union, !lookup_fmap.
    destruct (fk !! k) as [l|] eqn:Hk; cbn.
    + rewrite (lookup_weaken _ _ _ _ Hk Hsub). cbn. f_equal. by eapply Ha.
    + destruct (reqKeys !! k) as [l|] eqn:Hr; [|done]. cbn. f_equal. apply Hb.
      intros k' Hk'. assert (k' = k) as ->; [|congruence].
      apply (Hinj k' k l); [by eapply lookup_weaken|done].
Qed.

(** X8. When [isDup] returns a verdict, the candidate anchors are the
    request keys (headers joined, URL parameters, flattened JSON body)
    whose path is not marked noisy once the call is over. With no such
    key the case is called a duplicate and left as it was. Otherwise its
    [Anchors] are these candidates with every value list sorted, and its
    [AllKeys] are the request keys with the lists of the anchors sorted
    and the other lists in request order. *)
Theorem isDup_anchors_quiet_keys (t : TestCase) (r : State) (dup : bool)
    (t' : TestCase) (r' : State) :
  isDup env t r = (Ok dup, t', r') ->
  exists keys anc0,
    request_keys (lib env) t = Ok keys /\
    (forall k, anc0 !! k = if decide (noisy r' (index_of t) k) then None else keys !! k) /\
    ((anc0 = ∅ /\ dup = true /\ t' = t) \/
     (anc0 <> ∅ /\ tc_Anchors t' = sort_Strings <$> anc0 /\
      tc_AllKeys t' = tc_Anchors t' ∪ keys)).
Proof.
  intros (r0 & reqKeys & h & Hfc & Hreq & Hn & _ & Hcases)%isDup_shape.
  cbn zeta in *.
  pose proof (isDup_reqKeys_spec t) as Hspec. rewrite Hreq in Hspec.
  destruct Hspec as [Hok Hkeys].
  destruct (isDup_key_loop h reqKeys
              {| dl_fieldCounts := default ∅ (fieldCounts r0 !! index_of t);
                 dl_noisyFields := default ∅ (noisyFields r0 !! index_of t);
                 dl_filterKeys := ∅; dl_isAnchorChange := true |} eq_refl eq_refl)
    as (_ & _ & Hfk & _).
  cbn zeta in Hfk.
  set (s := map_fold (isDup_key h) _ reqKeys) in *.
  assert (dl_filterKeys s ⊆ reqKeys) as Hsub.
  { apply map_subseteq_spec. intros k l. rewrite Hfk.
    destruct (default false (dl_noisyFields s !! k)); [intros [=]|done]. }
  exists (deref_map h reqKeys), (deref_map h (dl_filterKeys s)).
  split; [done|]. split.
  - intros k. unfold deref_map. rewrite !lookup_fmap, Hfk.
    assert (noisy r' (index_of t) k <-> default false (dl_noisyFields s !! k) = true) as Hk.
    { unfold noisy. by rewrite Hn, lookup_insert_eq. }
    destruct (decide (noisy r' (index_of t) k)) as [Hy|Hy]; rewrite Hk in Hy.
    + by rewrite Hy.
    + by apply not_true_is_false in Hy as ->.
  - destruct Hcases as [(Hemp & -> & -> & _)|(Hne & -> & _)].
    + left. rewrite Hemp. unfold deref_map. by rewrite fmap_empty.
    + right. split.
      * unfold deref_map. intros E. by apply fmap_empty_inv in E.
      * cbn. destruct (sorted_keys reqKeys (dl_filterKeys s) h Hok Hsub) as [E1 E2].
        by rewrite E2, E1.
Qed.

End Dedup.

Lemma isDup_anchors_quiet_keys_witness :
  exists t' r',
    isDup Examples.env_empty (Examples.tc_tags "a1") (Examples.state0 true)
      = (Ok false, t', r') /\
    exists keys (anc0 : gmap string (list string)),
      request_keys (lib Examples.env_empty) (Examples.tc_tags "a1") = Ok keys /\
      (forall k, anc0 !! k
         = if decide (noisy r' (index_of (Examples.tc_tags "a1")) k) then None
           else keys !! k) /\
      ((anc0 = ∅ /\ false = true /\ t' = Examples.tc_tags "a1") \/
       (anc0 <> ∅ /\ tc_Anchors t' = sort_Strings <$> anc0 /\
        tc_AllKeys t' = tc_Anchors t' ∪ keys)).
Proof.
  eexists _, _. split; [vm_compute; reflexivity|].
  eapply (isDup_anchors_quiet_keys Examples.env_empty (Examples.tc_tags "a1")
            (Examples.state0 true)).
  vm_compute. reflexivity.
Defined.

End DedupMore.

(** ** The cache over the life of the service *)
Module CacheMore.
Import Regression RegressionMore.
Local Open Scope string_scope.

Section Cache.
Context (env : Env).

(** A later state of the cache: well formed as before, and with the
    noisy paths of before. *)
Lemma cache_step_refl (r r' : State) :
  noisyFields r' = noisyFields r -> fieldCounts r' = fieldCounts r ->
  anchors r' = anchors r ->
  (cache_wf r -> cache_wf r') /\ (forall i k, noisy r i k -> noisy r' i k).
Proof. unfold cache_wf, noisy. by intros -> -> ->. Qed.

Lemma fillCache_caches (t : TestCase) (r : State) :
  cache_wf r ->
  cache_wf (fillCache env t r).2 /\
  (forall i k, noisy r i k -> noisy (fillCache env t r).2 i k) /\
  (forall index, (fillCache env t r).1 = Ok index ->
     is_Some (noisyFields (fillCache env t r).2 !! index_of t)).
Proof.
  intros Hwf. unfold fillCache.
  destruct (bool_decide (is_Some (noisyFields r !! index_of t))) eqn:E1; cbn [andb negb orb].
  - apply bool_decide_eq_true in E1.
    assert (is_Some (fieldCounts r !! index_of t)) as E2 by (by apply Hwf).
    rewrite (bool_decide_eq_true_2 _ E2). cbn. done.
  - apply bool_decide_eq_false in E1.
    destruct (tdb_GetKeys (tdb env) (tdb_log r) (tc_CID t) (tc_AppID t) (tc_URI t)) as [tcs|e].
    + destruct (fold_left fillCache_tc tcs ([], ∅, ∅)) as [[a f] n]. cbn.
      destruct Hwf as [Hwf1 Hwf2]. split; [split|split].
      * cbn. intros i. destruct (decide (i = index_of t)) as [->|Hne].
        -- by rewrite !lookup_insert_eq.
        -- rewrite !lookup_insert_ne by done. apply Hwf1.
      * cbn. intros i. destruct (decide (i = index_of t)) as [->|Hne].
        -- by rewrite !lookup_insert_eq.
        -- rewrite !lookup_insert_ne by done. apply Hwf2.
      * unfold noisy. cbn. intros i k. destruct (decide (i = index_of t)) as [->|Hne].
        -- intros Hk. exfalso. apply E1. destruct (noisyFields r !! index_of t); [done|].
           cbn in Hk. by rewrite lookup_empty in Hk.
        -- by rewrite lookup_insert_ne.
      * intros _ _. by rewrite lookup_insert_eq.
    + cbn. split; [|split]; [done..|]. intros ? [=].
Qed.

Lemma isDup_caches (t : TestCase) (r : State) (res : result bool) (t' : TestCase) (r' : State) :
  isDup env t r = (res, t', r') ->
  cache_wf r -> cache_wf r' /\ (forall i k, noisy r i k -> noisy r' i k).
Proof.
  unfold isDup. intros Hdup Hwf.
  destruct (fillCache_caches t r Hwf) as (Hwf0 & Hmono0 & Hsome).
  destruct (DedupFacts.fillCache_inv env t r) as (_ & _ & _ & Hidx).
  destruct (fillCache env t r) as [[index|e] r0] eqn:Hfc; cbn [fst snd] in *.
  2: { by simplify_eq. }
  specialize (Hidx index eq_refl). subst index. specialize (Hsome _ eq_refl).
  destruct (isDup_reqKeys env t) as [[reqKeys h]|e] eqn:Hreq.
  2: { by simplify_eq. }
  destruct (DedupMore.isDup_key_loop h reqKeys
              {| dl_fieldCounts := default ∅ (fieldCounts r0 !! index_of t);
                 dl_noisyFields := default ∅ (noisyFields r0 !! index_of t);
                 dl_filterKeys := ∅; dl_isAnchorChange := true |} eq_refl eq_refl)
    as (_ & Hmono & _).
  cbn zeta in Hmono. cbn [dl_noisyFields] in Hmono.
  set (s := map_fold (isDup_key h) _ reqKeys) in *.
  assert (forall (a : list (gmap string (list string))) (r1 : State),
    noisyFields r1 = <[index_of t := dl_noisyFields s]> (noisyFields r0) ->
    fieldCounts r1 = <[index_of t := dl_fieldCounts s]> (fieldCounts r0) ->
    (anchors r1 = anchors r0 \/ anchors r1 = <[index_of t := a]> (anchors r0)) ->
    cache_wf r1 /\ (forall i k, noisy r i k -> noisy r1 i k)) as Hgen.
  { intros a r1 Hn Hf Ha. destruct Hwf0 as [Hwf1 Hwf2]. split; [split|].
    - intros i. rewrite Hn, Hf. destruct (decide (i = index_of t)) as [->|Hne].
      + by rewrite !lookup_insert_eq.
      + rewrite !lookup_insert_ne by done. apply Hwf1.
    - intros i. rewrite Hn. destruct (decide (i = index_of t)) as [->|Hne].
      + by rewrite !lookup_insert_eq.
      + rewrite !lookup_insert_ne by done. destruct Ha as [-> | ->].
        * apply Hwf2.
        * rewrite lookup_insert_ne by done. apply Hwf2.
    - intros i k Hk%Hmono0. unfold noisy in *. rewrite Hn.
      destruct (decide (i = index_of t)) as [->|Hne].
      + rewrite lookup_insert_eq. cbn. by apply Hmono.
      + by rewrite lookup_insert_ne. }
  destruct (decide (size (dl_filterKeys s) = 0%nat)) as [Hsz|Hsz].
  { simplify_eq. apply (Hgen []); auto. }
  destruct (dl_isAnchorChange s).
  - cbn [tdb_log set_noisyFields set_fieldCounts] in Hdup.
    destruct (tdb_DeleteByAnchor _ _ _ _ _ _) as [e|].
    + simplify_eq. apply (Hgen []); auto.
    + cbn in Hdup. simplify_eq. eapply Hgen; [done..|]. right. reflexivity.
  - cbn in Hdup. simplify_eq. eapply Hgen; [done..|]. right. reflexivity.
Qed.

Lemma putTC_caches (cid : string) (t : TestCase) (r : State) (res : result string) (r' : State) :
  putTC env cid t r = (res, r') ->
  cache_wf r -> cache_wf r' /\ (forall i k, noisy r i k -> noisy r' i k).
Proof.
  unfold putTC. intros Hput Hwf.
  assert (forall (u : TestCase) (r1 : State) res r',
    cache_wf r1 -> (forall i k, noisy r i k -> noisy r1 i k) ->
    match tdb_Upsert (tdb env) (tdb_log r1) u with
    | Some _ => (Err "internal failure", log_tdb (TUpsert u) r1)
    | None => (Ok (tc_ID u), log_tdb (TUpsert u) r1)
    end = (res, r') ->
    cache_wf r' /\ (forall i k, noisy r i k -> noisy r' i k)) as Hups.
  { intros u r1 res0 r0' Hwf1 Hmono Hu.
    destruct (tdb_Upsert (tdb env) (tdb_log r1) u); simplify_eq;
      (split; [exact Hwf1|exact Hmono]). }
  destruct (EnableDeDup r).
  - destruct (isDup env (set_CID cid t) r) as [[[dup|e] t1] r1] eqn:Hdup.
    + destruct (isDup_caches _ _ _ _ _ Hdup Hwf) as [Hwf1 Hmono].
      destruct dup; [by simplify_eq|]. by eapply Hups.
    + destruct (isDup_caches _ _ _ _ _ Hdup Hwf) as [Hwf1 Hmono]. by simplify_eq.
  - by eapply Hups.
Qed.

Lemma Put_loop_caches (cid : string) (tcs : list TestCase) :
  forall (ids : list string) (r : State) (ids' : list string) (err : option error) (r' : State),
  Put_loop env cid tcs ids r = (ids', err, r') ->
  cache_wf r -> cache_wf r' /\ (forall i k, noisy r i k -> noisy r' i k).
Proof.
  induction tcs as [|t tcs IH]; intros ids r ids' err r' Hput Hwf; cbn in Hput.
  - by simplify_eq.
  - destruct (putTC env cid t r) as [[id|e] r1] eqn:Hp.
    + destruct (putTC_caches _ _ _ _ _ Hp Hwf) as [Hwf1 Hmono1].
      destruct (IH _ _ _ _ _ Hput Hwf1) as [Hwf' Hmono']. split; [done|]. auto.
    + destruct (putTC_caches _ _ _ _ _ Hp Hwf) as [Hwf1 Hmono1]. by simplify_eq.
Qed.

(** X10. The two maps that [fillCache] looks at are present for the
    same indexes, and an index that has anchors has them too: this holds
    for the service [New] returns, and [Put] and [DeleteTC] keep it,
    whatever they return. The cache is then filled from the store for an
    index exactly when the index has not been seen. *)
Theorem cache_wf_invariant :
  (forall dedup, cache_wf (New dedup)) /\
  (forall cid tcs r, cache_wf r -> cache_wf (Put env cid tcs r).2) /\
  (forall cid id r, cache_wf r -> cache_wf (DeleteTC env cid id r).2) /\
  (forall t r, cache_wf r ->
     (is_Some (noisyFields r !! index_of t) -> fillCache env t r = (Ok (index_of t), r)) /\
     (noisyFields r !! index_of t = None ->
        tdb_log (fillCache env t r).2
        = (tdb_log r ++ [TGetKeys (tc_CID t) (tc_AppID t) (tc_URI t)])%list)).
Proof.
  split; [|split; [|split]].
  - intros dedup. split; intros i; cbn; by rewrite !lookup_empty.
  - intros cid tcs r Hwf. unfold Put. destruct (decide (length tcs = 0%nat)); [done|].
    destruct (Put_loop env cid tcs [] r) as [[ids err] r'] eqn:Hput.
    by destruct (Put_loop_caches _ _ _ _ _ _ _ Hput Hwf).
  - intros cid id r [Hwf1 Hwf2]. unfold DeleteTC.
    destruct (tdb_Get (tdb env) (tdb_log r) cid id) as [t|e]; [|done].
    cbn. destruct (tdb_Delete _ _ _); (split; [done|]); cbn; intros i;
      (destruct (decide (i = index_of t)) as [->|Hne];
       [rewrite lookup_delete_eq; by intros [? ?]
       |rewrite lookup_delete_ne by done; apply Hwf2]).
  - intros t r [Hwf1 Hwf2]. split.
    + intros Hn. apply CacheFacts.fillCache_hit; [done|by apply Hwf1].
    + intros Hn. unfold fillCache. rewrite Hn.
      rewrite (bool_decide_eq_false_2 (is_Some None)) by (by intros [? ?]). cbn.
      destruct (tdb_GetKeys _ _ _ _ _) as [tcs|e]; [|done].
      by destruct (fold_left fillCache_tc tcs ([], ∅, ∅)) as [[a f] n].
Qed.

(** X11. A path that is marked noisy for an index stays marked through
    every later [Put]: de-duplication sets marks and never clears one,
    and on a well-formed cache [fillCache] does not rebuild the marks of
    an index that has them. *)
Theorem Put_noisy_forever (cid : string) (tcs : list TestCase) (r : State)
    (index k : string) :
  cache_wf r -> noisy r index k -> noisy (Put env cid tcs r).2 index k.
Proof.
  intros Hwf Hk. unfold Put. destruct (decide (length tcs = 0%nat)); [done|].
  destruct (Put_loop env cid tcs [] r) as [[ids err] r'] eqn:Hput.
  destruct (Put_loop_caches _ _ _ _ _ _ _ Hput Hwf) as [_ Hmono]. by apply Hmono.
Qed.
End Cache.

Lemma Put_noisy_forever_witness :
  cache_wf MoreExamples.state_noisy /\
  noisy MoreExamples.state_noisy "cid-app-/b10aliens" "header.Accept" /\
  noisy (Put Examples.env_empty "cid" [Examples.tc_tags "a1"] MoreExamples.state_noisy).2
        "cid-app-/b10aliens" "header.Accept".
Proof.
  assert (cache_wf MoreExamples.state_noisy) as Hwf.
  { split; intros i; cbn.
    - destruct (decide (i = "cid-app-/b10aliens")) as [->|Hne];
        [by rewrite !lookup_singleton_eq|by rewrite !lookup_singleton_ne].
    - rewrite lookup_empty. by intros [? ?]. }
  split; [exact Hwf|]. split; [reflexivity|].
  apply (Put_noisy_forever Examples.env_empty "cid" [Examples.tc_tags "a1"]
           MoreExamples.state_noisy _ _ Hwf).
  reflexivity.
Defined.
End CacheMore.

(** ** More on ingestion and deletion *)
Module IngestMore.
Import Regression RegressionMore.
Local Open Scope string_scope.

Section Ingest.
Context (env : Env).

(** X12. With de-duplication on, a capture whose request has no header,
    no URL parameter and a body that is not JSON has no key to be told
    apart by: [putTC] answers the empty id, or fails on the cache, and
    never upserts it. *)
Theorem putTC_keyless_not_stored (cid : string) (t : TestCase) (r : State)
    (res : result string) (r' : State) :
  EnableDeDup r = true ->
  req_Header (tc_HttpReq t) = ∅ -> req_URLParams (tc_HttpReq t) = ∅ ->
  json_Valid (lib env) (req_Body (tc_HttpReq t)) = false ->
  putTC env cid t r = (res, r') ->
  (res = Ok "" \/ res = Err "internal failure") /\
  exists new, tdb_log r' = (tdb_log r ++ new)%list /\ Forall is_dedup_call new.
Proof.
  intros Hen Hh Hp Hb. unfold putTC. rewrite Hen.
  destruct (isDup env (set_CID cid t) r) as [[[dup|e] t1] r1] eqn:Hdup.
  - destruct (DedupFacts.isDup_inv env _ _ _ _ _ Hdup) as (_ & Hlog & _).
    assert (dup = true) as ->.
    { apply DedupMore.isDup_shape in Hdup
        as (r0 & reqKeys & h & _ & Hreq & _ & _ & [(_ & ? & _)|(Hne & _)]); [done|].
      exfalso. apply Hne. clear Hne.
      pose proof (DedupMore.isDup_reqKeys_spec env (set_CID cid t)) as Hspec.
      rewrite Hreq in Hspec. destruct Hspec as [_ Hkeys].
      unfold request_keys in Hkeys. cbn in Hkeys. rewrite Hh, Hp, Hb in Hkeys.
      rewrite !map_fold_empty in Hkeys. injection Hkeys as Hkeys.
      symmetry in Hkeys. apply fmap_empty_inv in Hkeys. subst reqKeys.
      by rewrite map_fold_empty. }
    intros [= <- <-]. split; [by left|done].
  - destruct (DedupFacts.isDup_inv env _ _ _ _ _ Hdup) as (_ & Hlog & _).
    intros [= <- <-]. split; [by right|done].
Qed.

(** X13. With de-duplication on, a capture for an endpoint that the
    cache has not seen is lost when the store cannot list the keys of
    the endpoint: [putTC] answers [internal failure] after the one
    [GetKeys] call, without an upsert, and the cache stays as it was. *)
Theorem putTC_cache_failure (cid : string) (t : TestCase) (r : State) (e : error) :
  EnableDeDup r = true ->
  noisyFields r !! index_of (set_CID cid t) = None ->
  tdb_GetKeys (tdb env) (tdb_log r) cid (tc_AppID t) (tc_URI t) = Err e ->
  putTC env cid t r
  = (Err "internal failure", log_tdb (TGetKeys cid (tc_AppID t) (tc_URI t)) r).
Proof.
  intros Hen Hmiss Hkeys. unfold putTC, isDup, fillCache. rewrite Hen, Hmiss.
  rewrite (bool_decide_eq_false_2 (is_Some None)) by (by intros [? ?]).
  cbn [andb negb orb tc_CID tc_AppID tc_URI set_CID]. by rewrite Hkeys.
Qed.

(** [putTC] without de-duplication: one upsert of the case under the
    caller's company id, and nothing else. *)
Lemma putTC_plain (cid : string) (t : TestCase) (r : State) :
  EnableDeDup r = false ->
  putTC env cid t r =
    (match tdb_Upsert (tdb env) (tdb_log r) (set_CID cid t) with
     | Some _ => Err "internal failure"
     | None => Ok (tc_ID t)
     end, log_tdb (TUpsert (set_CID cid t)) r).
Proof. intros Hen. unfold putTC. rewrite Hen. by destruct (tdb_Upsert _ _ _). Qed.

Lemma Put_loop_plain (cid : string) (tcs : list TestCase) :
  forall (ids0 : list string) (r : State) (ids : list string) (err : option error) (r' : State),
  EnableDeDup r = false ->
  Put_loop env cid tcs ids0 r = (ids, err, r') ->
  anchors r' = anchors r /\ noisyFields r' = noisyFields r /\ fieldCounts r' = fieldCounts r /\
  match err with
  | None =>
      ids = (ids0 ++ (tc_ID <$> tcs))%list /\
      tdb_log r' = (tdb_log r ++ (TUpsert ∘ set_CID cid <$> tcs))%list
  | Some e =>
      e = "failed saving testcase" /\
      exists pre t post, tcs = (pre ++ t :: post)%list /\
        ids = (ids0 ++ (tc_ID <$> pre))%list /\
        tdb_log r' = (tdb_log r ++ (TUpsert ∘ set_CID cid <$> pre ++ [t]))%list /\
        is_Some (tdb_Upsert (tdb env)
                   (tdb_log r ++ (TUpsert ∘ set_CID cid <$> pre))%list (set_CID cid t))
  end.
Proof.
  induction tcs as [|t tcs IH]; intros ids0 r ids err r' Hen Hput; cbn in Hput.
  - injection Hput as <- <- <-. by rewrite !app_nil_r.
  - rewrite (putTC_plain cid t r Hen) in Hput.
    destruct (tdb_Upsert (tdb env) (tdb_log r) (set_CID cid t)) as [e|] eqn:Hu.
    + injection Hput as <- <- <-. split; [done|]. split; [done|]. split; [done|].
      split; [done|]. exists [], t, tcs. cbn. rewrite !app_nil_r.
      split; [done|]. split; [done|]. split; [done|]. by rewrite Hu.
    + apply IH in Hput as (Ha & Hn & Hf & Hcase); [|done].
      split; [done|]. split; [done|]. split; [done|]. destruct err as [e|].
      * destruct Hcase as (-> & pre & t1 & post & -> & -> & Hlog & Hfail).
        split; [done|]. exists (t :: pre), t1, post. cbn in *.
        rewrite <- !app_assoc in *. cbn in *. done.
      * destruct Hcase as (-> & Hlog). cbn in *. rewrite <- !app_assoc in *. done.
Qed.

(** X14. Without de-duplication [Put] is a plain loop of upserts: the
    cache is not touched, a success returns the ids of the cases in
    their order after one upsert for each, under the caller's company
    id, and a failure is the failure of one upsert, after the upserts of
    the cases before it, with the ids of these. *)
Theorem Put_plain (cid : string) (tcs : list TestCase) (r : State)
    (ids : list string) (err : option error) (r' : State) :
  EnableDeDup r = false ->
  tcs <> [] ->
  Put env cid tcs r = (ids, err, r') ->
  anchors r' = anchors r /\ noisyFields r' = noisyFields r /\ fieldCounts r' = fieldCounts r /\
  match err with
  | None =>
      ids = tc_ID <$> tcs /\
      tdb_log r' = (tdb_log r ++ (TUpsert ∘ set_CID cid <$> tcs))%list
  | Some e =>
      e = "failed saving testcase" /\
      exists pre t post, tcs = (pre ++ t :: post)%list /\
        ids = tc_ID <$> pre /\
        tdb_log r' = (tdb_log r ++ (TUpsert ∘ set_CID cid <$> pre ++ [t]))%list /\
        is_Some (tdb_Upsert (tdb env)
                   (tdb_log r ++ (TUpsert ∘ set_CID cid <$> pre))%list (set_CID cid t))
  end.
Proof.
  intros Hen Hne. unfold Put.
  destruct (decide (length tcs = 0%nat)) as [H0|_]; [by destruct tcs|].
  intros Hput. by apply Put_loop_plain in Hput.
Qed.

(** The upserts of one [putTC]: the case under the caller's company id,
    with or without the keys that de-duplication has set. *)
Lemma putTC_upserts (cid : string) (t : TestCase) (r : State) :
  exists new, tdb_log (putTC env cid t r).2 = (tdb_log r ++ new)%list /\
    forall u, TUpsert u ∈ new ->
      u = set_CID cid t \/ exists all anc, u = set_Keys all anc (set_CID cid t).
Proof.
  unfold putTC. destruct (EnableDeDup r).
  - destruct (isDup env (set_CID cid t) r) as [[res t1] r1] eqn:Hdup.
    destruct (DedupFacts.isDup_inv env _ _ _ _ _ Hdup) as (_ & (new & Hlog & Hnew) & Hres).
    assert (forall u, TUpsert u ∉ new) as Hno.
    { intros u Hu. rewrite Forall_forall in Hnew. by apply Hnew in Hu. }
    destruct res as [[|]|e]; cbn.
    + exists new. split; [done|]. intros u Hu. by apply Hno in Hu.
    + exists (new ++ [TUpsert t1])%list. split.
      { destruct (tdb_Upsert _ _ _); cbn; by rewrite Hlog, app_assoc. }
      intros u [Hu|Hu%list_elem_of_singleton]%elem_of_app; [by apply Hno in Hu|].
      injection Hu as ->. destruct Hres as [(? & _)|(all & anc & -> & _)]; [done|].
      right. by exists all, anc.
    + exists new. split; [done|]. intros u Hu. by apply Hno in Hu.
  - exists [TUpsert (set_CID cid t)]. split.
    + by destruct (tdb_Upsert _ _ _).
    + intros u Hu%list_elem_of_singleton. injection Hu as ->. by left.
Qed.

Lemma Put_loop_upserts (cid : string) (tcs : list TestCase) :
  forall (ids0 : list string) (r : State),
  exists new, tdb_log (Put_loop env cid tcs ids0 r).2 = (tdb_log r ++ new)%list /\
    forall u, TUpsert u ∈ new ->
      exists t, t ∈ tcs /\
        (u = set_CID cid t \/ exists all anc, u = set_Keys all anc (set_CID cid t)).
Proof.
  induction tcs as [|t tcs IH]; intros ids0 r; cbn.
  - exists []. split; [by rewrite app_nil_r|]. by intros u Hu%elem_of_nil.
  - destruct (putTC_upserts cid t r) as (new1 & Hlog1 & Hnew1).
    destruct (putTC env cid t r) as [[id|e] r1]; cbn in *.
    + destruct (IH (ids0 ++ [id])%list r1) as (new2 & Hlog2 & Hnew2).
      exists (new1 ++ new2)%list. split; [by rewrite Hlog2, Hlog1, app_assoc|].
      intros u [Hu|Hu]%elem_of_app.
      * exists t. split; [left|by apply Hnew1].
      * destruct (Hnew2 u Hu) as (t2 & Hin & Hu2). exists t2. split; [by right|done].
    + exists new1. split; [done|]. intros u Hu. exists t. split; [left|by apply Hnew1].
Qed.

(** X15. Whatever [Put] returns, and with de-duplication on or off,
    every case it has upserted is one of the cases it was given, stored
    under the company id of the caller and not under the one the case
    came with; apart from the company id and the two key maps the case
    is stored as it came. *)
Theorem Put_upserts_under_callers_cid (cid : string) (tcs : list TestCase) (r : State) :
  exists new, tdb_log (Put env cid tcs r).2 = (tdb_log r ++ new)%list /\
    forall u, TUpsert u ∈ new ->
      tc_CID u = cid /\
      exists t, t ∈ tcs /\ tc_ID u = tc_ID t /\ tc_AppID u = tc_AppID t /\
        tc_URI u = tc_URI t /\ tc_HttpReq u = tc_HttpReq t /\
        tc_HttpResp u = tc_HttpResp t /\ tc_Deps u = tc_Deps t /\ tc_Noise u = tc_Noise t.
Proof.
  unfold Put. destruct (decide (length tcs = 0%nat)).
  { exists []. cbn. split; [by rewrite app_nil_r|]. by intros u Hu%elem_of_nil. }
  destruct (Put_loop_upserts cid tcs [] r) as (new & Hlog & Hnew).
  exists new. split; [done|]. intros u Hu.
  destruct (Hnew u Hu) as (t & Hin & [->|(all & anc & ->)]); (split; [done|]);
    exists t; by repeat split.
Qed.

(** X16. A [DeleteTC] that fails answers [internal failure] and leaves
    the noisy marks and the counts alone. When it is [Get] that failed,
    the anchors are as before and [Delete] was not called; when it is
    [Delete] that failed, the anchors of the index of the stored case
    are gone from the cache all the same. *)
Theorem DeleteTC_failure (cid id : string) (r : State) (e : error) (r' : State) :
  DeleteTC env cid id r = (Some e, r') ->
  e = "internal failure" /\
  noisyFields r' = noisyFields r /\ fieldCounts r' = fieldCounts r /\
  match tdb_Get (tdb env) (tdb_log r) cid id with
  | Err _ => anchors r' = anchors r /\ tdb_log r' = (tdb_log r ++ [TGet cid id])%list
  | Ok t =>
      anchors r' = delete (index_of t) (anchors r) /\
      tdb_log r' = (tdb_log r ++ [TGet cid id; TDelete id])%list /\
      is_Some (tdb_Delete (tdb env) (tdb_log r ++ [TGet cid id])%list id)
  end.
Proof.
  unfold DeleteTC. destruct (tdb_Get (tdb env) (tdb_log r) cid id) as [t|e0].
  - cbn. destruct (tdb_Delete _ _ _) as [e1|] eqn:Hd; [|done].
    intros [= <- <-]. cbn. rewrite <- app_assoc. by repeat split.
  - intros [= <- <-]. by repeat split.
Qed.
End Ingest.

Lemma putTC_cache_failure_witness :
  putTC MoreExamples.env_down "cid" (Examples.tc_tags "a1") (Examples.state0 true)
  = (Err "internal failure", log_tdb (TGetKeys "cid" "app" "/b10aliens") (Examples.state0 true)).
Proof.
  apply (putTC_cache_failure MoreExamples.env_down "cid" (Examples.tc_tags "a1")
           (Examples.state0 true) "down"); reflexivity.
Defined.

Lemma putTC_keyless_not_stored_witness :
  exists r',
    putTC Examples.env_empty "cid" (MoreExamples.tc_bare "p1") (Examples.state0 true)
      = (Ok "", r') /\
    exists new, tdb_log r' = (tdb_log (Examples.state0 true) ++ new)%list /\
      Forall is_dedup_call new.
Proof.
  eexists. split; [vm_compute; reflexivity|].
  eapply (putTC_keyless_not_stored Examples.env_empty "cid" (MoreExamples.tc_bare "p1")
            (Examples.state0 true)); [reflexivity..|].
  vm_compute. reflexivity.
Defined.

Lemma Put_plain_witness :
  exists r',
    Put Examples.env_empty "acme" [Examples.tc_tags "a1"; Examples.tc_tags "a2"]
        (Examples.state0 false) = (["a1"; "a2"], None, r') /\
    tdb_log r' = [TUpsert (set_CID "acme" (Examples.tc_tags "a1"));
                  TUpsert (set_CID "acme" (Examples.tc_tags "a2"))].
Proof.
  eexists. split; [vm_compute; reflexivity|].
  eapply (Put_plain Examples.env_empty "acme" [Examples.tc_tags "a1"; Examples.tc_tags "a2"]
            (Examples.state0 false) _ None); [reflexivity|done|].
  vm_compute. reflexivity.
Defined.

Lemma DeleteTC_failure_witness :
  exists r',
    DeleteTC Examples.env_empty "cid" "missing" (Examples.state0 true)
      = (Some "internal failure", r') /\
    anchors r' = anchors (Examples.state0 true) /\
    tdb_log r' = [TGet "cid" "missing"].
Proof.
  eexists. split; [vm_compute; reflexivity|].
  eapply (DeleteTC_failure Examples.env_empty "cid" "missing" (Examples.state0 true)).
  vm_compute. reflexivity.
Defined.
End IngestMore.

(** ** More on replay: the verdict and the noise *)
Module ReplayMore.
Import Run Regression RegressionMore.
Local Open Scope string_scope.

(** Splitting at the dots and joining with dots gives the string back. *)
Lemma Split_dot_nonempty (s : string) : Split_dot s <> [].
Proof.
  induction s as [|c s IH]; cbn; [done|].
  destruct (Ascii.eqb c "."); [done|]. by destruct (Split_dot s).
Qed.

Lemma Join_Split_dot (s : string) : Join (Split_dot s) "." = s.
Proof.
  unfold Join. induction s as [|c s IH]; [reflexivity|]. cbn [Split_dot].
  destruct (Ascii.eqb c ".") eqn:Hc.
  - apply Ascii.eqb_eq in Hc as ->. pose proof (Split_dot_nonempty s) as Hne.
    destruct (Split_dot s) as [|a l] eqn:E; [done|].
    change (String.concat "." ("" :: a :: l)) with ("." +:+ String.concat "." (a :: l)).
    by rewrite IH.
  - pose proof (Split_dot_nonempty s) as Hne.
    destruct (Split_dot s) as [|a l] eqn:E; [done|].
    rewrite <- IH. by destruct l.
Qed.

(** A string without dot in front of a dot is the first piece. *)
Lemma Split_dot_prefix (p x : string) :
  Split_dot p = [p] -> Split_dot (p +:+ "." +:+ x) = p :: Split_dot x.
Proof.
  revert x. induction p as [|c p IH]; intros x Hp; [reflexivity|].
  cbn [Split_dot] in Hp.
  change (Split_dot (String c (p +:+ "." +:+ x)) = String c p :: Split_dot x).
  cbn [Split_dot]. destruct (Ascii.eqb c "."); [done|].
  pose proof (Split_dot_nonempty p) as Hne.
  destruct (Split_dot p) as [|a l] eqn:E; [done|].
  injection Hp as -> ->. by rewrite (IH x eq_refl).
Qed.

Lemma Split_dot_hd (n a : string) (b : string) (l : list string) :
  Split_dot n = a :: b :: l -> n = a +:+ "." +:+ Join (b :: l) ".".
Proof.
  intros H. rewrite <- (Join_Split_dot n) at 1. rewrite H. reflexivity.
Qed.

Section Replay.
Context (env : Env).

(** X17. The body noise that [test] hands to the matcher is made of the
    noise entries that start with [body.], each without this prefix and
    with its other dots kept: a path is body noise exactly when the case
    lists it behind [body.]. The header noise maps names to themselves. *)
Theorem split_noise_body (noise : list string) :
  (forall x, x ∈ (split_noise noise).1 <-> ("body." +:+ x) ∈ noise) /\
  (forall k v, (split_noise noise).2 !! k = Some v -> v = k).
Proof.
  unfold split_noise.
  induction noise as [|n l IH] using rev_ind; [split|].
  - intros x. cbn. split; by intros ?%elem_of_nil.
  - intros k v. cbn. by rewrite lookup_empty.
  - rewrite fold_left_app. cbn [fold_left].
    destruct (fold_left _ l ([], ∅)) as [bodyNoise headerNoise].
    destruct IH as [IHb IHh]. cbn [fst snd] in *.
    pose proof (Split_dot_nonempty n) as Hne.
    destruct (Split_dot n) as [|a tl] eqn:E; [done|]. cbn [hd List.tl length].
    destruct (bool_decide (1 < S (length tl))%nat && bool_decide (a = "body")) eqn:Hb.
    + apply andb_true_iff in Hb as [Hlen%bool_decide_eq_true ->%bool_decide_eq_true].
      destruct tl as [|b tl]; [cbn in Hlen; lia|].
      apply Split_dot_hd in E. cbn [fst snd]. split; [|done].
      intros x. rewrite !elem_of_app, !list_elem_of_singleton, IHb.
      split.
      * intros [?| ->]; [by left|by right].
      * intros [?|Hx]; [by left|]. right. rewrite E in Hx.
        by apply (inj (String.app "body.")) in Hx.
    + assert (forall x, "body." +:+ x <> n) as Hnot.
      { intros x <-. change ("body." +:+ x) with ("body" +:+ "." +:+ x) in E.
        rewrite (Split_dot_prefix "body" x eq_refl) in E.
        injection E as <- <-. pose proof (Split_dot_nonempty x).
        destruct (Split_dot x); [done|]. cbn in Hb.
        by rewrite bool_decide_eq_true_2 in Hb by done. }
      assert (forall x, x ∈ bodyNoise <-> "body." +:+ x ∈ (l ++ [n])%list) as Hbody.
      { intros x. rewrite elem_of_app, list_elem_of_singleton, IHb. split; [by left|].
        intros [?|Hx]; [done|by apply Hnot in Hx]. }
      destruct (bool_decide (a = "header")); cbn [fst snd]; (split; [done|]); [|done].
      intros k v. destruct (decide (k = default "" (last (a :: tl)))) as [->|Hk].
      * rewrite lookup_insert_eq. by intros [= <-].
      * rewrite lookup_insert_ne by done. apply IHh.
Qed.

(** X18. When [test] returns without an error, its verdict is the
    conjunction of the three parts it records: the body is normal, the
    headers compare equal under the header noise, and the status codes
    are the same; the recorded status part says whether they are. *)
Theorem test_verdict_parts (cid id app : string) (resp : HttpResp) (r : State)
    (pass : bool) (res : Result) (tc : TestCase) (r' : State) :
  test env cid id app resp r = (pass, Some res, Some tc, None, r') ->
  pass = br_Normal (res_BodyResult res)
         && (pkg_CompareHeaders (pkg env) (resp_Header (tc_HttpResp tc)) (resp_Header resp)
               (split_noise (tc_Noise tc)).2).1
         && ir_Normal (res_StatusCode res) /\
  ir_Normal (res_StatusCode res)
    = bool_decide (resp_StatusCode (tc_HttpResp tc) = resp_StatusCode resp) /\
  ir_Expected (res_StatusCode res) = resp_StatusCode (tc_HttpResp tc) /\
  ir_Actual (res_StatusCode res) = resp_StatusCode resp /\
  br_Expected (res_BodyResult res) = resp_Body (tc_HttpResp tc) /\
  br_Actual (res_BodyResult res) = resp_Body resp.
Proof.
  unfold test. destruct (tdb_Get (tdb env) (tdb_log r) cid id) as [tc0|e]; [|done].
  destruct (split_noise (tc_Noise tc0)) as [bodyNoise headerNoise] eqn:Hsplit.
  match goal with
  | |- context [match ?b with Ok _ => _ | Err _ => _ end] => destruct b as [p|e]
  end; [|done].
  destruct (pkg_CompareHeaders _ _ _ _) as [hdrs hRes] eqn:Hcmp.
  intros [= <- <- <- <-]. cbn. rewrite Hsplit. cbn. rewrite Hcmp. cbn.
  repeat split. destruct hdrs, p, (bool_decide _); done.
Qed.

(** X19. A case whose noise holds the entry [body] is never failed on
    its body, and its body is not given to the matcher: [test] returns
    no error and records the body as normal, whatever the two bodies
    are. *)
Theorem test_body_noise (cid id app : string) (resp : HttpResp) (r : State) (tc : TestCase) :
  tdb_Get (tdb env) (tdb_log r) cid id = Ok tc ->
  pkg_Contains (pkg env) (tc_Noise tc) "body" = true ->
  exists pass res,
    test env cid id app resp r = (pass, Some res, Some tc, None, log_tdb (TGet cid id) r) /\
    br_Normal (res_BodyResult res) = true.
Proof.
  intros Hget Hnoise. unfold test. rewrite Hget, Hnoise. cbn.
  destruct (split_noise (tc_Noise tc)) as [bodyNoise headerNoise].
  destruct (pkg_CompareHeaders _ _ _ _) as [hdrs hRes]. by eexists _, _.
Qed.

(** X20. The test that [Test] saves has not completed before it
    started, as long as the clock does not run backwards. *)
Theorem Test_times (cid app runID id : string) (resp : HttpResp) (r : State) (tc : TestCase) :
  tdb_Get (tdb env) (tdb_log r) cid id = Ok tc ->
  (time_Now env (now_calls r) <= time_Now env (S (now_calls r)))%Z ->
  exists t, RPutTest t ∈ rdb_log (Test env cid app runID id resp r).2 /\
    t_Started t = Unix (time_Now env (now_calls r)) /\
    t_Completed t = Unix (time_Now env (S (now_calls r))) /\
    (t_Started t <= t_Completed t)%Z.
Proof.
  intros Hget Hclock. unfold Test.
  destruct (ReplayFacts.test_loaded env cid id app resp (tick_now r) tc Hget)
    as (pass & res & err & Htest & _).
  rewrite Htest. cbn -[saveResult].
  assert (Unix (time_Now env (now_calls r)) <= Unix (time_Now env (S (now_calls r))))%Z
    as Hle by (apply Z.div_le_mono; [done|exact Hclock]).
  destruct pass; cbn -[saveResult]; unfold saveResult;
    match goal with
    | |- context [rdb_PutTest ?d ?l ?t] =>
        exists t; destruct (rdb_PutTest d l t); cbn;
        (split; [rewrite elem_of_app, ?elem_of_app, list_elem_of_singleton; auto|])
    end; destruct err; done.
Qed.

(** X21. [DeNoise] writes the noise anew: called with the response that
    the case has recorded, body and headers, it finds no difference and
    upserts the case with an empty noise list, whatever noise the case
    carried before. *)
Theorem DeNoise_same_response_clears_noise (cid id app : string) (r : State)
    (tc : TestCase) (a : gmap string (list string)) :
  tdb_Get (tdb env) (tdb_log r) cid id = Ok tc ->
  addBody (lib env) (resp_Body (tc_HttpResp tc))
          (flat_headers (resp_Header (tc_HttpResp tc))) = Ok a ->
  DeNoise env cid id app (resp_Body (tc_HttpResp tc)) (resp_Header (tc_HttpResp tc)) r
  = (tdb_Upsert (tdb env) (tdb_log r ++ [TGet cid id]) (set_Noise [] tc),
     log_tdb (TUpsert (set_Noise [] tc)) (log_tdb (TGet cid id) r)).
Proof.
  intros Hget Ha. unfold DeNoise. rewrite Hget, Ha.
  assert (diff_keys a a = []) as ->; [|done].
  destruct (FlatKeyFacts.diff_keys_spec a a) as [_ Hin].
  destruct (diff_keys a a) as [|k l]; [done|].
  assert (k ∈ k :: l) as Hk by left. apply Hin in Hk as [_ Hk]. done.
Qed.
End Replay.

Lemma test_verdict_parts_witness :
  exists res r',
    test Examples.env_bob "cid" "id1" "app" (Examples.resp0 500 (Examples.body_ts "1"))
         (Examples.state0 true) = (false, Some res, Some Examples.tc_bob, None, r') /\
    br_Normal (res_BodyResult res) = true /\
    ir_Normal (res_StatusCode res)
      = bool_decide (resp_StatusCode (tc_HttpResp Examples.tc_bob) = 500%Z).
Proof.
  eexists _, _. split; [vm_compute; reflexivity|]. split; [reflexivity|].
  eapply (test_verdict_parts Examples.env_bob "cid" "id1" "app"
            (Examples.resp0 500 (Examples.body_ts "1")) (Examples.state0 true)
            false _ Examples.tc_bob).
  vm_compute. reflexivity.
Defined.

Lemma DeNoise_same_response_clears_noise_witness :
  tc_Noise Examples.tc_bob = ["stale"] /\
  DeNoise Examples.env_bob "cid" "id1" "app" (resp_Body (tc_HttpResp Examples.tc_bob))
          (resp_Header (tc_HttpResp Examples.tc_bob)) (Examples.state0 true)
  = (tdb_Upsert (tdb Examples.env_bob) (tdb_log (Examples.state0 true) ++ [TGet "cid" "id1"])
       (set_Noise [] Examples.tc_bob),
     log_tdb (TUpsert (set_Noise [] Examples.tc_bob))
       (log_tdb (TGet "cid" "id1") (Examples.state0 true))).
Proof.
  split; [reflexivity|].
  apply (DeNoise_same_response_clears_noise Examples.env_bob "cid" "id1" "app"
           (Examples.state0 true) Examples.tc_bob (Examples.flat_bob "1E+00"));
    vm_compute; reflexivity.
Defined.

Lemma test_body_noise_witness :
  tdb_Get (tdb MoreExamples.env_loud) [] "cid" "id1" = Ok MoreExamples.tc_loud /\
  exists pass res,
    test MoreExamples.env_loud "cid" "id1" "app" (Examples.resp0 200 "anything")
         (Examples.state0 true)
      = (pass, Some res, Some MoreExamples.tc_loud, None,
         log_tdb (TGet "cid" "id1") (Examples.state0 true)) /\
    br_Normal (res_BodyResult res) = true.
Proof.
  split; [vm_compute; reflexivity|].
  apply (test_body_noise MoreExamples.env_loud "cid" "id1" "app"
           (Examples.resp0 200 "anything") (Examples.state0 true) MoreExamples.tc_loud);
    vm_compute; reflexivity.
Defined.

Lemma Test_times_witness :
  exists t,
    RPutTest t ∈ rdb_log (Test Examples.env_bob "cid" "app" "run1" "id1"
                            (Examples.resp0 200 (Examples.body_ts "1"))
                            (Examples.state0 true)).2 /\
    t_Started t = 1700000000%Z /\ (t_Started t <= t_Completed t)%Z.
Proof.
  destruct (Test_times Examples.env_bob "cid" "app" "run1" "id1"
              (Examples.resp0 200 (Examples.body_ts "1")) (Examples.state0 true)
              Examples.tc_bob) as (t & Hin & Hs & _ & Hle).
  - vm_compute. reflexivity.
  - vm_compute. discriminate.
  - exists t. split; [exact Hin|]. split; [|exact Hle]. rewrite Hs. vm_compute. reflexivity.
Defined.
End ReplayMore.

(** ** More on test runs: what the status update and [Get] leave *)
Module RunMore.
Import Run.
Local Open Scope Z_scope.

Section Runs.
Context (rdb : DB) (time_Now : Clock).

Lemma failOldTestRuns_frame (ts : Z) (tr : TestRun) (r : RunState) :
  let out := failOldTestRuns rdb time_Now ts tr r in
  (out.1.2 = tr \/ out.1.2 = set_Status TestRunStatusFailed tr) /\
  rdb_log r `prefix_of` rdb_log out.2 /\ runCount out.2 = runCount r.
Proof.
  unfold failOldTestRuns. cbn zeta. destruct (_ <? _).
  - cbn. by split; [left|].
  - destruct (rdb_Upsert _ _ _); cbn; (split; [by right|]); (split; [|done]);
      by apply prefix_app_r.
Qed.

(** One run of the batch: kept, or failed when it was running; a run
    that is not running costs no store call and counts one. *)
Lemma updateStatus_body_frame (tr : TestRun) (tests : Z) (r : RunState) :
  let out := updateStatus_body rdb time_Now tr tests r in
  (out.1.1.2 = tr \/
   (tr_Status tr = TestRunStatusRunning /\ out.1.1.2 = set_Status TestRunStatusFailed tr)) /\
  rdb_log r `prefix_of` rdb_log out.2 /\ runCount out.2 = runCount r /\
  (if decide (tr_Status tr <> TestRunStatusRunning)
   then out = (None, tr, wrap_int (tests + 1), r)
   else out.1.2 = tests).
Proof.
  unfold updateStatus_body. cbn zeta.
  destruct (decide (tr_Status tr <> TestRunStatusRunning)) as [Hs|Hs].
  { cbn. by split; [left|]. }
  assert (tr_Status tr = TestRunStatusRunning) as Hrun by (by apply dec_stable).
  destruct (rdb_ReadTests rdb (rdb_log r) (tr_ID tr)) as [ts|e].
  2: { cbn. split; [by left|]. split; [by apply prefix_app_r|done]. }
  assert (forall ts0,
    let out := failOldTestRuns rdb time_Now ts0 tr (log_call (RReadTests (tr_ID tr)) r) in
    (out.1.2 = tr \/
     (tr_Status tr = TestRunStatusRunning /\ out.1.2 = set_Status TestRunStatusFailed tr)) /\
    rdb_log r `prefix_of` rdb_log out.2 /\ runCount out.2 = runCount r) as Hf.
  { intros ts0. destruct (failOldTestRuns_frame ts0 tr (log_call (RReadTests (tr_ID tr)) r))
      as (Htr & Hlog & Hcount). cbn zeta. split; [|split; [|done]].
    - destruct Htr as [?|?]; [by left|by right].
    - etrans; [|exact Hlog]. by apply prefix_app_r. }
  destruct ts as [|first ts].
  - specialize (Hf (tr_Created tr)). cbn zeta in Hf.
    destruct (failOldTestRuns _ _ _ _ _) as [[err tr'] r']. cbn in *. tauto.
  - specialize (Hf (newest first (first :: ts))). cbn zeta in Hf.
    destruct (failOldTestRuns _ _ _ _ _) as [[err tr'] r']. cbn in *. tauto.
Qed.

Lemma updateStatus_loop_frame (trs : list TestRun) :
  forall (tests : Z) (r : RunState),
  let out := updateStatus_loop rdb time_Now trs tests r in
  Forall2 (fun tr tr' =>
             tr' = tr \/
             (tr_Status tr = TestRunStatusRunning /\ tr' = set_Status TestRunStatusFailed tr))
          trs out.1.1.2 /\
  rdb_log r `prefix_of` rdb_log out.2 /\ runCount out.2 = runCount r /\
  (Forall (fun tr => tr_Status tr <> TestRunStatusRunning) trs ->
   out.1.1 = (None, trs) /\ out.2 = r) /\
  (out.1.1.1 = None -> 0 <= tests -> tests + Z.of_nat (length trs) <= int_max ->
   out.1.2 = tests + Z.of_nat (length (filter (fun tr => tr_Status tr <> TestRunStatusRunning)
                                         trs))).
Proof.
  induction trs as [|tr trs IH]; intros tests r; cbn zeta.
  { cbn. repeat split; try done. intros _ _ _. lia. }
  cbn [updateStatus_loop].
  destruct (updateStatus_body_frame tr tests r) as (Htr & Hlog & Hcount & Hdone).
  cbn zeta in *.
  destruct (updateStatus_body rdb time_Now tr tests r) as [[[err tr'] tests'] r'] eqn:Hbody.
  cbn [fst snd] in *.
  assert (Forall2 (fun tr tr' : TestRun =>
             tr' = tr \/
             (tr_Status tr = TestRunStatusRunning /\ tr' = set_Status TestRunStatusFailed tr))
            trs trs) as Hrefl.
  { clear. induction trs; constructor; auto. }
  destruct err as [e|].
  - cbn. split; [by constructor|]. split; [done|]. split; [done|]. split; [|done].
    intros [Hs _]%Forall_cons. rewrite decide_True in Hdone by done. done.
  - specialize (IH tests' r'). cbn zeta in IH.
    destruct (updateStatus_loop rdb time_Now trs tests' r') as [[[err trs'] tests''] r''].
    cbn [fst snd] in *. destruct IH as (IH1 & IH2 & IH3 & IH4 & IH5).
    split; [by constructor|]. split; [by etrans|]. split; [congruence|]. split.
    + intros [Hs Hrest]%Forall_cons. rewrite decide_True in Hdone by done.
      injection Hdone as -> -> ->. destruct (IH4 Hrest) as [[= -> ->] ->]. done.
    + intros -> H0 Hmax. rewrite length_cons in Hmax. rewrite filter_cons.
      destruct (decide (tr_Status tr <> TestRunStatusRunning)) as [Hs|Hs].
      * injection Hdone as -> -> ->.
        rewrite AnchorFacts.wrap_int_id in IH5 by (unfold int_min, int_max in *; lia).
        rewrite IH5 by (try done; lia). cbn [length]. lia.
      * subst tests'. rewrite IH5 by (try done; lia). done.
Qed.

(** The batch after the status update, and the log. *)
Lemma updateStatus_kept (trs : list TestRun) (r : RunState) :
  let out := updateStatus rdb time_Now trs r in
  Forall2 (fun tr tr' =>
             tr' = tr \/
             (tr_Status tr = TestRunStatusRunning /\ tr' = set_Status TestRunStatusFailed tr))
          trs out.1.2 /\
  rdb_log r `prefix_of` rdb_log out.2.
Proof.
  cbn zeta. unfold updateStatus.
  destruct (updateStatus_loop_frame trs 0 r) as (H1 & H2 & _). cbn zeta in *.
  destruct (updateStatus_loop rdb time_Now trs 0 r) as [[[err trs'] tests] r'].
  cbn [fst snd] in *.
  destruct err as [e|]; [done|]. by destruct (decide (tests <> runCount r')).
Qed.

(** X22. Whatever [updateStatus] returns, the batch it leaves has the
    runs of the batch it was given, in their order, each as it was or,
    when it was running, with the status failed; the calls made before
    stay in the log. A batch without a running run is left as it is and
    costs no call on the store. *)
Theorem updateStatus_frame (trs : list TestRun) (r : RunState) :
  let out := updateStatus rdb time_Now trs r in
  Forall2 (fun tr tr' =>
             tr' = tr \/
             (tr_Status tr = TestRunStatusRunning /\ tr' = set_Status TestRunStatusFailed tr))
          trs out.1.2 /\
  rdb_log r `prefix_of` rdb_log out.2 /\
  (Forall (fun tr => tr_Status tr <> TestRunStatusRunning) trs ->
   out.1 = (None, trs) /\ rdb_log out.2 = rdb_log r /\ now_calls out.2 = now_calls r).
Proof.
  cbn zeta. unfold updateStatus.
  destruct (updateStatus_loop_frame trs 0 r) as (H1 & H2 & _ & H4 & _). cbn zeta in *.
  destruct (updateStatus_loop rdb time_Now trs 0 r) as [[[err trs'] tests] r'].
  cbn [fst snd] in *.
  destruct err as [e|]; cbn [fst snd].
  - split; [done|]. split; [done|]. intros Hall. by destruct (H4 Hall) as [[=] _].
  - destruct (decide (tests <> runCount r')); cbn [fst snd]; (split; [done|]);
      (split; [done|]); intros Hall; destruct (H4 Hall) as [[= ->] ->]; done.
Qed.

(** X23. After a status update that succeeds, the run count of the
    service is the number of runs of the batch that were not running
    when the update came to them; the runs it has just failed are not
    among them. *)
Theorem updateStatus_runCount (trs trs' : list TestRun) (r r' : RunState) :
  updateStatus rdb time_Now trs r = (None, trs', r') ->
  Z.of_nat (length trs) <= int_max ->
  runCount r'
  = Z.of_nat (length (filter (fun tr => tr_Status tr <> TestRunStatusRunning) trs)).
Proof.
  unfold updateStatus. intros Hup Hmax.
  destruct (updateStatus_loop_frame trs 0 r) as (_ & _ & Hcount & _ & H5). cbn zeta in *.
  destruct (updateStatus_loop rdb time_Now trs 0 r) as [[[err trs0] tests] r0].
  cbn [fst snd] in *. destruct err as [e|]; [done|].
  specialize (H5 eq_refl ltac:(lia) ltac:(lia)). rewrite Z.add_0_l in H5.
  destruct (decide (tests <> runCount r0)) as [Hne|Heq%dec_stable].
  - injection Hup as <- <-. done.
  - injection Hup as <- <-. congruence.
Qed.

Lemma Get_attach_spec (res : list TestRun) :
  forall (r : RunState) (res' : list TestRun) (r' : RunState),
  Get_attach rdb res r = (Ok res', r') ->
  rdb_log r' = (rdb_log r ++ (RReadTests ∘ tr_ID <$> res))%list /\
  Forall2 (fun v v' =>
             exists log, log `prefix_of` rdb_log r' /\ rdb_log r `prefix_of` log /\
               rdb_ReadTests rdb log (tr_ID v) = Ok (tr_Tests v') /\
               v' = set_Tests (tr_Tests v') v) res res'.
Proof.
  induction res as [|v res IH]; intros r res' r' Hget; cbn in Hget.
  - injection Hget as <- <-. cbn. by rewrite app_nil_r.
  - destruct (rdb_ReadTests rdb (rdb_log r) (tr_ID v)) as [tests|e] eqn:Hread; [|done].
    destruct (Get_attach rdb res (log_call (RReadTests (tr_ID v)) r)) as [[res1|e] r1] eqn:Hrest;
      [|done].
    injection Hget as <- <-. destruct (IH _ _ _ Hrest) as [Hlog Hall]. cbn in Hlog.
    split; [by rewrite Hlog, <- app_assoc|]. constructor.
    + exists (rdb_log r). split; [|done]. rewrite Hlog, <- app_assoc. by apply prefix_app_r.
    + eapply Forall2_impl; [exact Hall|]. cbn. intros x y (log & H1 & H2 & H3 & H4).
      exists log. split; [done|]. split; [|done]. etrans; [|exact H2]. by apply prefix_app_r.
Qed.

(** X24. [Get] asks the store for one page, from offset 0 and of 25
    runs unless the caller says otherwise, and a failure of this read is
    reported as [failed getting test runs] without another call. The
    runs of a full answer are those of the page, in their order, each
    with its status as read or failed when it was running, and each with
    the child tests that the store gave for its id in a read of its
    own. *)
Theorem Get_page (summary : bool) (cid : string) (user app id : option string)
    (from to : option Z) (offset limit : option Z) (r : RunState) :
  let out := Get rdb time_Now summary cid user app id from to offset limit r in
  let call := RRead cid user app id from to (default 0 offset) (default 25 limit) in
  (rdb_log r ++ [call])%list `prefix_of` rdb_log out.2 /\
  match rdb_Read rdb (rdb_log r) cid user app id from to (default 0 offset) (default 25 limit)
  with
  | Err _ => out = (Err "failed getting test runs"%string, log_call call r)
  | Ok page =>
      forall res, out.1 = Ok res ->
        Forall2 (fun run v =>
                   tr_ID v = tr_ID run /\
                   (tr_Status v = tr_Status run \/
                    (tr_Status run = TestRunStatusRunning /\
                     tr_Status v = TestRunStatusFailed)) /\
                   (summary = false ->
                    exists log, log `prefix_of` rdb_log out.2 /\
                      rdb_ReadTests rdb log (tr_ID run) = Ok (tr_Tests v)))
                page res
  end.
Proof.
  cbn zeta. unfold Get.
  destruct (rdb_Read rdb (rdb_log r) cid user app id from to _ _) as [page|e]; [|done].
  destruct (updateStatus_kept page
              (log_call (RRead cid user app id from to (default 0 offset) (default 25 limit)) r))
    as (Hframe & Hlog). cbn zeta in *.
  destruct (updateStatus rdb time_Now page _) as [[err page'] r1]. cbn [fst snd] in *.
  destruct err as [e|]; [done|].
  assert (Forall2 (fun run v : TestRun =>
            tr_ID v = tr_ID run /\
            (tr_Status v = tr_Status run \/
             (tr_Status run = TestRunStatusRunning /\ tr_Status v = TestRunStatusFailed)))
          page page') as Hframe'.
  { eapply Forall2_impl; [exact Hframe|]. cbn. intros run v [->|[Hrun ->]]; [auto|].
    split; [done|]. by right. }
  destruct summary.
  { cbn. split; [done|]. intros res [= <-].
    eapply Forall2_impl; [exact Hframe'|]. cbn. intros run v (? & ?). done. }
  destruct (decide (length page' = 0%nat)) as [Hlen|Hlen].
  { cbn. split; [done|]. intros res [= <-]. destruct page'; [|done].
    apply Forall2_nil_inv_r in Hframe' as ->. constructor. }
  destruct (Get_attach rdb page' r1) as [[res1|e] r2] eqn:Hatt; cbn [fst snd].
  - destruct (Get_attach_spec _ _ _ _ Hatt) as [Hlog2 Hall].
    split. { etrans; [exact Hlog|]. rewrite Hlog2. by apply prefix_app_r. }
    intros res [= <-].
    assert (forall l1 l2 l3,
      Forall2 (fun run v : TestRun =>
            tr_ID v = tr_ID run /\
            (tr_Status v = tr_Status run \/
             (tr_Status run = TestRunStatusRunning /\ tr_Status v = TestRunStatusFailed)))
          l1 l2 ->
      Forall2 (fun v v' =>
             exists log, log `prefix_of` rdb_log r2 /\ rdb_log r1 `prefix_of` log /\
               rdb_ReadTests rdb log (tr_ID v) = Ok (tr_Tests v') /\
               v' = set_Tests (tr_Tests v') v) l2 l3 ->
      Forall2 (fun run v =>
                 tr_ID v = tr_ID run /\
                 (tr_Status v = tr_Status run \/
                  (tr_Status run = TestRunStatusRunning /\
                   tr_Status v = TestRunStatusFailed)) /\
                 (false = false ->
                  exists log, log `prefix_of` rdb_log r2 /\
                    rdb_ReadTests rdb log (tr_ID run) = Ok (tr_Tests v))) l1 l3) as Hcomp.
    { intros l1 l2 l3 H12. revert l3. induction H12 as [|a b l1 l2 (Hid & Hst) _ IH];
        intros l3 H23; inversion H23 as [|b' c l2' l3' (log & Hp & _ & Hread & Hc) Hrest];
        subst; constructor; [|by apply IH].
      rewrite Hc. cbn. split; [done|]. split; [done|]. intros _. exists log.
      rewrite <- Hid. split; [done|]. by rewrite Hc in Hread. }
    by eapply Hcomp.
  - split; [|done].
    assert (rdb_log r1 `prefix_of` rdb_log r2) as Hp; [|by etrans].
    clear -Hatt. revert r1 e r2 Hatt.
    induction page' as [|v l IH]; intros r1 e r2 Hatt; cbn in Hatt; [done|].
    destruct (rdb_ReadTests rdb (rdb_log r1) (tr_ID v)) as [tests|e1].
    + destruct (Get_attach rdb l (log_call (RReadTests (tr_ID v)) r1)) as [[res1|e2] r3] eqn:Hrest;
        [done|]. injection Hatt as <- <-. apply IH in Hrest. etrans; [|exact Hrest].
      by apply prefix_app_r.
    + injection Hatt as <- <-. by apply prefix_app_r.
Qed.
End Runs.

Lemma updateStatus_runCount_witness :
  exists r',
    updateStatus Examples.rdb0 Examples.clock0
      [Examples.run_stale; Examples.run_fresh; Examples.run_done] Examples.run_state0
    = (None, [set_Status TestRunStatusFailed Examples.run_stale; Examples.run_fresh;
              Examples.run_done], r') /\
    runCount r' = 1.
Proof.
  eexists. split; [vm_compute; reflexivity|].
  eapply (updateStatus_runCount Examples.rdb0 Examples.clock0
            [Examples.run_stale; Examples.run_fresh; Examples.run_done] _
            Examples.run_state0);
    [vm_compute; reflexivity|vm_compute; discriminate].
Defined.
End RunMore.

(** ** The documents sent to Mongo *)
Module MgoFacts.
Import Run Regression Mgo.
Local Open Scope string_scope.
Local Open Scope Z_scope.

(** X25. The filter of [Read] always holds the company id of the
    caller. It never bounds [updated] on both sides: when an upper bound
    is given the lower bound is dropped, and the filter is the one of a
    read without lower bound. *)
Theorem Read_filter_bounds (cid : string) (user app id : option string) (from to : option Z) :
  Read_filter cid user app id from to !! "cid" = Some (BString cid) /\
  Read_filter cid user app id from to !! "updated"
    = match to, from with
      | Some t, _ => Some (BCmp "$lte" (Unix t))
      | None, Some f => Some (BCmp "$gte" (Unix f))
      | None, None => None
      end /\
  (forall t, to = Some t ->
     Read_filter cid user app id from to = Read_filter cid user app id None to).
Proof.
  unfold Read_filter. split; [|split].
  - destruct user, app, id, from, to;
      rewrite ?lookup_insert_ne by done; by rewrite lookup_singleton_eq.
  - destruct user, app, id, from, to;
      rewrite ?lookup_insert_eq; try done;
      rewrite ?lookup_insert_ne by done; by rewrite lookup_singleton_ne.
  - intros t ->. destruct from; [|done]. by rewrite insert_insert_eq.
Qed.

Section Save.
Context (env : Env).

(** X26. The update of [Increment] names one counter at most, and with
    both flags set it is the failure counter alone. [saveResult] never
    sets both: the increment it asks for after a successful [PutTest] is
    for the run of the test and for one counter, [failure] for a failed
    test and [success] for any other. *)
Theorem saveResult_increment (t : Run.Test) (r : State) :
  Increment_update true true = Increment_update false true /\
  exists new, rdb_log (saveResult env t r).2 = (rdb_log r ++ RPutTest t :: new)%list /\
    (new = [] \/
     exists s f, new = [RIncrement s f (t_RunID t)] /\
       Increment_update s f
       = {[ "$inc" := [(if bool_decide (t_Status t = TestStatusFailed)
                        then "failure" else "success", 1)] ]}).
Proof.
  split; [unfold Increment_update; by rewrite insert_insert_eq|].
  unfold saveResult. destruct (rdb_PutTest (rdb env) (Regression.rdb_log r) t).
  - exists []. cbn. split; [done|by left].
  - eexists. cbn. rewrite <- app_assoc. split; [done|]. right. eexists _, _. split; [done|].
    unfold Increment_update. by destruct (bool_decide (t_Status t = TestStatusFailed)).
Qed.
End Save.
End MgoFacts.

(** ** The demo API *)
Module DemoFacts.
Import Demo.
Local Open Scope string_scope.
Local Open Scope Z_scope.

Lemma remove_loop_spec (id : string) (st : list b10alien) :
  match remove_loop id st with
  | Some st' =>
      exists pre a post, st = (pre ++ a :: post)%list /\ ID a = id /\
        (id ∉ (ID <$> pre)) /\ st' = (pre ++ post)%list
  | None => id ∉ (ID <$> st)
  end.
Proof.
  induction st as [|a st IH]; cbn; [by intros ?%elem_of_nil|].
  destruct (decide (ID a = id)) as [Ha|Ha].
  - exists [], a, st. cbn. repeat split; try done. by intros ?%elem_of_nil.
  - destruct (remove_loop id st) as [st'|]; cbn.
    + destruct IH as (pre & b & post & -> & Hb & Hpre & ->).
      exists (a :: pre), b, post. cbn. repeat split; try done.
      intros [?|?]%elem_of_cons; [congruence|done].
    + intros [?|?]%elem_of_cons; [congruence|done].
Qed.

Lemma edit_loop_spec (id : string) (edit : b10alien) (st : list b10alien) :
  match edit_loop id edit st with
  | Some st' =>
      exists pre a post, st = (pre ++ a :: post)%list /\ ID a = id /\
        (id ∉ (ID <$> pre)) /\
        st' = (pre ++ {| ID := id; Name := Name edit; Power := Power edit;
                         Special := Special edit |} :: post)%list
  | None => id ∉ (ID <$> st)
  end.
Proof.
  induction st as [|a st IH]; cbn; [by intros ?%elem_of_nil|].
  destruct (decide (ID a = id)) as [Ha|Ha].
  - exists [], a, st. cbn. rewrite Ha. repeat split; try done. by intros ?%elem_of_nil.
  - destruct (edit_loop id edit st) as [st'|]; cbn.
    + destruct IH as (pre & b & post & -> & Hb & Hpre & ->).
      exists (a :: pre), b, post. cbn. repeat split; try done.
      intros [?|?]%elem_of_cons; [congruence|done].
    + intros [?|?]%elem_of_cons; [congruence|done].
Qed.

(** X27. [removeB10alien] answers 200 exactly when some alien has the
    id. It then takes out the first alien with this id and no other:
    the aliens before it and after it stay, in their order. With no
    such alien it answers 400 and the list is as before. *)
Theorem removeB10alien_first (id : string) (st : list b10alien) :
  let out := removeB10alien id st in
  (out.1.1 = StatusOK <-> id ∈ (ID <$> st)) /\
  (out.1.1 = StatusOK \/ out.1.1 = StatusBadRequest) /\
  (out.1.1 = StatusBadRequest -> out.2 = st) /\
  (out.1.1 = StatusOK ->
   exists pre a post, st = (pre ++ a :: post)%list /\ ID a = id /\
     (id ∉ (ID <$> pre)) /\ out.2 = (pre ++ post)%list).
Proof.
  cbn zeta. unfold removeB10alien. pose proof (remove_loop_spec id st) as H.
  destruct (remove_loop id st) as [st'|]; cbn.
  - destruct H as (pre & a & post & -> & Ha & Hpre & ->).
    split; [|split; [by left|split; [done|]]].
    + split; [|done]. intros _. rewrite fmap_app, elem_of_app. right. cbn. rewrite Ha. left.
    + intros _. by exists pre, a, post.
  - split; [|split; [by right|done]]. split; [done|]. intros Hin. by apply H in Hin.
Qed.

(** X28. [editB10alien] never changes the ids of the list nor their
    order: an edit that succeeds gives the first alien with the id of
    the path the name, the power and the special of the body, and keeps
    its id whatever id the body carries; the answer is the body as it
    came. Any other outcome is a 400 that leaves the list alone. *)
Theorem editB10alien_keeps_ids (id : string) (bound : option b10alien) (st : list b10alien) :
  let out := editB10alien id bound st in
  ID <$> out.2 = ID <$> st /\
  (out.1.1 = StatusOK \/ (out.1.1 = StatusBadRequest /\ out.2 = st)) /\
  (out.1.1 = StatusOK ->
   exists edit pre a post, bound = Some edit /\ out.1.2 = Alien edit /\
     st = (pre ++ a :: post)%list /\ ID a = id /\ (id ∉ (ID <$> pre)) /\
     out.2 = (pre ++ {| ID := id; Name := Name edit; Power := Power edit;
                        Special := Special edit |} :: post)%list).
Proof.
  cbn zeta. unfold editB10alien. destruct bound as [edit|]; cbn.
  2: { split; [done|]. split; [by right|done]. }
  pose proof (edit_loop_spec id edit st) as H.
  destruct (edit_loop id edit st) as [st'|]; cbn.
  - destruct H as (pre & a & post & -> & Ha & Hpre & ->).
    split; [|split; [by left|]].
    + rewrite !fmap_app. cbn. by rewrite Ha.
    + intros _. by exists edit, pre, a, post.
  - split; [done|]. split; [by right|done].
Qed.

(** X29. [addB10alien] does not look at the ids. Removing by its id an
    alien that was just added gives the list of before when the id was
    new; when the id was taken, it is the older alien with this id that
    goes and the added one stays. *)
Theorem add_then_remove (new : b10alien) (st : list b10alien) :
  let added := (addB10alien (Some new) st).2 in
  added = (st ++ [new])%list /\
  (ID new ∉ (ID <$> st) ->
   removeB10alien (ID new) added = (StatusOK, Message "Item Deleted", st)) /\
  (ID new ∈ (ID <$> st) ->
   exists st', removeB10alien (ID new) added
               = (StatusOK, Message "Item Deleted", (st' ++ [new])%list) /\
     length st' = pred (length st)).
Proof.
  cbn zeta. cbn [addB10alien snd]. split; [done|].
  assert (forall l, ID new ∉ (ID <$> l) -> remove_loop (ID new) (l ++ [new]) = Some l) as Hnew.
  { induction l as [|a l IH]; cbn; intros Hl.
    - by rewrite decide_True.
    - rewrite not_elem_of_cons in Hl. destruct Hl as [Ha Hl].
      rewrite decide_False by done. by rewrite (IH Hl). }
  split.
  - intros Hnot. unfold removeB10alien. by rewrite (Hnew st Hnot).
  - intros Hin. unfold removeB10alien.
    assert (exists st', remove_loop (ID new) (st ++ [new]) = Some (st' ++ [new])%list /\
                        length st' = pred (length st)) as (st' & -> & Hlen).
    { induction st as [|a st IH]; [by apply elem_of_nil in Hin|]. cbn.
      destruct (decide (ID a = ID new)) as [Ha|Ha]; [by exists st|].
      cbn in Hin. apply elem_of_cons in Hin as [?|Hin]; [congruence|].
      destruct (IH Hin) as (st' & -> & Hlen). exists (a :: st'). cbn. split; [done|].
      destruct st; [by apply elem_of_nil in Hin|]. cbn in *. by rewrite Hlen. }
    by exists st'.
Qed.
End DemoFacts.
